(** * Korean–English oral test data analysis: extraction, derivation,
      filtering, hypothesis verdicts and ingestion staging

    Shallow embedding of [src/api_server.py] (record extractor, feature
    deriver, dataset builder, filter engine, the three hypothesis
    evaluators) and of the upload loop of
    [src/airflow/dags/daily_data_pipeline.py].

    Conventions of the embedding.
    - A Python value coming out of [json.loads] is a [pyval]; a dict is an
      association list in insertion order, looked up by its first binding.
    - A float (a JSON float, a cell of a numeric pandas column, a statistic
      returned by scipy) is a [num]: a finite value carried exactly as a
      rational, NaN, or a signed infinity.  Only comparisons, truncation and
      truthiness are performed on them by the code modelled here, and those
      are exact on the rational value.
    - Python exceptions are the [Raise] branch of [res].
    - Library calls whose result is a floating-point computation or a parser
      (the [float] builtin, [pd.to_numeric], [Series.mean], the scipy tests,
      [datetime.strptime]) are fields of the interfaces [Builtins], [Pandas]
      and [SciPy]; every theorem holds for any implementation of them. *)

From Stdlib Require Import ZArith QArith Qround Qabs Ascii String List Bool Lia.
From stdpp Require Import base option list gmap strings fin_maps.

Open Scope string_scope.
Open Scope Z_scope.

(** ** Floats *)

Inductive num :=
| Num (q : Q)
| NaN
| Inf (negative : bool).

(** IEEE comparisons: every comparison with NaN is false. *)
Definition num_lt (a b : num) : bool :=
  match a, b with
  | Num p, Num q => negb (Qle_bool q p)
  | Num _, Inf neg => negb neg
  | Inf neg, Num _ => neg
  | Inf na, Inf nb => na && negb nb
  | _, _ => false
  end.

Definition num_gt (a b : num) : bool := num_lt b a.

Definition num_le (a b : num) : bool :=
  match a, b with
  | Num p, Num q => Qle_bool p q
  | Num _, Inf neg => negb neg
  | Inf neg, Num _ => neg
  | Inf na, Inf nb => na || negb nb
  | _, _ => false
  end.

Definition num_ge (a b : num) : bool := num_le b a.

Definition num_isna (a : num) : bool :=
  match a with NaN => true | _ => false end.

Definition of_int (z : Z) : num := Num (inject_Z z).

(** ** Python values *)

#[warnings="-register-all"]
Inductive pyval :=
| PNone
| PBool (b : bool)
| PInt (z : Z)
| PFloat (x : num)
| PStr (s : string)
| PList (l : list pyval)
| PDict (kvs : list (string * pyval)).

Inductive exn :=
| AttributeError
| TypeError
| ValueError
| OverflowError
| KeyError
| HTTPException (status_code : Z) (detail : string).

Inductive res (A : Type) :=
| Ok (a : A)
| Raise (e : exn).
Arguments Ok {A} a.
Arguments Raise {A} e.

#[export] Instance res_ret : MRet res := fun _ a => Ok a.
#[export] Instance res_bind : MBind res := fun _ _ f m =>
  match m with
  | Ok a => f a
  | Raise e => Raise e
  end.

(** Truth value testing ([bool(v)], [if v], [not v]). *)
Definition truthy (v : pyval) : bool :=
  match v with
  | PNone => false
  | PBool b => b
  | PInt z => negb (z =? 0)
  | PFloat (Num q) => negb (Qeq_bool q 0)
  | PFloat _ => true
  | PStr s => negb (String.eqb s "")
  | PList l => negb (Nat.eqb (length l) 0)
  | PDict kvs => negb (Nat.eqb (length kvs) 0)
  end.

(** [d[k]] on an insertion-ordered dict. *)
Fixpoint dict_lookup {A} (kvs : list (string * A)) (k : string) : option A :=
  match kvs with
  | [] => None
  | (k', v) :: rest => if String.eqb k' k then Some v else dict_lookup rest k
  end.

(** [v.get(k, default)]: an [AttributeError] unless [v] is a dict. *)
Definition py_get (v : pyval) (k : string) (dflt : pyval) : res pyval :=
  match v with
  | PDict kvs => Ok (default dflt (dict_lookup kvs k))
  | _ => Raise AttributeError
  end.

(** [v == s] and [v != s] against a string literal. *)
Definition py_eq_str (v : pyval) (s : string) : bool :=
  match v with
  | PStr s' => String.eqb s' s
  | _ => false
  end.

(** [needle in hay] on strings.  Strings are UTF-8 byte sequences; UTF-8 is
    self-synchronising, so a well-formed needle occurs byte-wise exactly where
    it occurs code-point-wise. *)
Fixpoint str_contains (needle hay : string) : bool :=
  String.prefix needle hay ||
  match hay with
  | EmptyString => false
  | String _ rest => str_contains needle rest
  end.

(** [pd.isna] on an object cell: [None] or a float NaN. *)
Definition py_isna (v : pyval) : bool :=
  match v with
  | PNone => true
  | PFloat NaN => true
  | _ => false
  end.

(** [int(x)] on a float: truncation toward zero. *)
Definition Qtruncate (q : Q) : Z :=
  if Qle_bool 0 q then Qfloor q else Qceiling q.

Definition py_int (x : num) : res Z :=
  match x with
  | Num q => Ok (Qtruncate q)
  | NaN => Raise ValueError
  | Inf _ => Raise OverflowError
  end.

Definition num_abs (x : num) : num :=
  match x with
  | Num q => Num (Qabs q)
  | NaN => NaN
  | Inf _ => Inf false
  end.

(** ** Library interfaces *)

(** Python builtins and standard library. *)
Class Builtins := {
  (** [float(v)]; raises [ValueError] or [TypeError] when [v] does not
      convert. *)
  py_float : pyval -> res num;
  (** Whether [datetime.strptime(s, fmt)] returns (instead of raising). *)
  strptime_ok : string -> string -> bool
}.

(** numpy and pandas. *)
Class Pandas := {
  (** One cell of [pd.to_numeric(column, errors='coerce')]: NaN when the cell
      does not parse as a number. *)
  to_numeric : pyval -> num;
  (** [Series.mean()] and [Series.var()]. *)
  series_mean : list num -> num;
  series_var : list num -> num;
  (** [groupby(key)[value].agg([...]).to_dict()] on the two columns. *)
  groupby_agg : list string -> list string -> list num -> pyval;
  (** float64 arithmetic. *)
  fadd : num -> num -> num;
  fsub : num -> num -> num;
  fmul : num -> num -> num;
  fdiv : num -> num -> num;
  np_sqrt : num -> num
}.

(** scipy.stats; each test returns (statistic, p-value), and is taken to
    return on the samples the evaluators hand it. *)
Class SciPy := {
  pearsonr : list num -> list num -> num * num;
  spearmanr : list num -> list num -> num * num;
  f_oneway : list (list num) -> num * num;
  ttest_ind : list num -> list num -> num * num;
  mannwhitneyu : list num -> list num -> num * num;
  (** [chi2_contingency(pd.crosstab(flag, level))], from the two columns. *)
  chi2_contingency : list bool -> list pyval -> num * num
}.

(** ** Effect size *)

(** Double literals, as the exact value of the double they denote
    ([0.05] is 3602879701896397 / 2^56, and so on).  No double lies strictly
    between 1/20 and that value, so on doubles [p < 0.05] is [p < 1/20]. *)
Definition lit_0_05 : num := Num (3602879701896397 # 72057594037927936).
Definition lit_0_2 : num := Num (3602879701896397 # 18014398509481984).
Definition lit_0_5 : num := Num (1 # 2).
Definition lit_0_8 : num := Num (3602879701896397 # 4503599627370496).

Definition calculate_effect_size `{Pandas} (group1 group2 : list num) : num :=
  let n1 := Z.of_nat (length group1) in
  let n2 := Z.of_nat (length group2) in
  let pooled_std :=
    np_sqrt (fdiv (fadd (fmul (of_int (n1 - 1)) (series_var group1))
                        (fmul (of_int (n2 - 1)) (series_var group2)))
                  (of_int (n1 + n2 - 2))) in
  fdiv (fsub (series_mean group1) (series_mean group2)) pooled_std.

Definition interpret_effect_size (d : num) : string :=
  let abs_d := num_abs d in
  if num_lt abs_d lit_0_2 then "작은 효과"
  else if num_lt abs_d lit_0_5 then "중간 효과"
  else if num_lt abs_d lit_0_8 then "큰 효과"
  else "매우 큰 효과".

(** ** Feature deriver *)

(** [LEVEL_MAPPING], the same table in [api_server.py] and in
    [shared/constants.py]. *)
Definition LEVEL_MAPPING : gmap string Z :=
  list_to_map [("IG", 1); ("TL", 2); ("TM", 3); ("TH", 4); ("NA", 5)].

(** [AGE_GROUPS] of [shared/constants.py]: label and inclusive bounds. *)
Definition AGE_GROUPS : list (string * (Z * Z)) :=
  [("20대 초반", (0, 24)); ("20대 후반", (25, 29)); ("30대 초반", (30, 34));
   ("30대 후반", (35, 39)); ("40대 이상", (40, 100))].

(** Applied to the cells of the [age] column after numeric coercion, so the
    argument is a float64 cell; an absent or unparsable raw age arrives as
    NaN. *)
Definition create_age_groups (age : num) : res string :=
  if num_isna age then Ok "미상"
  else
    age_int ← py_int age;
    if age_int <? 25 then Ok "20대 초반"
    else if age_int <? 30 then Ok "20대 후반"
    else if age_int <? 35 then Ok "30대 초반"
    else if age_int <? 40 then Ok "30대 후반"
    else Ok "40대 이상".

Definition classify_metropolitan (location : pyval) : bool :=
  match location with
  | PStr s =>
      let metro_areas := ["서울"; "경기"] in
      existsb (fun area => str_contains area s) metro_areas
  | _ => false
  end.

Definition extract_english_experience (interview_data : pyval) : bool :=
  match interview_data with
  | PDict kvs => py_eq_str (default (PStr "") (dict_lookup kvs "영어권_거주_여부")) "있음"
  | _ => false
  end.

(** [Series.map(LEVEL_MAPPING)] on one cell: the rank of a known code, NaN
    for any other hashable value, [TypeError] for an unhashable one. *)
Definition map_level (v : pyval) : res num :=
  match v with
  | PStr s =>
      match LEVEL_MAPPING !! s with
      | Some n => Ok (of_int n)
      | None => Ok NaN
      end
  | PList _ | PDict _ => Raise TypeError
  | _ => Ok NaN
  end.

(** ** Record extractor *)

(** The dict built by [extract_analysis_data]. *)
Record Extracted := {
  x_participant_id : pyval;
  x_age : pyval;
  x_gender : pyval;
  x_location : pyval;
  x_english_level : pyval;
  x_self_grade : pyval;
  x_combo_scores : list (string * num);
  x_interview : pyval;
  x_file_date : pyval;
  x_year : pyval
}.

(** [v.items()]. *)
Definition py_items (v : pyval) : res (list (string * pyval)) :=
  match v with
  | PDict kvs => Ok kvs
  | _ => Raise AttributeError
  end.

(** The comprehension
    [{k: float(v) for k, v in ... if k.startswith('Combo') and v != ''}];
    JSON keys are always strings. *)
Definition combo_scores_of `{Builtins} (items : list (string * pyval))
  : res (list (string * num)) :=
  mapM (fun kv => x ← py_float kv.2; mret (kv.1, x))
       (List.filter (fun kv => String.prefix "Combo" kv.1 && negb (py_eq_str kv.2 ""))
                    items).

(** The dict literal of the [try] block, fields evaluated in source order. *)
Definition extract_fields `{Builtins} (data : pyval) : res Extracted :=
  speaker ← py_get data "speaker" (PDict []);
  participant_id ← py_get speaker "id" (PStr "");
  age ← py_get speaker "age" PNone;
  gender ← py_get speaker "gender" (PStr "");
  location ← py_get speaker "location" (PStr "");
  level ← py_get speaker "level" (PDict []);
  english_level ← py_get level "final" (PStr "");
  self_grade ← py_get speaker "self_grade" (PStr "");
  level' ← py_get speaker "level" (PDict []);
  items ← py_items level';
  combo_scores ← combo_scores_of items;
  interview ← py_get speaker "interview" (PDict []);
  metadata ← py_get data "metadata" (PDict []);
  file_date ← py_get metadata "date" (PStr "");
  metadata' ← py_get data "metadata" (PDict []);
  year ← py_get metadata' "year" (PStr "");
  mret {| x_participant_id := participant_id; x_age := age; x_gender := gender;
          x_location := location; x_english_level := english_level;
          x_self_grade := self_grade; x_combo_scores := combo_scores;
          x_interview := interview; x_file_date := file_date; x_year := year |}.

(** The body of the [try] block: the completeness gate follows the
    extraction. *)
Definition extract_body `{Builtins} (data : pyval) : res (option Extracted) :=
  extracted ← extract_fields data;
  if negb (truthy (x_age extracted)) || negb (truthy (x_location extracted))
     || negb (truthy (x_english_level extracted))
  then mret None
  else mret (Some extracted).

(** [except Exception]: the failure is logged as a warning and [None] is
    returned. *)
Definition extract_analysis_data `{Builtins} (data : pyval) : option Extracted :=
  match extract_body data with
  | Ok r => r
  | Raise _ => None
  end.

(** The shape the extractor relies on: the record is a mapping, and so are
    its [speaker], the speaker's [level] and its [metadata] whenever they are
    present. *)
Definition is_dict (v : pyval) : bool :=
  match v with PDict _ => true | _ => false end.

Definition well_structured (data : pyval) : bool :=
  match data with
  | PDict kvs =>
      match default (PDict []) (dict_lookup kvs "speaker") with
      | PDict skvs =>
          is_dict (default (PDict []) (dict_lookup skvs "level"))
          && is_dict (default (PDict []) (dict_lookup kvs "metadata"))
      | _ => false
      end
  | _ => false
  end.

(** The [Combo*] entries of the speaker's level block that the comprehension
    passes to [float]. *)
Definition combo_entries (data : pyval) : list (string * pyval) :=
  match data with
  | PDict kvs =>
      match default (PDict []) (dict_lookup kvs "speaker") with
      | PDict skvs =>
          match default (PDict []) (dict_lookup skvs "level") with
          | PDict lkvs =>
              List.filter
                (fun kv => String.prefix "Combo" kv.1 && negb (py_eq_str kv.2 "")) lkvs
          | _ => []
          end
      | _ => []
      end
  | _ => []
  end.

(** A field that resolved to nothing: [None] or the empty string. *)
Definition empty_or_absent (v : pyval) : Prop := v = PNone ∨ v = PStr "".

(** ** Dataset builder *)

Record Row := {
  participant_id : pyval;
  age : num;
  gender : pyval;
  location : pyval;
  english_level : pyval;
  self_grade : pyval;
  combo_scores : list (string * num);
  interview : pyval;
  file_date : pyval;
  year : pyval;
  english_level_numeric : num;
  age_group : string;
  is_metropolitan : bool;
  english_speaking_experience : bool
}.

Abbreviation DataFrame := (list Row).

(** [dropna(subset=['age', 'english_level_numeric', 'location'])]. *)
Definition has_na (r : Row) : bool :=
  num_isna (age r) || num_isna (english_level_numeric r) || py_isna (location r).

(** Columns are assigned one after the other, so the whole [english_level]
    column is mapped before any age group is computed.  A frame built from no
    dict has no column, and [df['age']] raises [KeyError]. *)
Definition preprocess_dataframe `{Pandas} (df : list Extracted) : res DataFrame :=
  match df with
  | [] => Raise KeyError
  | _ =>
      let ages := (fun e => (e, to_numeric (x_age e))) <$> df in
      levels ← mapM (fun ea => n ← map_level (x_english_level ea.1); mret (ea, n)) ages;
      rows ← mapM (fun ean =>
                     let e := ean.1.1 in
                     g ← create_age_groups ean.1.2;
                     mret {| participant_id := x_participant_id e;
                             age := ean.1.2;
                             gender := x_gender e;
                             location := x_location e;
                             english_level := x_english_level e;
                             self_grade := x_self_grade e;
                             combo_scores := x_combo_scores e;
                             interview := x_interview e;
                             file_date := x_file_date e;
                             year := x_year e;
                             english_level_numeric := ean.2;
                             age_group := g;
                             is_metropolitan := classify_metropolitan (x_location e);
                             english_speaking_experience :=
                               extract_english_experience (x_interview e) |})
                  levels;
      mret (List.filter (fun r => negb (has_na r)) rows)
  end.

(** The accumulation loop of [load_all_participant_data], over the objects
    fetched for the representative keys in listing order; [None] stands for a
    failed [load_participant_data]. *)
Definition collect_rows `{Builtins} (loaded : list (option pyval)) : list Extracted :=
  omap (fun data =>
          match data with
          | Some d => if truthy d then extract_analysis_data d else None
          | None => None
          end) loaded.

Definition load_all_participant_data `{Builtins} `{Pandas}
    (loaded : list (option pyval)) : res DataFrame :=
  preprocess_dataframe (collect_rows loaded).

(** ** Filter engine *)

Record FilterRequest := {
  age_min : option Z;
  age_max : option Z;
  locations : option (list string);
  levels : option (list string)
}.

(** [FilterRequest()]: every field unset. *)
Definition no_filter : FilterRequest :=
  {| age_min := None; age_max := None; locations := None; levels := None |}.

(** One cell of [Series.isin(values)] for a list of strings. *)
Definition isin (cell : pyval) (values : list string) : bool :=
  existsb (py_eq_str cell) values.

(** Each step rebinds [filtered_df] to a fresh frame selected by a boolean
    mask; [df] itself is never written to.  [if filters.locations:] is a truth
    test, which an empty list fails like [None]. *)
Definition apply_filters (df : DataFrame) (filters : FilterRequest) : DataFrame :=
  let filtered_df := df in
  let filtered_df :=
    match age_min filters with
    | Some lo => List.filter (fun r => num_ge (age r) (of_int lo)) filtered_df
    | None => filtered_df
    end in
  let filtered_df :=
    match age_max filters with
    | Some hi => List.filter (fun r => num_le (age r) (of_int hi)) filtered_df
    | None => filtered_df
    end in
  let filtered_df :=
    match locations filters with
    | Some (v :: vs) => List.filter (fun r => isin (location r) (v :: vs)) filtered_df
    | _ => filtered_df
    end in
  let filtered_df :=
    match levels filters with
    | Some (v :: vs) => List.filter (fun r => isin (english_level r) (v :: vs)) filtered_df
    | _ => filtered_df
    end in
  filtered_df.

(** The same function on frames held by reference.  A DataFrame is a
    mutable object and the cached table is shared by every query, so the
    frames alive in the process are kept in a store, by identity.  [df.copy()]
    and [df[mask]] each build a new frame; no statement of [apply_filters]
    writes into an existing one.  [None] stands for a reference to no
    frame. *)
Abbreviation Frames := (gmap positive DataFrame).

Definition new_frame (frames : Frames) (rows : DataFrame) : Frames * positive :=
  let id := fresh (dom frames) in
  (<[id := rows]> frames, id).

Definition frame_copy (frames : Frames) (df : positive) : option (Frames * positive) :=
  rows ← frames !! df; Some (new_frame frames rows).

Definition frame_select (mask : Row -> bool) (frames : Frames) (df : positive)
  : option (Frames * positive) :=
  rows ← frames !! df; Some (new_frame frames (List.filter mask rows)).

Definition apply_filters_on (frames : Frames) (df : positive) (filters : FilterRequest)
  : option (Frames * positive) :=
  st ← frame_copy frames df;
  st ← match age_min filters with
       | Some lo => frame_select (fun r => num_ge (age r) (of_int lo)) st.1 st.2
       | None => Some st
       end;
  st ← match age_max filters with
       | Some hi => frame_select (fun r => num_le (age r) (of_int hi)) st.1 st.2
       | None => Some st
       end;
  st ← match locations filters with
       | Some (v :: vs) => frame_select (fun r => isin (location r) (v :: vs)) st.1 st.2
       | _ => Some st
       end;
  st ← match levels filters with
       | Some (v :: vs) => frame_select (fun r => isin (english_level r) (v :: vs)) st.1 st.2
       | _ => Some st
       end;
  Some st.

(** A later state of the store that keeps every frame of an earlier one. *)
Definition extends (frames frames' : Frames) : Prop :=
  forall id t, frames !! id = Some t -> frames' !! id = Some t.

(** The clauses a predicate stands for, as the engine applies them: an age
    bound constrains when it is set, an allow-list when it is set and not
    empty. *)
Definition clause_age_min (filters : FilterRequest) (r : Row) : bool :=
  match age_min filters with
  | Some lo => num_ge (age r) (of_int lo)
  | None => true
  end.

Definition clause_age_max (filters : FilterRequest) (r : Row) : bool :=
  match age_max filters with
  | Some hi => num_le (age r) (of_int hi)
  | None => true
  end.

Definition clause_locations (filters : FilterRequest) (r : Row) : bool :=
  match locations filters with
  | Some (v :: vs) => isin (location r) (v :: vs)
  | _ => true
  end.

Definition clause_levels (filters : FilterRequest) (r : Row) : bool :=
  match levels filters with
  | Some (v :: vs) => isin (english_level r) (v :: vs)
  | _ => true
  end.

Definition satisfies (filters : FilterRequest) (r : Row) : bool :=
  clause_age_min filters r && clause_age_max filters r
  && clause_locations filters r && clause_levels filters r.

(** The conjunction as the specification words it: each clause is a no-op
    only when its field is unset, so an allow-list that is set constrains even
    when it is empty. *)
Definition spec_satisfies (filters : FilterRequest) (r : Row) : bool :=
  clause_age_min filters r && clause_age_max filters r
  && match locations filters with
     | Some allowed => isin (location r) allowed
     | None => true
     end
  && match levels filters with
     | Some allowed => isin (english_level r) allowed
     | None => true
     end.

(** ** Hypothesis evaluators *)

Record HypothesisResult := {
  hypothesis : string;
  result : string;
  p_value : num;
  effect_size : option num;
  correlation : option num;
  statistics : list (string * pyval);
  conclusion : string
}.

(** The three values of the [result] field. *)
Definition ACCEPTED : string := "채택".
Definition REJECTED : string := "기각".
Definition INCONCLUSIVE : string := "판단불가".

(** [Series.unique()]: distinct values in order of first appearance. *)
Fixpoint unique (l : list string) : list string :=
  match l with
  | [] => []
  | x :: rest => x :: List.filter (fun y => negb (String.eqb y x)) (unique rest)
  end.

(** The samples handed to the ANOVA: for each distinct age group, the ranks
    of the rows in that group. *)
Definition groups_data (df_filtered : DataFrame) (age_groups : list string)
  : list (list num) :=
  (fun group =>
     english_level_numeric <$>
       List.filter (fun r => String.eqb (age_group r) group) df_filtered)
    <$> age_groups.

(** The ANOVA step of hypothesis 1 on the filtered frame. *)
Definition h1_anova `{SciPy} (df_filtered : DataFrame) : pyval * pyval :=
  let age_groups := unique (age_group <$> df_filtered) in
  if (1 <? length age_groups)%nat then
    let '(f_stat, p_anova) := f_oneway (groups_data df_filtered age_groups) in
    (PFloat f_stat, PFloat p_anova)
  else (PInt 0, PInt 1).

(** [df] is the cached table returned by [load_data_if_needed]. *)
Definition analyze_hypothesis1 `{Pandas} `{SciPy} (df : DataFrame) (filters : FilterRequest)
  : res HypothesisResult :=
  let df_filtered := apply_filters df filters in
  if (length df_filtered <? 10)%nat then
    Raise (HTTPException 400 "분석에 충분한 데이터가 없습니다.")
  else
    let ages := age <$> df_filtered in
    let scores := english_level_numeric <$> df_filtered in
    let '(corr_pearson, p_pearson) := pearsonr ages scores in
    let '(corr_spearman, p_spearman) := spearmanr ages scores in
    let '(f_stat, p_anova) := h1_anova df_filtered in
    let conclusion :=
      if num_lt p_pearson lit_0_05 then
        if num_lt corr_pearson (of_int 0)
        then "가설 기각: 연령대가 높을수록 영어 실력이 더 좋습니다."
        else "가설 채택: 연령대가 낮을수록 영어 실력이 더 좋습니다."
      else "가설 판단 불가: 연령과 영어 실력 간 유의한 관계가 없습니다." in
    Ok {| hypothesis := "연령대가 낮을수록 점수가 높을 것이다";
          result :=
            if num_lt p_pearson lit_0_05 && num_lt corr_pearson (of_int 0) then REJECTED
            else if num_lt p_pearson lit_0_05 && num_gt corr_pearson (of_int 0) then ACCEPTED
            else INCONCLUSIVE;
          p_value := p_pearson;
          effect_size := None;
          correlation := Some corr_pearson;
          statistics :=
            [("pearson_correlation", PFloat corr_pearson);
             ("pearson_p_value", PFloat p_pearson);
             ("spearman_correlation", PFloat corr_spearman);
             ("spearman_p_value", PFloat p_spearman);
             ("anova_f_stat", f_stat);
             ("anova_p_value", p_anova);
             ("age_group_stats",
              groupby_agg ["count"; "mean"; "std"] (age_group <$> df_filtered) scores)];
          conclusion := conclusion |}.

Definition analyze_hypothesis2 `{Pandas} `{SciPy} (df : DataFrame) (filters : FilterRequest)
  : res HypothesisResult :=
  let df_filtered := apply_filters df filters in
  let metro_scores :=
    english_level_numeric <$> List.filter (fun r => eqb (is_metropolitan r) true) df_filtered in
  let non_metro_scores :=
    english_level_numeric <$> List.filter (fun r => eqb (is_metropolitan r) false) df_filtered in
  if (length metro_scores <? 5)%nat || (length non_metro_scores <? 5)%nat then
    Raise (HTTPException 400 "각 그룹에 충분한 데이터가 없습니다.")
  else
    let '(t_stat, p_ttest) := ttest_ind metro_scores non_metro_scores in
    let effect_size := calculate_effect_size metro_scores non_metro_scores in
    let '(u_stat, p_mannwhitney) := mannwhitneyu metro_scores non_metro_scores in
    let '(chi2, p_chi2) :=
      chi2_contingency (is_metropolitan <$> df_filtered) (english_level <$> df_filtered) in
    let conclusion :=
      if num_lt p_ttest lit_0_05 then
        if num_lt (series_mean metro_scores) (series_mean non_metro_scores)
        then "가설 채택: 수도권이 비수도권보다 영어 실력이 높습니다."
        else "가설 기각: 비수도권이 수도권보다 영어 실력이 높습니다."
      else "가설 판단 불가: 수도권과 비수도권 간 유의한 차이가 없습니다." in
    Ok {| hypothesis := "수도권일수록 점수가 높을 것이다";
          result :=
            if num_lt p_ttest lit_0_05
               && num_gt (series_mean metro_scores) (series_mean non_metro_scores)
            then REJECTED
            else if num_lt p_ttest lit_0_05
                    && num_lt (series_mean metro_scores) (series_mean non_metro_scores)
            then ACCEPTED
            else INCONCLUSIVE;
          p_value := p_ttest;
          effect_size := Some effect_size;
          correlation := None;
          statistics :=
            [("metro_mean", PFloat (series_mean metro_scores));
             ("non_metro_mean", PFloat (series_mean non_metro_scores));
             ("metro_count", PInt (Z.of_nat (length metro_scores)));
             ("non_metro_count", PInt (Z.of_nat (length non_metro_scores)));
             ("t_statistic", PFloat t_stat);
             ("t_p_value", PFloat p_ttest);
             ("effect_size", PFloat effect_size);
             ("effect_interpretation", PStr (interpret_effect_size effect_size));
             ("mannwhitney_u", PFloat u_stat);
             ("mannwhitney_p", PFloat p_mannwhitney);
             ("chi_square", PFloat chi2);
             ("chi_square_p", PFloat p_chi2)];
          conclusion := conclusion |}.

Definition analyze_hypothesis3 `{Pandas} `{SciPy} (df : DataFrame) (filters : FilterRequest)
  : res HypothesisResult :=
  let df_filtered := apply_filters df filters in
  let exp_scores :=
    english_level_numeric <$>
      List.filter (fun r => eqb (english_speaking_experience r) true) df_filtered in
  let no_exp_scores :=
    english_level_numeric <$>
      List.filter (fun r => eqb (english_speaking_experience r) false) df_filtered in
  if (length exp_scores <? 5)%nat || (length no_exp_scores <? 5)%nat then
    Raise (HTTPException 400 "각 그룹에 충분한 데이터가 없습니다.")
  else
    let '(t_stat, p_ttest) := ttest_ind exp_scores no_exp_scores in
    let effect_size := calculate_effect_size exp_scores no_exp_scores in
    let '(u_stat, p_mannwhitney) := mannwhitneyu exp_scores no_exp_scores in
    let '(chi2, p_chi2) :=
      chi2_contingency (english_speaking_experience <$> df_filtered)
                       (english_level <$> df_filtered) in
    let conclusion :=
      if num_lt p_ttest lit_0_05 then
        if num_lt (series_mean exp_scores) (series_mean no_exp_scores)
        then "가설 채택: 영어권 거주 경험이 있는 사람들의 영어 실력이 더 높습니다."
        else "가설 기각: 영어권 거주 경험이 없는 사람들의 영어 실력이 더 높습니다."
      else "가설 판단 불가: 영어권 거주 경험에 따른 유의한 차이가 없습니다." in
    Ok {| hypothesis := "영어권 거주 경험이 있을수록 점수가 높을 것이다";
          result :=
            if num_lt p_ttest lit_0_05
               && num_gt (series_mean exp_scores) (series_mean no_exp_scores)
            then REJECTED
            else if num_lt p_ttest lit_0_05
                    && num_lt (series_mean exp_scores) (series_mean no_exp_scores)
            then ACCEPTED
            else INCONCLUSIVE;
          p_value := p_ttest;
          effect_size := Some effect_size;
          correlation := None;
          statistics :=
            [("experience_mean", PFloat (series_mean exp_scores));
             ("no_experience_mean", PFloat (series_mean no_exp_scores));
             ("experience_count", PInt (Z.of_nat (length exp_scores)));
             ("no_experience_count", PInt (Z.of_nat (length no_exp_scores)));
             ("t_statistic", PFloat t_stat);
             ("t_p_value", PFloat p_ttest);
             ("effect_size", PFloat effect_size);
             ("effect_interpretation", PStr (interpret_effect_size effect_size));
             ("mannwhitney_u", PFloat u_stat);
             ("mannwhitney_p", PFloat p_mannwhitney);
             ("chi_square", PFloat chi2);
             ("chi_square_p", PFloat p_chi2)];
          conclusion := conclusion |}.

(** The verdict rule of a two-group comparison as the specification words
    it, for a reported [verdict], the t-test p-value [p] and the means [m1]
    and [m2] of the first and of the second group. *)
Definition group_verdict_rule (verdict : string) (p m1 m2 : num) : Prop :=
  (verdict = ACCEPTED ↔ num_lt p lit_0_05 = true ∧ num_lt m1 m2 = true)
  ∧ (verdict = REJECTED ↔ num_lt p lit_0_05 = true ∧ num_gt m1 m2 = true)
  ∧ (verdict = INCONCLUSIVE ↔
       ¬ (num_lt p lit_0_05 = true ∧ num_lt m1 m2 = true)
       ∧ ¬ (num_lt p lit_0_05 = true ∧ num_gt m1 m2 = true)).

(** The verdict rule of hypothesis 1, on the Pearson p-value and
    coefficient. *)
Definition correlation_verdict_rule (verdict : string) (p r : num) : Prop :=
  (verdict = REJECTED ↔ num_lt p lit_0_05 = true ∧ num_lt r (of_int 0) = true)
  ∧ (verdict = ACCEPTED ↔ num_lt p lit_0_05 = true ∧ num_gt r (of_int 0) = true)
  ∧ (verdict = INCONCLUSIVE ↔
       ¬ (num_lt p lit_0_05 = true ∧ num_lt r (of_int 0) = true)
       ∧ ¬ (num_lt p lit_0_05 = true ∧ num_gt r (of_int 0) = true)).

(** The two groups each evaluator compares. *)
Definition metro_rows (t : DataFrame) : DataFrame :=
  List.filter (fun r => eqb (is_metropolitan r) true) t.
Definition non_metro_rows (t : DataFrame) : DataFrame :=
  List.filter (fun r => eqb (is_metropolitan r) false) t.
Definition exp_rows (t : DataFrame) : DataFrame :=
  List.filter (fun r => eqb (english_speaking_experience r) true) t.
Definition no_exp_rows (t : DataFrame) : DataFrame :=
  List.filter (fun r => eqb (english_speaking_experience r) false) t.

(** ** Ingestion stager *)

Module Stager.

(** One entry of [matching_files]. *)
Record FileInfo := {
  file_path : string;
  level : string;
  participant : string;
  date : string
}.

(** The bucket: object key to the local file it was uploaded from. *)
Abbreviation Bucket := (gmap string string).

Definition is_valid_yyyymmdd `{Builtins} (date_str : string) : bool :=
  strptime_ok date_str "%Y%m%d".

(** [os.path.basename]: what follows the last slash. *)
Fixpoint basename_from (acc p : string) : string :=
  match p with
  | EmptyString => acc
  | String c rest =>
      if Ascii.eqb c "/"%char then basename_from "" rest
      else basename_from (acc ++ String c "") rest
  end.
Definition basename (p : string) : string := basename_from "" p.

Definition s3_key_of (year month day level participant file_name : string) : string :=
  "raw/year=" ++ year ++ "/month=" ++ month ++ "/day=" ++ day
    ++ "/level=" ++ level ++ "/" ++ participant ++ "/" ++ file_name.

(** The key of a file.  Slices are taken byte-wise, which is character-wise
    on a date made of ASCII digits. *)
Definition s3_key (file_info : FileInfo) : string :=
  let file_date := date file_info in
  let year := substring 0 4 file_date in
  let month := substring 4 2 file_date in
  let day := substring 6 2 file_date in
  let file_name := basename (file_path file_info) in
  s3_key_of year month day (level file_info) (participant file_info) file_name.

(** One iteration of the upload loop on (bucket, uploaded_count).
    [head_object] returns when an object is stored under the key and raises
    [ClientError] when none is; [upload_raises] tells for which files
    [upload_file] raises during this run. *)
Definition upload_step `{Builtins} (upload_raises : FileInfo -> bool)
    (st : Bucket * nat) (file_info : FileInfo) : Bucket * nat :=
  let '(bucket, uploaded_count) := st in
  if negb (is_valid_yyyymmdd (date file_info)) then st
  else
    let key := s3_key file_info in
    match bucket !! key with
    | Some _ => st
    | None =>
        if upload_raises file_info then st
        else (<[key := file_path file_info]> bucket, S uploaded_count)
    end.

(** [upload_to_s3] from [matching_files] on: the bucket afterwards and the
    reported [uploaded_files]. *)
Definition upload_to_s3 `{Builtins} (upload_raises : FileInfo -> bool)
    (matching_files : list FileInfo) (bucket : Bucket) : Bucket * nat :=
  match matching_files with
  | [] => (bucket, 0%nat)
  | _ => fold_left (upload_step upload_raises) matching_files (bucket, 0%nat)
  end.

End Stager.

(** ** Representative files *)

(** [s.endswith(suffix)]. *)
Definition str_endswith (suffix s : string) : bool :=
  (String.length suffix <=? String.length s)%nat
  && String.eqb (substring (String.length s - String.length suffix)
                           (String.length suffix) s) suffix.

(** [s.split(sep)] for a one-character separator: every occurrence splits,
    and empty parts are kept. *)
Fixpoint str_split (sep : ascii) (s : string) : list string :=
  match s with
  | EmptyString => [EmptyString]
  | String c rest =>
      if Ascii.eqb c sep then EmptyString :: str_split sep rest
      else match str_split sep rest with
           | part :: parts => String c part :: parts
           | [] => [String c EmptyString]
           end
  end.

(** [s.replace(old, new)]: the occurrences of [old] are replaced from left to
    right without overlap; [skip] counts the characters of an occurrence still
    to pass over.  With an empty [old], [new] is put before every character
    and at the end. *)
Fixpoint replace_from (old new : string) (skip : nat) (s : string) : string :=
  match s with
  | EmptyString => EmptyString
  | String c rest =>
      match skip with
      | S k => replace_from old new k rest
      | O =>
          if String.prefix old s
          then new ++ replace_from old new (String.length old - 1) rest
          else String c (replace_from old new 0 rest)
      end
  end.

Fixpoint put_between (new s : string) : string :=
  match s with
  | EmptyString => EmptyString
  | String c rest => String c (new ++ put_between new rest)
  end.

Definition str_replace (old new s : string) : string :=
  match old with
  | EmptyString => new ++ put_between new s
  | _ => replace_from old new 0 s
  end.

(** What the listing loop reads off a key: nothing unless the key ends in
    [.json] and has at least six slash-separated parts; otherwise its sixth
    part with every [_json] removed. *)
Definition participant_of (key : string) : option string :=
  if negb (str_endswith ".json" key) then None
  else
    let parts := str_split "/" key in
    if (6 <=? length parts)%nat
    then Some (str_replace "_json" "" (nth 5 parts EmptyString))
    else None.

(** [d.setdefault(pid, []).append(key)] on an insertion-ordered dict. *)
Fixpoint setdefault_append (d : list (string * list string)) (pid key : string)
  : list (string * list string) :=
  match d with
  | [] => [(pid, [key])]
  | (p, files) :: rest =>
      if String.eqb p pid then (p, (files ++ [key])%list) :: rest
      else (p, files) :: setdefault_append rest pid key
  end.

(** The dict [participant_files] after the loop over the listed keys. *)
Definition participant_files_of (listing : list string) : list (string * list string) :=
  fold_left (fun d key =>
               match participant_of key with
               | Some participant_id => setdefault_append d participant_id key
               | None => d
               end)
            listing [].

(** [listing] is the keys of all pages in listing order; [s3_client] tells
    whether the module-level client was created. *)
Definition get_participant_representative_files (s3_client : bool) (listing : list string)
  : res (list (string * string)) :=
  if negb s3_client
  then Raise (HTTPException 500 "S3 클라이언트가 초기화되지 않았습니다.")
  else
    Ok (omap (fun pf => match pf.2 with
                        | first :: _ => Some (pf.1, first)
                        | [] => None
                        end)
             (participant_files_of listing)).

(** The keys of one participant, in listing order. *)
Definition keys_of (pid : string) (listing : list string) : list string :=
  List.filter (fun key => bool_decide (participant_of key = Some pid)) listing.

(** ** The builder's loop and its counters *)

(** The row the builder derives from an extracted dict, given the rank its
    level maps to and the age group its coerced age falls in. *)
Definition derives `{Pandas} (e : Extracted) (r : Row) : Prop :=
  map_level (x_english_level e) = Ok (english_level_numeric r)
  /\ create_age_groups (to_numeric (x_age e)) = Ok (age_group r)
  /\ r = {| participant_id := x_participant_id e;
            age := to_numeric (x_age e);
            gender := x_gender e;
            location := x_location e;
            english_level := x_english_level e;
            self_grade := x_self_grade e;
            combo_scores := x_combo_scores e;
            interview := x_interview e;
            file_date := x_file_date e;
            year := x_year e;
            english_level_numeric := english_level_numeric r;
            age_group := age_group r;
            is_metropolitan := classify_metropolitan (x_location e);
            english_speaking_experience := extract_english_experience (x_interview e) |}.

(** The loop of [load_all_participant_data] with its two counters:
    [all_rows] and [failed], as they are logged after the loop. *)
Definition load_loop `{Builtins} (loaded : list (option pyval)) : list Extracted * nat :=
  fold_left (fun st data =>
               let '(all_rows, failed) := st in
               match data with
               | None => (all_rows, S failed)
               | Some d =>
                   if negb (truthy d) then (all_rows, S failed)
                   else match extract_analysis_data d with
                        | Some row => ((all_rows ++ [row])%list, failed)
                        | None => (all_rows, S failed)
                        end
               end)
            loaded ([], 0%nat).

(** The age group labels other than the sentinel. *)
Definition AGE_GROUP_LABELS : list string :=
  ["20대 초반"; "20대 후반"; "30대 초반"; "30대 후반"; "40대 이상"].

(** ** Constants derived from the level table *)

(** [LEVEL_REVERSE_MAPPING = {v: k for k, v in LEVEL_MAPPING.items()}] of
    [shared/constants.py]; a later item would replace an earlier one with the
    same rank. *)
Definition LEVEL_REVERSE_MAPPING : gmap Z string :=
  fold_left (fun acc kv => <[kv.2 := kv.1]> acc)
            [("IG", 1); ("TL", 2); ("TM", 3); ("TH", 4); ("NA", 5)] ∅.

(** ** Storage, settings and the cached table *)

Module Server.

(** What [s3_client.head_bucket] does: it returns, raises
    [NoCredentialsError] or [PartialCredentialsError], or raises
    [ClientError]. *)
Inductive head_bucket_outcome :=
| HeadReturns
| HeadNoCredentials
| HeadClientError.

(** The module-level settings and the storage behind the client.
    [s3_client] tells whether the client was created; [S3_BUCKET_NAME] is
    [None] when the variable is not set, and [S3_RAW_PREFIX] is the empty
    string then.  [list_objects_v2] is the keys that the paginator yields
    for the bucket and prefix, in order, and [get_json] what reading,
    decoding and parsing the object of a key gives, [None] when any of it
    raises.  The access check has the three outcomes its handlers tell
    apart, and the listing is taken to return. *)
Record Storage := {
  s3_client : bool;
  S3_BUCKET_NAME : option string;
  S3_RAW_PREFIX : string;
  head_bucket : head_bucket_outcome;
  list_objects_v2 : list string;
  get_json : string -> option pyval
}.

(** [if s] on an optional string. *)
Definition str_truthy (s : option string) : bool :=
  match s with
  | Some s => negb (String.eqb s "")
  | None => false
  end.

(** Every exception of the read is caught. *)
Definition load_participant_data (st : Storage) (file_key : string) : option pyval :=
  get_json st file_key.

(** The whole of [load_all_participant_data]: the settings check, the access
    check, the listing, the fetches and the build.  A missing client makes
    [s3_client.head_bucket] an attribute access on [None], which neither
    handler of the access check catches. *)
Definition load_all_participant_data `{Builtins} `{Pandas} (st : Storage) : res DataFrame :=
  if negb (str_truthy (S3_BUCKET_NAME st)) || negb (str_truthy (Some (S3_RAW_PREFIX st)))
  then Raise (HTTPException 500 "S3 설정이 누락되었습니다.")
  else if negb (s3_client st) then Raise AttributeError
  else
    match head_bucket st with
    | HeadNoCredentials => Raise (HTTPException 500 "AWS 자격 증명 오류")
    | HeadReturns | HeadClientError =>
        rep_files ← get_participant_representative_files (s3_client st) (list_objects_v2 st);
        load_all_participant_data
          ((fun pid_key => load_participant_data st pid_key.2) <$> rep_files)
    end.

(** [df_master] is the module-level cache; every function below returns its
    new value beside its result. *)
Definition load_data_if_needed `{Builtins} `{Pandas}
    (st : Storage) (df_master : option DataFrame) : res DataFrame * option DataFrame :=
  match df_master with
  | Some df => (Ok df, Some df)
  | None =>
      match load_all_participant_data st with
      | Ok df => (Ok df, Some df)
      | Raise e => (Raise e, None)
      end
  end.

(** [POST /reload]: the record count of the reloaded table. *)
Definition reload_data `{Builtins} `{Pandas}
    (st : Storage) (df_master : option DataFrame) : res nat * option DataFrame :=
  let df_master := @None DataFrame in
  let '(df, df_master) := load_data_if_needed st df_master in
  (df ← df; mret (length df), df_master).

Inductive Health :=
| healthy (record_count : nat)
| unhealthy (error : exn).

(** [GET /health] catches every exception. *)
Definition health_check `{Builtins} `{Pandas}
    (st : Storage) (df_master : option DataFrame) : Health * option DataFrame :=
  let '(df, df_master) := load_data_if_needed st df_master in
  (match df with
   | Ok df => healthy (length df)
   | Raise e => unhealthy e
   end, df_master).

(** The three analysis endpoints: the cached table, loaded when there is
    none, is handed to the evaluator. *)
Definition analyze_hypothesis1 `{Builtins} `{Pandas} `{SciPy}
    (st : Storage) (df_master : option DataFrame) (filters : FilterRequest)
  : res HypothesisResult * option DataFrame :=
  let '(df, df_master) := load_data_if_needed st df_master in
  (df ← df; analyze_hypothesis1 df filters, df_master).

Definition analyze_hypothesis2 `{Builtins} `{Pandas} `{SciPy}
    (st : Storage) (df_master : option DataFrame) (filters : FilterRequest)
  : res HypothesisResult * option DataFrame :=
  let '(df, df_master) := load_data_if_needed st df_master in
  (df ← df; analyze_hypothesis2 df filters, df_master).

Definition analyze_hypothesis3 `{Builtins} `{Pandas} `{SciPy}
    (st : Storage) (df_master : option DataFrame) (filters : FilterRequest)
  : res HypothesisResult * option DataFrame :=
  let '(df, df_master) := load_data_if_needed st df_master in
  (df ← df; analyze_hypothesis3 df filters, df_master).

(** The requests of the routes above, and the cache after serving one. *)
Inductive Request :=
| POST_reload
| GET_health
| POST_hypothesis1 (filters : FilterRequest)
| POST_hypothesis2 (filters : FilterRequest)
| POST_hypothesis3 (filters : FilterRequest).

Definition cache_after `{Builtins} `{Pandas} `{SciPy}
    (st : Storage) (df_master : option DataFrame) (request : Request) : option DataFrame :=
  match request with
  | POST_reload => (reload_data st df_master).2
  | GET_health => (health_check st df_master).2
  | POST_hypothesis1 filters => (analyze_hypothesis1 st df_master filters).2
  | POST_hypothesis2 filters => (analyze_hypothesis2 st df_master filters).2
  | POST_hypothesis3 filters => (analyze_hypothesis3 st df_master filters).2
  end.

(** The cache after a sequence of requests, each served against the state
    the storage is in when it arrives. *)
Definition cache_after_all `{Builtins} `{Pandas} `{SciPy}
    (requests : list (Storage * Request)) (df_master : option DataFrame) : option DataFrame :=
  fold_left (fun cache sr => cache_after sr.1 cache sr.2) requests df_master.

End Server.

(** ** The daily pipeline *)

Module Dag.

Import Stager.

(** One entry of a level directory: its name and, when it is a directory,
    the names that [glob] yields in it for [*.json], each with what
    [json.load] returns, [None] when opening or parsing the file raises. *)
Record Entry := {
  entry_name : string;
  entry_json : option (list (string * option pyval))
}.

(** The dataset directory: the entries of each level directory in
    [os.listdir] order, [None] for a level directory that does not exist. *)
Definition Dataset := string -> option (list Entry).

(** The date of a file that matches: [metadata.date] read with the two
    [get] calls, truthy, equal to the target and a valid date.  An exception
    of the reads skips the file. *)
Definition matching_date `{Builtins} (target_date : string) (data : pyval) : option string :=
  match (metadata ← py_get data "metadata" (PDict []); py_get metadata "date" PNone) with
  | Ok file_date =>
      if truthy file_date && py_eq_str file_date target_date
      then match file_date with
           | PStr s => if is_valid_yyyymmdd s then Some s else None
           | _ => None
           end
      else None
  | Raise _ => None
  end.

Definition find_files_by_date `{Builtins} (dataset : Dataset) (target_date : string)
  : list FileInfo :=
  let dataset_path := "/opt/airflow/dataset" in
  level ← ["IG"; "NA"; "TH"; "TL"; "TM"];
  let level_path := dataset_path ++ "/" ++ level in
  match dataset level with
  | None => []
  | Some entries =>
      participant_dir ← entries;
      let participant_path := level_path ++ "/" ++ entry_name participant_dir in
      match entry_json participant_dir with
      | None => []
      | Some json_files =>
          omap (fun name_data : string * option pyval =>
                  data ← name_data.2;
                  file_date ← matching_date target_date data;
                  Some {| file_path := participant_path ++ "/" ++ name_data.1;
                          level := level;
                          participant := entry_name participant_dir;
                          date := file_date |})
               json_files
      end
  end.

(** The upload task for the execution date [ds] ([YYYY-MM-DD]): the bucket
    afterwards and the reported [uploaded_files]. *)
Definition upload_to_s3 `{Builtins} (dataset : Dataset) (upload_raises : FileInfo -> bool)
    (ds : string) (bucket : Bucket) : Bucket * nat :=
  let execution_date := ds in
  let current_date := str_replace "-" "" execution_date in
  let matching_files := find_files_by_date dataset current_date in
  Stager.upload_to_s3 upload_raises matching_files bucket.

(** [trigger_analysis] passes the upload result on when files were
    uploaded. *)
Definition trigger_analysis (uploaded_files : nat) : option nat :=
  if (0 <? uploaded_files)%nat then Some uploaded_files else None.

(** What a [requests.post] comes to: [None] when the call raises, otherwise
    the status code and whether the body parses as JSON. *)
Definition Post := string -> option (Z * bool).

(** [raise_for_status] raises on a 4xx or 5xx status, and printing the
    response parses its body. *)
Definition post_succeeds (response : option (Z * bool)) : bool :=
  match response with
  | Some (status_code, json_ok) =>
      negb ((400 <=? status_code) && (status_code <? 600)) && json_ok
  | None => false
  end.

(** [call_analysis_api]: the URLs posted to, in order.  Every exception is
    caught, and the first one ends the task. *)
Definition call_analysis_api (post : Post) (uploaded_files : nat) : list string :=
  if (0 <? uploaded_files)%nat
  then
    "http://api:8000/analyze/new-data"
      :: (if post_succeeds (post "http://api:8000/analyze/new-data")
          then ["http://api:8000/refresh"]
          else [])
  else [].

(** One run of the three tasks in their order [upload_to_s3 >>
    trigger_analysis >> call_analysis_api]: the bucket afterwards, what
    [trigger_analysis] returns, and the URLs posted to. *)
Definition dag_run `{Builtins} (dataset : Dataset) (upload_raises : FileInfo -> bool)
    (post : Post) (ds : string) (bucket : Bucket) : Bucket * option nat * list string :=
  let '(bucket, uploaded_files) := upload_to_s3 dataset upload_raises ds bucket in
  (bucket, trigger_analysis uploaded_files, call_analysis_api post uploaded_files).

End Dag.

(** ** The dashboard's filter request *)

Module Frontend.

(** [x in l] on a list of strings. *)
Definition str_in (x : string) (l : list string) : bool := existsb (String.eqb x) l.

(** The dict that is posted as the filter; a key that is not set reaches the
    server as an unset field.  [age_range] is the pair of the slider, which
    runs from 20 to 40. *)
Definition create_filter_request (age_range : Z * Z)
    (selected_locations selected_levels : list string) : FilterRequest :=
  {| age_min := if age_range.1 >? 20 then Some age_range.1 else None;
     age_max := if age_range.2 <? 40 then Some age_range.2 else None;
     locations :=
       if negb (Nat.eqb (length selected_locations) 0)
          && negb (str_in "전체" selected_locations)
       then Some selected_locations else None;
     levels :=
       if negb (Nat.eqb (length selected_levels) 0)
          && negb (str_in "전체" selected_levels)
       then Some selected_levels else None |}.

End Frontend.

(** ** The row of a stored object *)

(** [r] is the row of the object under [key]: the object was fetched and is
    truthy, the extractor returned a record for it, [r] is derived from that
    record and has no missing age, rank or location. *)
Definition row_of_object `{Builtins} `{Pandas}
    (st : Server.Storage) (key : string) (r : Row) : Prop :=
  exists data e,
    Server.get_json st key = Some data
    /\ truthy data = true
    /\ extract_analysis_data data = Some e
    /\ derives e r
    /\ has_na r = false.

(** ** Sample implementations and data

    A small implementation of each library interface, on which the model can
    be run: conversions on numbers and digit strings, exact rational
    arithmetic, the exact F statistic of the analysis of variance, and
    scipy tests that otherwise report a fixed statistic and p-value. *)

Definition num_arith (f : Q -> Q -> Q) (a b : num) : num :=
  match a, b with
  | Num p, Num q => Num (Qred (f p q))
  | _, _ => NaN
  end.

Definition finite_values (l : list num) : option (list Q) :=
  mapM (fun x => match x with Num q => Some q | _ => None end) l.

Definition Qsum (l : list Q) : Q := fold_right Qplus 0%Q l.

(** Mean, and variance with [n - 1] in the denominator, of finite values. *)
Definition exact_mean (l : list num) : num :=
  match finite_values l with
  | Some (q :: qs) =>
      Num (Qred (Qsum (q :: qs) / inject_Z (Z.of_nat (length (q :: qs)))))
  | _ => NaN
  end.

Definition exact_var (l : list num) : num :=
  match finite_values l with
  | Some (q1 :: q2 :: qs) =>
      let values := q1 :: q2 :: qs in
      let n := Z.of_nat (length values) in
      let m := (Qsum values / inject_Z n)%Q in
      Num (Qred (Qsum ((fun x => (x - m) * (x - m))%Q <$> values) / inject_Z (n - 1)))
  | _ => NaN
  end.

(** Square root of a finite value, truncated to six decimal places. *)
Definition approx_sqrt (x : num) : num :=
  match x with
  | Num q =>
      if Qle_bool 0 q
      then Num (Qred (Z.sqrt (Qnum q * Z.pos (Qden q) * 10 ^ 12)
                      # (Qden q * 1000000)))
      else NaN
  | Inf false => Inf false
  | _ => NaN
  end.

(** The value of a run of decimal digits. *)
Fixpoint digits_value (acc : Z) (s : string) : option Z :=
  match s with
  | EmptyString => Some acc
  | String c rest =>
      let n := Z.of_nat (nat_of_ascii c) in
      if (48 <=? n) && (n <=? 57) then digits_value (10 * acc + (n - 48)) rest
      else None
  end.

(** [float] converts numbers, booleans and, in this sample, the strings that
    are a non-empty run of decimal digits; it raises [ValueError] on the other
    strings it is given here and [TypeError] on [None] and containers.
    [strptime] accepts the eight-character strings. *)
Definition sample_builtins : Builtins := {|
  py_float v :=
    match v with
    | PInt z => Ok (of_int z)
    | PFloat x => Ok x
    | PBool b => Ok (of_int (if b then 1 else 0))
    | PStr EmptyString => Raise ValueError
    | PStr s =>
        match digits_value 0 s with
        | Some z => Ok (of_int z)
        | None => Raise ValueError
        end
    | _ => Raise TypeError
    end;
  strptime_ok s fmt :=
    Nat.eqb (String.length s) 8
|}.

Definition sample_pandas : Pandas := {|
  to_numeric v :=
    match v with
    | PInt z => of_int z
    | PFloat x => x
    | _ => NaN
    end;
  series_mean := exact_mean;
  series_var := exact_var;
  groupby_agg _ _ _ := PDict [];
  fadd := num_arith Qplus;
  fsub := num_arith Qminus;
  fmul := num_arith Qmult;
  fdiv a b := match a, b with
              | Num p, Num q =>
                  if negb (Qeq_bool q 0) then Num (Qred (p / q))
                  else if Qeq_bool p 0 then NaN
                  else Inf (negb (Qle_bool 0 p))
              | _, _ => NaN
              end;
  np_sqrt := approx_sqrt
|}.

(** Whether all values of a sample are the same. *)
Definition constant_input (l : list num) : bool :=
  match finite_values l with
  | Some (q :: qs) => forallb (Qeq_bool q) qs
  | _ => false
  end.

(** The F statistic of a one-way analysis of variance on finite samples:
    the mean square between the groups over the mean square within them. *)
Definition exact_f_statistic (samples : list (list num)) : num :=
  match mapM finite_values samples with
  | Some groups =>
      let values := concat groups in
      let n := Z.of_nat (length values) in
      let k := Z.of_nat (length groups) in
      let mean (l : list Q) := (Qsum l / inject_Z (Z.of_nat (length l)))%Q in
      let grand := mean values in
      let ssb :=
        Qsum ((fun g => inject_Z (Z.of_nat (length g))
                        * (mean g - grand) * (mean g - grand))%Q <$> groups) in
      let ssw :=
        Qsum ((fun g => Qsum ((fun x => (x - mean g) * (x - mean g))%Q <$> g))
                <$> groups) in
      if (k <=? 1) || (n <=? k) then NaN
      else if Qeq_bool ssw 0 then (if Qeq_bool ssb 0 then NaN else Inf false)
      else Num (Qred ((ssb / inject_Z (k - 1)) / (ssw / inject_Z (n - k))))
  | None => NaN
  end.

(** The correlations are NaN on a constant input, as scipy reports them, and
    have coefficient 0.5 and p-value 0.01 otherwise; the analysis of variance
    reports the exact F statistic; every other test reports statistic 0, and
    every p-value that is not NaN is 0.01. *)
Definition sample_scipy : SciPy := {|
  pearsonr x y :=
    if constant_input x || constant_input y then (NaN, NaN)
    else (Num (1 # 2), Num (1 # 100));
  spearmanr x y :=
    if constant_input x || constant_input y then (NaN, NaN)
    else (Num (1 # 2), Num (1 # 100));
  f_oneway samples := (exact_f_statistic samples, Num (1 # 100));
  ttest_ind _ _ := (of_int 0, Num (1 # 100));
  mannwhitneyu _ _ := (of_int 0, Num (1 # 100));
  chi2_contingency _ _ := (of_int 0, Num (1 # 100))
|}.

(** A raw record with the given speaker fields. *)
Definition sample_record (speaker : list (string * pyval)) : pyval :=
  PDict [("speaker", PDict speaker);
         ("metadata", PDict [("date", PStr "20250801"); ("year", PStr "2025")])].

Definition sample_speaker (a : pyval) (loc lvl : string) : list (string * pyval) :=
  [("id", PStr "ESPEAK_0001"); ("age", a); ("gender", PStr "female");
   ("location", PStr loc);
   ("level", PDict [("final", PStr lvl); ("Combo1", PStr "")]);
   ("interview", PDict [("영어권_거주_여부", PStr "없음")])].

(** A table row with the given age, location, level code and experience
    flag, as the builder derives it. *)
Definition sample_row (a : Z) (loc lvl : string) (experience : bool) : Row :=
  {| participant_id := PStr "ESPEAK_0001";
     age := of_int a;
     gender := PStr "female";
     location := PStr loc;
     english_level := PStr lvl;
     self_grade := PStr "";
     combo_scores := [];
     interview := PDict [];
     file_date := PStr "20250801";
     year := PStr "2025";
     english_level_numeric := of_int (default 0 (LEVEL_MAPPING !! lvl));
     age_group := match create_age_groups (of_int a) with Ok g => g | Raise _ => "" end;
     is_metropolitan := classify_metropolitan (PStr loc);
     english_speaking_experience := experience |}.

(** Five rows in Seoul at level IG with residence experience, then five in
    Busan at level TM without; the ages spread over all five age groups. *)
Definition sample_table : DataFrame :=
  ((fun a => sample_row a "서울특별시 강남구" "IG" true) <$> [20; 26; 31; 36; 41])
  ++ ((fun a => sample_row a "부산광역시" "TM" false) <$> [22; 27; 33; 38; 45]).

(** Four metropolitan rows and ten others. *)
Definition table_4_10 : DataFrame :=
  ((fun a => sample_row a "경기도 성남시" "TL" true) <$> [20; 26; 31; 36])
  ++ ((fun a => sample_row a "부산광역시" "TM" false)
        <$> [21; 22; 23; 27; 28; 33; 34; 38; 45; 50]).

(** Ten rows of one age group. *)
Definition single_group_table : DataFrame :=
  (fun a => sample_row a "대전광역시" "TH" false) <$> [25; 25; 26; 26; 27; 27; 28; 28; 29; 29].

(** A complete record; the same record with age 0; one without [location];
    one whose level is no known code; one with a sub-score that [float]
    rejects. *)
Definition record_complete : pyval :=
  sample_record (sample_speaker (PInt 30) "서울특별시 강남구" "IG").
Definition record_age_zero : pyval :=
  sample_record (sample_speaker (PInt 0) "서울특별시 강남구" "IG").
Definition record_no_location : pyval :=
  sample_record [("id", PStr "ESPEAK_0002"); ("age", PInt 30);
                 ("level", PDict [("final", PStr "IG")])].
Definition record_unknown_level : pyval :=
  sample_record (sample_speaker (PInt 30) "부산광역시" "ZZ").
Definition record_bad_combo : pyval :=
  sample_record [("id", PStr "ESPEAK_0003"); ("age", PInt 30);
                 ("location", PStr "서울특별시 강남구");
                 ("level", PDict [("final", PStr "IG"); ("Combo1", PStr "N/A")])].

Definition sample_loaded : list (option pyval) :=
  [Some record_complete; None; Some record_unknown_level; Some record_no_location].

Definition sample_file : Stager.FileInfo :=
  {| Stager.file_path := "/opt/airflow/dataset/IG/ESPEAK_0001_json/ESPEAK_0001_1.json";
     Stager.level := "IG";
     Stager.participant := "ESPEAK_0001_json";
     Stager.date := "20250801" |}.

(** A predicate whose only field is an empty location list. *)
Definition empty_locations_filter : FilterRequest :=
  {| age_min := None; age_max := None; locations := Some []; levels := None |}.

(** A record whose age is an infinity, and one with two filled sub-scores
    and a blank one. *)
Definition record_infinite_age : pyval :=
  sample_record (sample_speaker (PFloat (Inf false)) "부산광역시" "TM").
Definition record_with_scores : pyval :=
  sample_record [("id", PStr "ESPEAK_0004"); ("age", PInt 30);
                 ("location", PStr "서울특별시 강남구");
                 ("level", PDict [("final", PStr "IG"); ("Combo1", PStr "3");
                                  ("Combo2", PStr ""); ("Combo3", PStr "4")])].

(** A bucket with two objects of one participant and one of another; the
    second object of the first participant does not parse. *)
Definition sample_storage : Server.Storage :=
  {| Server.s3_client := true;
     Server.S3_BUCKET_NAME := Some "corpus";
     Server.S3_RAW_PREFIX := "raw/";
     Server.head_bucket := Server.HeadReturns;
     Server.list_objects_v2 :=
       ["raw/year=2025/month=08/day=01/level=IG/ESPEAK_0001_json/ESPEAK_0001_1.json";
        "raw/year=2025/month=08/day=01/level=IG/ESPEAK_0001_json/ESPEAK_0001_2.json";
        "raw/year=2025/month=08/day=01/level=TM/ESPEAK_0002_json/ESPEAK_0002_1.json"];
     Server.get_json key :=
       if String.eqb key
            "raw/year=2025/month=08/day=01/level=IG/ESPEAK_0001_json/ESPEAK_0001_1.json"
       then Some record_complete
       else if String.eqb key
            "raw/year=2025/month=08/day=01/level=TM/ESPEAK_0002_json/ESPEAK_0002_1.json"
       then Some record_unknown_level
       else None |}.

(** The same storage when the prefix variable is not set. *)
Definition storage_without_prefix : Server.Storage :=
  {| Server.s3_client := Server.s3_client sample_storage;
     Server.S3_BUCKET_NAME := Server.S3_BUCKET_NAME sample_storage;
     Server.S3_RAW_PREFIX := "";
     Server.head_bucket := Server.head_bucket sample_storage;
     Server.list_objects_v2 := Server.list_objects_v2 sample_storage;
     Server.get_json := Server.get_json sample_storage |}.

(** Records of level TM and NA, and a listing with the levels IG, TM, ZZ
    and NA in this order. *)
Definition record_level_tm : pyval :=
  sample_record (sample_speaker (PInt 27) "부산광역시" "TM").
Definition record_level_na : pyval :=
  sample_record (sample_speaker (PInt 41) "대전광역시" "NA").
Definition levels_loaded : list (option pyval) :=
  [Some record_complete; Some record_level_tm; Some record_unknown_level;
   Some record_level_na].

(** A file of another participant, in another level directory. *)
Definition sample_file_tm : Stager.FileInfo :=
  {| Stager.file_path := "/opt/airflow/dataset/TM/ESPEAK_0002_json/ESPEAK_0002_1.json";
     Stager.level := "TM";
     Stager.participant := "ESPEAK_0002_json";
     Stager.date := "20250801" |}.

(** * Properties *)

(** ** Helper lemmas *)

Lemma Qtruncate_inject_Z (z : Z) : Qtruncate (inject_Z z) = z.
Proof.
  unfold Qtruncate. destruct (Qle_bool 0 (inject_Z z)).
  - apply Qfloor_Z.
  - apply Qceiling_Z.
Qed.

Lemma py_int_of_int (z : Z) : py_int (of_int z) = Ok z.
Proof. unfold py_int, of_int. by rewrite Qtruncate_inject_Z. Qed.

Lemma create_age_groups_of_int (a : Z) :
  create_age_groups (of_int a) =
    Ok (if a <? 25 then "20대 초반"
        else if a <? 30 then "20대 후반"
        else if a <? 35 then "30대 초반"
        else if a <? 40 then "30대 후반"
        else "40대 이상").
Proof.
  unfold create_age_groups. cbn [num_isna of_int].
  change (Num (inject_Z a)) with (of_int a). rewrite py_int_of_int. cbn.
  repeat case_match; reflexivity.
Qed.

Lemma mapM_res_Forall2 {A B} (f : A → res B) (l : list A) (k : list B) :
  mapM f l = Ok k → Forall2 (λ x y, f x = Ok y) l k.
Proof.
  revert k. induction l as [|x l IH]; intros k; cbn.
  - intros [= <-]. constructor.
  - destruct (f x) as [y|e] eqn:Hx; cbn; [|discriminate].
    destruct (mapM f l) as [k'|e] eqn:Hl; cbn; [|discriminate].
    intros [= <-]. constructor; auto.
Qed.

Lemma level_mapping_lookup (s : string) (n : Z) :
  LEVEL_MAPPING !! s = Some n ↔
  (s, n) ∈ [("IG", 1); ("TL", 2); ("TM", 3); ("TH", 4); ("NA", 5)].
Proof.
  unfold LEVEL_MAPPING. symmetry. apply elem_of_list_to_map.
  apply (bool_decide_unpack _). by vm_compute.
Qed.

Lemma Forall2_elem_of_r {A B} (P : A → B → Prop) (l : list A) (k : list B) (y : B) :
  Forall2 P l k → y ∈ k → ∃ x, x ∈ l ∧ P x y.
Proof.
  induction 1 as [|x y' l k Hxy _ IH]; intros Hy.
  - by apply elem_of_nil in Hy.
  - apply elem_of_cons in Hy as [->|Hy].
    + exists x. split; [left|done].
    + destruct (IH Hy) as (x' & Hx' & HP). exists x'. split; [by right|done].
Qed.

Lemma elem_of_filter_bool {A} (f : A → bool) (l : list A) (x : A) :
  x ∈ List.filter f l ↔ x ∈ l ∧ f x = true.
Proof. rewrite !list_elem_of_In. apply filter_In. Qed.

Lemma map_level_mapped (v : pyval) (x : num) :
  map_level v = Ok x → num_isna x = false →
  ∃ s n, v = PStr s ∧ LEVEL_MAPPING !! s = Some n ∧ x = of_int n.
Proof.
  intros Hm Hna.
  destruct v as [| | | |s| |]; unfold map_level in Hm;
    try (injection Hm as <-); try discriminate.
  destruct (LEVEL_MAPPING !! s) as [n|] eqn:Hs; injection Hm as <-; [|discriminate].
  by exists s, n.
Qed.

Lemma py_get_dict (kvs : list (string * pyval)) (k : string) (d : pyval) :
  py_get (PDict kvs) k d = Ok (default d (dict_lookup kvs k)).
Proof. reflexivity. Qed.

Lemma res_bind_Ok {A B} (a : A) (f : A → res B) : Ok a ≫= f = f a.
Proof. reflexivity. Qed.

Lemma res_bind_Raise {A B} (e : exn) (f : A → res B) : Raise e ≫= f = Raise e.
Proof. reflexivity. Qed.

(** Run the binds whose left operand is already a value or an exception. *)
Ltac step_binds H :=
  repeat first
    [ rewrite py_get_dict in H
    | rewrite res_bind_Ok in H
    | rewrite res_bind_Raise in H
    | progress cbn [py_items mret res_ret] in H ].

Ltac step_binds_goal :=
  repeat first
    [ rewrite py_get_dict
    | rewrite res_bind_Ok
    | rewrite res_bind_Raise
    | progress cbn [py_items mret res_ret] ].

Section Properties.
Context {builtins : Builtins} {pandas : Pandas} {scipy : SciPy}.

Lemma Forall2_compose {A B C} (P : A → B → Prop) (Q : B → C → Prop)
    (l : list A) (k : list B) (m : list C) :
  Forall2 P l k → Forall2 Q k m → Forall2 (λ x z, ∃ y, P x y ∧ Q y z) l m.
Proof.
  intros HP. revert m. induction HP as [|x y l k Hxy _ IH]; intros m HQ.
  - inversion HQ. constructor.
  - inversion HQ as [|? z ? m' Hyz HQ']; subst. constructor; [by exists y|by apply IH].
Qed.

(** A build that returns has derived one row per extracted dict, in order,
    and kept those without a missing value. *)
Lemma preprocess_dataframe_Ok (df : list Extracted) (t : DataFrame) :
  preprocess_dataframe df = Ok t →
  df ≠ [] ∧ ∃ rows, Forall2 derives df rows
                    ∧ t = List.filter (λ r, negb (has_na r)) rows.
Proof.
  unfold preprocess_dataframe. destruct df as [|e0 df0]; [discriminate|].
  set (df := e0 :: df0).
  destruct (mapM _ (_ <$> df)) as [lv|] eqn:Hlv; cbn [mbind res_bind]; [|discriminate].
  destruct (mapM _ lv) as [rows|] eqn:Hrows; cbn [mbind res_bind]; [|discriminate].
  intros [= <-]. split; [done|]. exists rows. split; [|done].
  apply mapM_res_Forall2 in Hlv, Hrows. apply Forall2_fmap_l in Hlv.
  eapply Forall2_impl; [exact (Forall2_compose _ _ _ _ _ Hlv Hrows)|].
  intros e r ([[e' a] n] & Hn & Hr). cbn in Hn, Hr.
  destruct (map_level (x_english_level e)) as [n'|] eqn:Hml; cbn in Hn; [|discriminate].
  injection Hn as <- <- <-.
  destruct (create_age_groups (to_numeric (x_age e))) as [g|] eqn:Hg; cbn in Hr;
    [|discriminate].
  injection Hr as <-. by repeat split.
Qed.

(** What [preprocess_dataframe] says of each row it returns. *)
Lemma preprocess_dataframe_rows (df : list Extracted) (t : DataFrame) (r : Row) :
  preprocess_dataframe df = Ok t → r ∈ t →
  has_na r = false ∧
  ∃ e, e ∈ df
       ∧ age r = to_numeric (x_age e)
       ∧ location r = x_location e
       ∧ english_level r = x_english_level e
       ∧ map_level (x_english_level e) = Ok (english_level_numeric r)
       ∧ create_age_groups (age r) = Ok (age_group r)
       ∧ is_metropolitan r = classify_metropolitan (x_location e)
       ∧ english_speaking_experience r = extract_english_experience (x_interview e).
Proof.
  unfold preprocess_dataframe. destruct df as [|e0 df0]; [discriminate|].
  set (df := e0 :: df0).
  destruct (mapM _ (_ <$> df)) as [lv|] eqn:Hlv; cbn; [|discriminate].
  destruct (mapM _ lv) as [rows|] eqn:Hrows; cbn; [|discriminate].
  intros [= <-] [Hr Hna]%elem_of_filter_bool.
  apply negb_true_iff in Hna. split; [done|].
  apply mapM_res_Forall2 in Hlv, Hrows.
  destruct (Forall2_elem_of_r _ _ _ _ Hrows Hr) as ([[e a] n] & Hean & Hmk).
  destruct (Forall2_elem_of_r _ _ _ _ Hlv Hean) as ([e' a'] & Hea & Hn).
  cbn in Hmk, Hn.
  destruct (map_level (x_english_level e')) as [n'|] eqn:Hml; cbn in Hn; [|discriminate].
  injection Hn as -> -> ->.
  apply list_elem_of_fmap in Hea as (e'' & [= -> ->] & He).
  destruct (create_age_groups (to_numeric (x_age e''))) as [g|] eqn:Hg; cbn in Hmk;
    [|discriminate].
  injection Hmk as <-. cbn. exists e''. by repeat split.
Qed.

Lemma Forall2_elem_of_l {A B} (P : A → B → Prop) (l : list A) (k : list B) (x : A) :
  Forall2 P l k → x ∈ l → ∃ y, y ∈ k ∧ P x y.
Proof.
  induction 1 as [|x' y l k Hxy _ IH]; intros Hx.
  - by apply elem_of_nil in Hx.
  - apply elem_of_cons in Hx as [->|Hx].
    + exists y. split; [left|done].
    + destruct (IH Hx) as (y' & Hy' & HP). exists y'. split; [by right|done].
Qed.

(** The mapping as it is applied to a cell: a known code gets its rank. *)
Lemma map_level_known (s : string) (n : Z) :
  LEVEL_MAPPING !! s = Some n → map_level (PStr s) = Ok (of_int n).
Proof. intros Hs. unfold map_level. by rewrite Hs. Qed.

(** C5.  The level-to-rank table sends IG, TL, TM, TH, NA to 1..5 and is
    injective.  The mapping applied to the level column gives each of the
    five codes its rank and gives no rank (NaN, a missing value) to any
    other string.  Every row of a built table carries the rank of its own
    level code; a record whose level is one of the five codes, with an age
    that coerces to a number and a location, has a row in the table with
    that rank, and a record whose level is any other string has none. *)
Theorem level_mapping_exact_injective_consistent :
  (LEVEL_MAPPING !! "IG" = Some 1 ∧ LEVEL_MAPPING !! "TL" = Some 2
   ∧ LEVEL_MAPPING !! "TM" = Some 3 ∧ LEVEL_MAPPING !! "TH" = Some 4
   ∧ LEVEL_MAPPING !! "NA" = Some 5)
  ∧ (map_level (PStr "IG") = Ok (of_int 1) ∧ map_level (PStr "TL") = Ok (of_int 2)
     ∧ map_level (PStr "TM") = Ok (of_int 3) ∧ map_level (PStr "TH") = Ok (of_int 4)
     ∧ map_level (PStr "NA") = Ok (of_int 5))
  ∧ (∀ a b n, LEVEL_MAPPING !! a = Some n → LEVEL_MAPPING !! b = Some n → a = b)
  ∧ (∀ a b x, a ∈ ["IG"; "TL"; "TM"; "TH"; "NA"] →
       map_level (PStr a) = Ok x → map_level (PStr b) = Ok x → a = b)
  ∧ (∀ s, s ∉ ["IG"; "TL"; "TM"; "TH"; "NA"] →
       LEVEL_MAPPING !! s = None ∧ map_level (PStr s) = Ok NaN)
  ∧ (∀ loaded t r, load_all_participant_data loaded = Ok t → r ∈ t →
       ∃ s n, english_level r = PStr s ∧ LEVEL_MAPPING !! s = Some n
              ∧ english_level_numeric r = of_int n)
  ∧ (∀ loaded t e s n,
       load_all_participant_data loaded = Ok t → e ∈ collect_rows loaded →
       x_english_level e = PStr s → LEVEL_MAPPING !! s = Some n →
       num_isna (to_numeric (x_age e)) = false → py_isna (x_location e) = false →
       ∃ r, r ∈ t ∧ participant_id r = x_participant_id e
            ∧ english_level r = PStr s ∧ english_level_numeric r = of_int n)
  ∧ (∀ loaded t r s, load_all_participant_data loaded = Ok t → r ∈ t →
       s ∉ ["IG"; "TL"; "TM"; "TH"; "NA"] → english_level r ≠ PStr s).
Proof.
  assert (∀ s, s ∉ ["IG"; "TL"; "TM"; "TH"; "NA"] → LEVEL_MAPPING !! s = None) as Hout.
  { intros s Hs. destruct (LEVEL_MAPPING !! s) as [n|] eqn:Hl; [|done].
    apply level_mapping_lookup in Hl. exfalso. apply Hs.
    set_unfold. destruct_or!; simplify_eq; tauto. }
  assert (∀ loaded t r, load_all_participant_data loaded = Ok t → r ∈ t →
            ∃ s n, english_level r = PStr s ∧ LEVEL_MAPPING !! s = Some n
                   ∧ english_level_numeric r = of_int n) as Hrows.
  { intros loaded t r Hload Hr.
    destruct (preprocess_dataframe_rows _ _ _ Hload Hr)
      as (Hna & e & _ & _ & _ & Hlvl & Hmap & _).
    unfold has_na in Hna. apply orb_false_iff in Hna as [Hna _].
    apply orb_false_iff in Hna as [_ Hna].
    destruct (map_level_mapped _ _ Hmap Hna) as (s & n & Hs & Hn & Hx).
    exists s, n. rewrite Hlvl. done. }
  split; [by vm_compute|]. split; [by vm_compute|].
  split; [|split; [|split; [|split; [|split]]]].
  - intros a b n Ha%level_mapping_lookup Hb%level_mapping_lookup.
    set_unfold. destruct_or!; by simplify_eq.
  - intros a b x Ha Hax Hbx.
    assert (∃ n, LEVEL_MAPPING !! a = Some n) as [n Hn].
    { set_unfold. destruct_or!; subst a; by eexists. }
    rewrite (map_level_known _ _ Hn) in Hax. injection Hax as <-.
    destruct (map_level_mapped _ _ Hbx) as (b' & m & [= <-] & Hm & Hnm); [done|].
    assert (n = m) as <-.
    { unfold of_int in Hnm. by injection Hnm. }
    apply level_mapping_lookup in Hn, Hm. set_unfold. destruct_or!; by simplify_eq.
  - intros s Hs. split; [by apply Hout|]. unfold map_level. by rewrite (Hout s Hs).
  - exact Hrows.
  - intros loaded t e s n Hload He Hs Hn Hage Hloc.
    apply preprocess_dataframe_Ok in Hload as (_ & rows & Hderives & ->).
    destruct (Forall2_elem_of_l _ _ _ _ Hderives He) as (r & Hr & Hlevel & _ & Heq).
    rewrite Hs, (map_level_known _ _ Hn) in Hlevel. injection Hlevel as Hrank.
    exists r. split.
    + apply elem_of_filter_bool. split; [done|]. apply negb_true_iff.
      unfold has_na. rewrite <- Hrank. rewrite Heq. cbn [age location].
      by rewrite Hage, Hloc.
    + rewrite Heq. cbn [participant_id english_level english_level_numeric].
      by rewrite Hs.
  - intros loaded t r s Hload Hr Hs Hlevel.
    destruct (Hrows loaded t r Hload Hr) as (s' & n & Hs' & Hn & _).
    rewrite Hlevel in Hs'. injection Hs' as <-. by rewrite (Hout s Hs) in Hn.
Qed.

(** C6.  Every integer age from 0 up falls in exactly one of the five
    buckets <25, 25–29, 30–34, 35–39, >=40 (in agreement with the bounds of
    [AGE_GROUPS]); ages 24, 25, 39 and 40 sit on the boundaries as listed;
    a missing age, and any raw age that numeric coercion turns into NaN,
    returns the sentinel without raising. *)
Theorem age_group_five_contiguous_buckets :
  (∀ a : Z, 0 ≤ a →
     ∃ g, create_age_groups (of_int a) = Ok g ∧
          ((g = "20대 초반" ∧ 0 ≤ a ≤ 24) ∨ (g = "20대 후반" ∧ 25 ≤ a ≤ 29)
           ∨ (g = "30대 초반" ∧ 30 ≤ a ≤ 34) ∨ (g = "30대 후반" ∧ 35 ≤ a ≤ 39)
           ∨ (g = "40대 이상" ∧ 40 ≤ a)))
  ∧ (∀ a g lo hi, (g, (lo, hi)) ∈ AGE_GROUPS → lo ≤ a ≤ hi →
       create_age_groups (of_int a) = Ok g)
  ∧ (create_age_groups (of_int 24) = Ok "20대 초반"
     ∧ create_age_groups (of_int 25) = Ok "20대 후반"
     ∧ create_age_groups (of_int 39) = Ok "30대 후반"
     ∧ create_age_groups (of_int 40) = Ok "40대 이상")
  ∧ create_age_groups NaN = Ok "미상"
  ∧ (∀ v, to_numeric v = NaN → create_age_groups (to_numeric v) = Ok "미상").
Proof.
  split; [|split; [|split; [|split]]].
  - intros a Ha. rewrite create_age_groups_of_int. eexists; split; [done|].
    repeat case_match; intuition lia.
  - intros a g lo hi Hin Hb. rewrite create_age_groups_of_int.
    unfold AGE_GROUPS in Hin. set_unfold.
    destruct_or!; simplify_eq; repeat case_match; first [done | lia].
  - by vm_compute.
  - done.
  - by intros v ->.
Qed.

(** *** Extractor *)

Lemma mapM_res_Ok_Forall {A B} (f : A → res B) (l : list A) :
  Forall (λ x, ∃ y, f x = Ok y) l → ∃ k, mapM f l = Ok k.
Proof.
  induction 1 as [|x l [y Hy] _ [k Hk]]; cbn.
  - by eexists.
  - rewrite Hy. cbn. rewrite Hk. cbn. by eexists.
Qed.

(** What a successful extraction read, and from where. *)
Lemma extract_fields_Ok (data : pyval) (e : Extracted) :
  extract_fields data = Ok e →
  ∃ kvs skvs lkvs,
    data = PDict kvs
    ∧ default (PDict []) (dict_lookup kvs "speaker") = PDict skvs
    ∧ default (PDict []) (dict_lookup skvs "level") = PDict lkvs
    ∧ x_age e = default PNone (dict_lookup skvs "age")
    ∧ x_location e = default (PStr "") (dict_lookup skvs "location")
    ∧ x_english_level e = default (PStr "") (dict_lookup lkvs "final").
Proof.
  unfold extract_fields. intros Hx.
  destruct data as [| | | | | |kvs]; try discriminate.
  step_binds Hx.
  destruct (default (PDict []) (dict_lookup kvs "speaker")) as [| | | | | |skvs] eqn:Hsp;
    try discriminate.
  step_binds Hx.
  destruct (default (PDict []) (dict_lookup skvs "level")) as [| | | | | |lkvs] eqn:Hlv;
    try discriminate.
  step_binds Hx.
  destruct (combo_scores_of lkvs) as [cs|]; [|discriminate].
  step_binds Hx.
  destruct (default (PDict []) (dict_lookup kvs "metadata")) as [| | | | | |mkvs];
    try discriminate.
  step_binds Hx. injection Hx as <-.
  exists kvs, skvs, lkvs. by repeat split.
Qed.

Lemma extract_body_gate (data : pyval) (e : Extracted) :
  extract_fields data = Ok e →
  truthy (x_age e) = false ∨ truthy (x_location e) = false
    ∨ truthy (x_english_level e) = false →
  extract_body data = Ok None.
Proof.
  intros Hf Hgate. unfold extract_body. rewrite Hf, res_bind_Ok.
  destruct Hgate as [->|[->| ->]]; cbn; by rewrite ?orb_true_r.
Qed.

Lemma extract_body_Raise (data : pyval) (ex : exn) :
  extract_body data = Raise ex → extract_analysis_data data = None.
Proof. unfold extract_analysis_data. by intros ->. Qed.

Lemma extract_analysis_data_Some (data : pyval) (e : Extracted) :
  extract_analysis_data data = Some e →
  extract_fields data = Ok e
  ∧ truthy (x_age e) = true ∧ truthy (x_location e) = true
  ∧ truthy (x_english_level e) = true.
Proof.
  unfold extract_analysis_data, extract_body.
  destruct (extract_fields data) as [e'|]; [|discriminate].
  rewrite res_bind_Ok.
  destruct (truthy (x_age e')) eqn:Ha, (truthy (x_location e')) eqn:Hl,
    (truthy (x_english_level e')) eqn:Hv; cbn; try discriminate.
  intros [= <-]. by repeat split.
Qed.

Lemma empty_or_absent_falsy (v : pyval) : empty_or_absent v → truthy v = false.
Proof. by intros [-> | ->]. Qed.

(** A falsy gate field read from the speaker block rejects the record,
    whatever else the record holds. *)
Lemma extract_falsy_field (kvs skvs : list (string * pyval)) :
  default (PDict []) (dict_lookup kvs "speaker") = PDict skvs →
  truthy (default PNone (dict_lookup skvs "age")) = false
    ∨ truthy (default (PStr "") (dict_lookup skvs "location")) = false →
  extract_analysis_data (PDict kvs) = None.
Proof.
  intros Hsp Hfalsy. unfold extract_analysis_data.
  destruct (extract_fields (PDict kvs)) as [e|ex] eqn:Hf.
  - destruct (extract_fields_Ok _ _ Hf)
      as (kvs' & skvs' & lkvs & [= <-] & Hsp' & _ & Hage & Hloc & _).
    rewrite Hsp in Hsp'. injection Hsp' as <-.
    rewrite <- Hage, <- Hloc in Hfalsy.
    rewrite (extract_body_gate _ e); [done|done|tauto].
  - unfold extract_body. by rewrite Hf.
Qed.

Lemma collect_rows_drop (l1 l2 : list (option pyval)) (data : pyval) :
  extract_analysis_data data = None →
  collect_rows (l1 ++ Some data :: l2) = collect_rows (l1 ++ l2).
Proof.
  intros Hnone. unfold collect_rows. rewrite !omap_app. f_equal. cbn.
  rewrite Hnone. by destruct (truthy data).
Qed.

Lemma collect_rows_elem (loaded : list (option pyval)) (e : Extracted) :
  e ∈ collect_rows loaded →
  ∃ d, Some d ∈ loaded ∧ extract_analysis_data d = Some e.
Proof.
  unfold collect_rows. intros ([d|] & Hin & He)%list_elem_of_omap; [|discriminate].
  exists d. split; [done|]. by destruct (truthy d).
Qed.

Lemma well_structured_no_raise (data : pyval) :
  well_structured data = true →
  Forall (λ kv, ∃ x, py_float kv.2 = Ok x) (combo_entries data) →
  ∃ r, extract_body data = Ok r.
Proof.
  unfold well_structured, combo_entries, extract_body, extract_fields.
  destruct data as [| | | | | |kvs]; try discriminate.
  step_binds_goal.
  destruct (default (PDict []) (dict_lookup kvs "speaker")) as [| | | | | |skvs];
    try discriminate.
  step_binds_goal.
  destruct (default (PDict []) (dict_lookup skvs "level")) as [| | | | | |lkvs];
    try discriminate.
  destruct (default (PDict []) (dict_lookup kvs "metadata")) as [| | | | | |mkvs];
    try discriminate.
  intros _ Hcombo. step_binds_goal.
  assert (∃ cs, combo_scores_of lkvs = Ok cs) as [cs ->].
  { unfold combo_scores_of. apply mapM_res_Ok_Forall.
    eapply Forall_impl; [exact Hcombo|]. intros kv [x Hx]. rewrite Hx.
    by eexists. }
  step_binds_goal. case_match; by eexists.
Qed.

Lemma ill_structured_raises (data : pyval) :
  well_structured data = false → ∃ ex, extract_body data = Raise ex.
Proof.
  unfold well_structured, extract_body, extract_fields.
  destruct data as [| | | | | |kvs]; try by eexists.
  step_binds_goal.
  destruct (default (PDict []) (dict_lookup kvs "speaker")) as [| | | | | |skvs];
    try by eexists.
  step_binds_goal.
  destruct (default (PDict []) (dict_lookup skvs "level")) as [| | | | | |lkvs];
    try by eexists.
  step_binds_goal.
  destruct (combo_scores_of lkvs) as [cs|]; [|by eexists].
  step_binds_goal.
  destruct (default (PDict []) (dict_lookup kvs "metadata")) as [| | | | | |mkvs];
    first [by cbn; intros; discriminate | by eexists].
Qed.

(** C2, as amended.  A record whose age, location or level resolves to
    [None] or the empty string yields no row; so does every record with no
    [location] key; such a record leaves no trace in the built table, and
    every row of the table comes from a record that passed the gate on all
    three fields.  A record that is a mapping with mapping-valued blocks
    never raises for keys it lacks, provided [float] accepts its Combo
    sub-scores; every exception raised while extracting, which includes the
    one for a non-mapping block, is caught and the record skipped. *)
Theorem extractor_completeness_gate :
  (∀ data e, extract_fields data = Ok e →
     empty_or_absent (x_age e) ∨ empty_or_absent (x_location e)
       ∨ empty_or_absent (x_english_level e) →
     extract_body data = Ok None ∧ extract_analysis_data data = None)
  ∧ (∀ kvs skvs,
       default (PDict []) (dict_lookup kvs "speaker") = PDict skvs →
       dict_lookup skvs "location" = None →
       extract_analysis_data (PDict kvs) = None)
  ∧ (∀ l1 l2 data, extract_analysis_data data = None →
       load_all_participant_data (l1 ++ Some data :: l2)
       = load_all_participant_data (l1 ++ l2))
  ∧ (∀ loaded t r, load_all_participant_data loaded = Ok t → r ∈ t →
       ∃ d e, Some d ∈ loaded ∧ extract_analysis_data d = Some e
              ∧ truthy (x_age e) = true ∧ truthy (x_location e) = true
              ∧ truthy (x_english_level e) = true
              ∧ age r = to_numeric (x_age e) ∧ location r = x_location e
              ∧ english_level r = x_english_level e)
  ∧ (∀ data, well_structured data = true →
       Forall (λ kv, ∃ x, py_float kv.2 = Ok x) (combo_entries data) →
       ∃ r, extract_body data = Ok r)
  ∧ (∀ data, well_structured data = false → ∃ ex, extract_body data = Raise ex)
  ∧ (∀ data ex, extract_body data = Raise ex → extract_analysis_data data = None).
Proof.
  repeat apply conj.
  - intros data e Hf Hempty.
    assert (extract_body data = Ok None) as Hb.
    { apply (extract_body_gate _ e Hf).
      destruct Hempty as [?|[?|?]]; auto using empty_or_absent_falsy. }
    split; [done|]. unfold extract_analysis_data. by rewrite Hb.
  - intros kvs skvs Hsp Hloc. apply (extract_falsy_field _ _ Hsp).
    right. by rewrite Hloc.
  - intros l1 l2 data Hnone. unfold load_all_participant_data.
    by rewrite collect_rows_drop.
  - intros loaded t r Hload Hr.
    destruct (preprocess_dataframe_rows _ _ _ Hload Hr)
      as (_ & e & He & Hage & Hloc & Hlvl & _).
    destruct (collect_rows_elem _ _ He) as (d & Hd & Hx).
    destruct (extract_analysis_data_Some _ _ Hx) as (_ & ? & ? & ?).
    exists d, e. by repeat split.
  - apply well_structured_no_raise.
  - apply ill_structured_raises.
  - apply extract_body_Raise.
Qed.

(** C9.  The gate is a truth test: a record whose speaker block holds an
    [age] that is falsy (0, 0.0, the empty string, ...) yields no row and
    leaves no trace in the built table, although the key is present. *)
Theorem falsy_age_is_rejected (kvs skvs : list (string * pyval)) (v : pyval) :
  default (PDict []) (dict_lookup kvs "speaker") = PDict skvs →
  dict_lookup skvs "age" = Some v →
  truthy v = false →
  extract_analysis_data (PDict kvs) = None
  ∧ ∀ l1 l2, load_all_participant_data (l1 ++ Some (PDict kvs) :: l2)
             = load_all_participant_data (l1 ++ l2).
Proof.
  intros Hsp Hage Hfalsy.
  assert (extract_analysis_data (PDict kvs) = None) as Hnone.
  { apply (extract_falsy_field _ _ Hsp). left. by rewrite Hage. }
  split; [done|]. intros l1 l2. unfold load_all_participant_data.
  by rewrite collect_rows_drop.
Qed.

(** *** Filter engine *)

Lemma filter_bool_and {A} (f g : A → bool) (l : list A) :
  List.filter g (List.filter f l) = List.filter (λ x, f x && g x) l.
Proof.
  induction l as [|x l IH]; [done|]. cbn.
  destruct (f x); cbn; [destruct (g x)|]; by rewrite IH.
Qed.

Lemma filter_bool_all {A} (f : A → bool) (l : list A) :
  (∀ x, f x = true) → List.filter f l = l.
Proof. intros Hf. induction l as [|x l IH]; cbn; [done|]. by rewrite Hf, IH. Qed.

Lemma filter_bool_sublist {A} (f : A → bool) (l : list A) :
  sublist (List.filter f l) l.
Proof.
  induction l as [|x l IH]; cbn; [constructor|].
  destruct (f x); by constructor.
Qed.

Lemma filter_bool_none {A} (f : A → bool) (l : list A) :
  (∀ x, f x = false) → List.filter f l = [].
Proof. intros Hf. induction l as [|x l IH]; cbn; [done|]. by rewrite Hf. Qed.

Lemma filter_bool_all_on {A} (f : A → bool) (l : list A) :
  (∀ x, x ∈ l → f x = true) → List.filter f l = l.
Proof.
  induction l as [|x l IH]; intros Hf; cbn; [done|].
  rewrite Hf by left. rewrite IH; [done|]. intros y Hy. apply Hf. by right.
Qed.

(** The four masks of [apply_filters] amount to one mask. *)
Lemma apply_filters_satisfies (df : DataFrame) (filters : FilterRequest) :
  apply_filters df filters = List.filter (satisfies filters) df.
Proof.
  unfold apply_filters.
  assert (∀ l, match age_min filters with
               | Some lo => List.filter (λ r, num_ge (age r) (of_int lo)) l
               | None => l
               end = List.filter (clause_age_min filters) l) as ->.
  { intros l. unfold clause_age_min.
    destruct (age_min filters); [done|]. symmetry. by apply filter_bool_all. }
  assert (∀ l, match age_max filters with
               | Some hi => List.filter (λ r, num_le (age r) (of_int hi)) l
               | None => l
               end = List.filter (clause_age_max filters) l) as ->.
  { intros l. unfold clause_age_max.
    destruct (age_max filters); [done|]. symmetry. by apply filter_bool_all. }
  assert (∀ l, match locations filters with
               | Some (v :: vs) => List.filter (λ r, isin (location r) (v :: vs)) l
               | _ => l
               end = List.filter (clause_locations filters) l) as ->.
  { intros l. unfold clause_locations.
    destruct (locations filters) as [[|v vs]|];
      first [done | symmetry; by apply filter_bool_all]. }
  assert (∀ l, match levels filters with
               | Some (v :: vs) => List.filter (λ r, isin (english_level r) (v :: vs)) l
               | _ => l
               end = List.filter (clause_levels filters) l) as ->.
  { intros l. unfold clause_levels.
    destruct (levels filters) as [[|v vs]|];
      first [done | symmetry; by apply filter_bool_all]. }
  rewrite !filter_bool_and. apply List.filter_ext. intros r.
  unfold satisfies. by rewrite !andb_assoc.
Qed.

Lemma new_frame_spec (frames : gmap positive DataFrame) (rows : DataFrame) :
  let st := new_frame frames rows in
  st.1 !! st.2 = Some rows ∧ frames !! st.2 = None ∧ extends frames st.1.
Proof.
  unfold new_frame. cbn [fst snd].
  assert (frames !! fresh (dom frames) = None) as Hfresh.
  { apply not_elem_of_dom. apply is_fresh. }
  split; [apply lookup_insert_eq|]. split; [done|].
  intros id t Hid. rewrite lookup_insert_ne; [done|]. congruence.
Qed.

(** One guarded selection: with a mask, a new frame holding the selected
    rows; without, the frame at hand.  Either way the frames of [frames0],
    an earlier state of the store, are kept, and the frame at hand stays
    outside of it. *)
Lemma filter_step_spec (frames0 frames : gmap positive DataFrame) (id : positive)
    (rows : DataFrame) (mask : option (Row → bool)) :
  frames !! id = Some rows → frames0 !! id = None → extends frames0 frames →
  ∃ st, match mask with
        | Some m => frame_select m frames id
        | None => Some (frames, id)
        end = Some st
        ∧ st.1 !! st.2 = Some match mask with
                              | Some m => List.filter m rows
                              | None => rows
                              end
        ∧ frames0 !! st.2 = None ∧ extends frames0 st.1.
Proof.
  intros Hid Hnew Hext. destruct mask as [m|]; [|by eexists].
  unfold frame_select. rewrite Hid. cbn [mbind option_bind].
  destruct (new_frame_spec frames (List.filter m rows)) as (Hst & Hfresh & Hkeep).
  exists (new_frame frames (List.filter m rows)).
  split; [done|]. split; [done|]. split.
  - destruct (frames0 !! (new_frame frames (List.filter m rows)).2) as [t|] eqn:Ht; [|done].
    apply Hext in Ht. congruence.
  - intros id' t Ht. by apply Hkeep, Hext.
Qed.

(** The store version computes, in a frame of its own, what the function on
    values computes, and keeps every existing frame as it was. *)
Lemma apply_filters_on_spec (frames : gmap positive DataFrame) (df : positive)
    (rows : DataFrame) (filters : FilterRequest) :
  frames !! df = Some rows →
  ∃ frames' out,
    apply_filters_on frames df filters = Some (frames', out)
    ∧ frames' !! out = Some (apply_filters rows filters)
    ∧ frames !! out = None
    ∧ extends frames frames'.
Proof.
  intros Hdf. unfold apply_filters_on, apply_filters, frame_copy.
  rewrite Hdf. cbn [mbind option_bind].
  destruct (new_frame_spec frames rows) as (H0 & Hnew0 & Hext0).
  destruct (new_frame frames rows) as [f0 id0]. cbn [fst snd] in *.
  destruct (filter_step_spec frames f0 id0 rows
              ((λ lo r, num_ge (age r) (of_int lo)) <$> age_min filters))
    as ([f1 id1] & E1 & H1 & Hnew1 & Hext1); [done..|].
  destruct (age_min filters) as [lo|]; cbn [fmap option_fmap option_map] in E1, H1;
    rewrite E1; clear E1; cbn [fst snd mbind option_bind] in *.
  all: destruct (filter_step_spec frames f1 id1 _
                   ((λ hi r, num_le (age r) (of_int hi)) <$> age_max filters) H1)
         as ([f2 id2] & E2 & H2 & Hnew2 & Hext2); [done..|].
  all: destruct (age_max filters) as [hi|]; cbn [fmap option_fmap option_map] in E2, H2;
    rewrite E2; clear E2; cbn [fst snd mbind option_bind] in *.
  all: destruct (locations filters) as [[|v vs]|].
  all: try (destruct (filter_step_spec frames f2 id2 _
                        (Some (λ r, isin (location r) (v :: vs))) H2)
              as ([f3 id3] & E3 & H3 & Hnew3 & Hext3); [done..|]).
  all: try (destruct (filter_step_spec frames f2 id2 _ None H2)
              as ([f3 id3] & E3 & H3 & Hnew3 & Hext3); [done..|]).
  all: rewrite E3; clear E3; cbn [fst snd mbind option_bind] in *.
  all: destruct (levels filters) as [[|w ws]|].
  all: try (destruct (filter_step_spec frames f3 id3 _
                        (Some (λ r, isin (english_level r) (w :: ws))) H3)
              as ([f4 id4] & E4 & H4 & Hnew4 & Hext4); [done..|]).
  all: try (destruct (filter_step_spec frames f3 id3 _ None H3)
              as ([f4 id4] & E4 & H4 & Hnew4 & Hext4); [done..|]).
  all: rewrite E4; clear E4; cbn [fst snd mbind option_bind] in *.
  all: by exists f4, id4.
Qed.

(** C4, as amended.  [apply_filters] returns, in their original order, the
    rows that satisfy every clause of the predicate, where an age bound is a
    no-op when unset and an allow-list is a no-op when unset or empty.  On
    the store of frames, the result is a frame of its own and the input
    table, like every other frame, is left as it was.  Filtering by a lower
    age bound and then by an upper one is filtering by both at once (in
    particular for 25 and 35), and filtering the result again by the same
    predicate changes nothing. *)
Theorem apply_filters_conjunction (df : DataFrame) (filters : FilterRequest) :
  apply_filters df filters = List.filter (satisfies filters) df
  ∧ (∀ r, r ∈ apply_filters df filters ↔ r ∈ df ∧ satisfies filters r = true)
  ∧ sublist (apply_filters df filters) df
  ∧ (∀ (frames : gmap positive DataFrame) (id : positive),
       frames !! id = Some df →
       ∃ frames' out,
         apply_filters_on frames id filters = Some (frames', out)
         ∧ frames' !! out = Some (apply_filters df filters)
         ∧ out ≠ id
         ∧ frames' !! id = Some df
         ∧ extends frames frames')
  ∧ (∀ lo hi,
       apply_filters
         (apply_filters df {| age_min := Some lo; age_max := None;
                              locations := None; levels := None |})
         {| age_min := None; age_max := Some hi; locations := None; levels := None |}
       = apply_filters df {| age_min := Some lo; age_max := Some hi;
                             locations := None; levels := None |})
  ∧ apply_filters
      (apply_filters df {| age_min := Some 25; age_max := None;
                           locations := None; levels := None |})
      {| age_min := None; age_max := Some 35; locations := None; levels := None |}
    = apply_filters df {| age_min := Some 25; age_max := Some 35;
                          locations := None; levels := None |}
  ∧ apply_filters (apply_filters df filters) filters = apply_filters df filters.
Proof.
  repeat apply conj.
  - apply apply_filters_satisfies.
  - intros r. rewrite apply_filters_satisfies. apply elem_of_filter_bool.
  - rewrite apply_filters_satisfies. apply filter_bool_sublist.
  - intros frames id Hid.
    destruct (apply_filters_on_spec frames id df filters Hid)
      as (frames' & out & Hrun & Hout & Hnew & Hext).
    exists frames', out. repeat split; [done..| |by apply Hext|done].
    intros ->. congruence.
  - reflexivity.
  - reflexivity.
  - rewrite !apply_filters_satisfies, filter_bool_and.
    apply List.filter_ext. intros r. apply andb_diag.
Qed.

(** C10.  An allow-list that is supplied but empty filters nothing: the
    predicate behaves as if the field were absent, and a predicate holding
    only an empty location list, or only an empty level list, returns every
    row of the table. *)
Theorem empty_allow_list_is_no_constraint (df : DataFrame) (filters : FilterRequest) :
  apply_filters df {| age_min := age_min filters; age_max := age_max filters;
                      locations := Some []; levels := levels filters |}
  = apply_filters df {| age_min := age_min filters; age_max := age_max filters;
                        locations := None; levels := levels filters |}
  ∧ apply_filters df {| age_min := age_min filters; age_max := age_max filters;
                        locations := locations filters; levels := Some [] |}
    = apply_filters df {| age_min := age_min filters; age_max := age_max filters;
                          locations := locations filters; levels := None |}
  ∧ apply_filters df {| age_min := None; age_max := None;
                        locations := Some []; levels := None |} = df
  ∧ apply_filters df {| age_min := None; age_max := None;
                        locations := None; levels := Some [] |} = df.
Proof. by repeat split. Qed.

(** *** Hypothesis evaluators *)

Lemma num_lt_asym (a b : num) : num_lt a b = true → num_lt b a = false.
Proof.
  destruct a as [p| |[]], b as [q| |[]]; cbn; try done.
  rewrite negb_true_iff, negb_false_iff. intros Hqp.
  apply Qle_bool_iff. apply Qlt_le_weak, Qnot_le_lt. intros Hle.
  apply Qle_bool_iff in Hle. congruence.
Qed.

Lemma verdicts_distinct :
  ACCEPTED ≠ REJECTED ∧ ACCEPTED ≠ INCONCLUSIVE ∧ REJECTED ≠ INCONCLUSIVE.
Proof. by repeat split. Qed.

(** The conditional expression that computes [result] in the three
    evaluators obeys the rule read off it. *)
Lemma result_expression_rule (sig lt gt : bool) :
  (lt = true → gt = false) →
  let verdict :=
    if sig && gt then REJECTED else if sig && lt then ACCEPTED else INCONCLUSIVE in
  (verdict = ACCEPTED ↔ sig = true ∧ lt = true)
  ∧ (verdict = REJECTED ↔ sig = true ∧ gt = true)
  ∧ (verdict = INCONCLUSIVE ↔ ¬ (sig = true ∧ lt = true) ∧ ¬ (sig = true ∧ gt = true)).
Proof.
  destruct verdicts_distinct as (Har & Hai & Hri).
  intros Hasym. destruct sig, lt, gt; cbn;
    try (specialize (Hasym eq_refl); discriminate);
    intuition (congruence || discriminate).
Qed.

Lemma analyze_hypothesis2_Ok (df : DataFrame) (filters : FilterRequest) :
  let t := apply_filters df filters in
  let metro_scores := english_level_numeric <$> metro_rows t in
  let non_metro_scores := english_level_numeric <$> non_metro_rows t in
  (5 ≤ length (metro_rows t))%nat → (5 ≤ length (non_metro_rows t))%nat →
  ∃ r, analyze_hypothesis2 df filters = Ok r
       ∧ p_value r = (ttest_ind metro_scores non_metro_scores).2
       ∧ group_verdict_rule (result r) (ttest_ind metro_scores non_metro_scores).2
           (series_mean metro_scores) (series_mean non_metro_scores).
Proof.
  intros t metro_scores non_metro_scores Hm Hn. subst metro_scores non_metro_scores.
  unfold analyze_hypothesis2. fold t. fold (metro_rows t) (non_metro_rows t).
  rewrite !length_fmap.
  destruct (Nat.ltb_spec (length (metro_rows t)) 5); [lia|].
  destruct (Nat.ltb_spec (length (non_metro_rows t)) 5); [lia|].
  cbn [orb].
  destruct (ttest_ind _ _) as [t_stat p_ttest].
  destruct (mannwhitneyu _ _) as [u_stat p_mw].
  destruct (chi2_contingency _ _) as [chi2 p_chi2].
  eexists. split; [reflexivity|]. split; [reflexivity|].
  cbn [result snd]. apply result_expression_rule. apply num_lt_asym.
Qed.

Lemma analyze_hypothesis3_Ok (df : DataFrame) (filters : FilterRequest) :
  let t := apply_filters df filters in
  let exp_scores := english_level_numeric <$> exp_rows t in
  let no_exp_scores := english_level_numeric <$> no_exp_rows t in
  (5 ≤ length (exp_rows t))%nat → (5 ≤ length (no_exp_rows t))%nat →
  ∃ r, analyze_hypothesis3 df filters = Ok r
       ∧ p_value r = (ttest_ind exp_scores no_exp_scores).2
       ∧ group_verdict_rule (result r) (ttest_ind exp_scores no_exp_scores).2
           (series_mean exp_scores) (series_mean no_exp_scores).
Proof.
  intros t exp_scores no_exp_scores Hm Hn. subst exp_scores no_exp_scores.
  unfold analyze_hypothesis3. fold t. fold (exp_rows t) (no_exp_rows t).
  rewrite !length_fmap.
  destruct (Nat.ltb_spec (length (exp_rows t)) 5); [lia|].
  destruct (Nat.ltb_spec (length (no_exp_rows t)) 5); [lia|].
  cbn [orb].
  destruct (ttest_ind _ _) as [t_stat p_ttest].
  destruct (mannwhitneyu _ _) as [u_stat p_mw].
  destruct (chi2_contingency _ _) as [chi2 p_chi2].
  eexists. split; [reflexivity|]. split; [reflexivity|].
  cbn [result snd]. apply result_expression_rule. apply num_lt_asym.
Qed.

Lemma analyze_hypothesis2_insufficient (df : DataFrame) (filters : FilterRequest) :
  let t := apply_filters df filters in
  (length (metro_rows t) < 5 ∨ length (non_metro_rows t) < 5)%nat →
  analyze_hypothesis2 df filters
  = Raise (HTTPException 400 "각 그룹에 충분한 데이터가 없습니다.").
Proof.
  intros t Hlt. unfold analyze_hypothesis2. fold t.
  fold (metro_rows t) (non_metro_rows t). rewrite !length_fmap.
  destruct (Nat.ltb_spec (length (metro_rows t)) 5); [done|].
  destruct (Nat.ltb_spec (length (non_metro_rows t)) 5); [done|lia].
Qed.

Lemma analyze_hypothesis3_insufficient (df : DataFrame) (filters : FilterRequest) :
  let t := apply_filters df filters in
  (length (exp_rows t) < 5 ∨ length (no_exp_rows t) < 5)%nat →
  analyze_hypothesis3 df filters
  = Raise (HTTPException 400 "각 그룹에 충분한 데이터가 없습니다.").
Proof.
  intros t Hlt. unfold analyze_hypothesis3. fold t.
  fold (exp_rows t) (no_exp_rows t). rewrite !length_fmap.
  destruct (Nat.ltb_spec (length (exp_rows t)) 5); [done|].
  destruct (Nat.ltb_spec (length (no_exp_rows t)) 5); [done|lia].
Qed.

(** C1.  When both groups of the filtered table have at least 5 rows, the
    evaluator of hypothesis 2 returns a result whose verdict is "accepted"
    exactly when the t-test p-value is below 0.05 and the metropolitan mean
    rank is strictly below the non-metropolitan one, "rejected" exactly when
    p is below 0.05 and the metropolitan mean is strictly above, and
    "inconclusive" in every other case; hypothesis 3 applies the same rule
    to the groups with and without residence experience. *)
Theorem h2_h3_verdict_rule (df : DataFrame) (filters : FilterRequest) :
  let t := apply_filters df filters in
  let metro_scores := english_level_numeric <$> metro_rows t in
  let non_metro_scores := english_level_numeric <$> non_metro_rows t in
  let exp_scores := english_level_numeric <$> exp_rows t in
  let no_exp_scores := english_level_numeric <$> no_exp_rows t in
  ((5 ≤ length (metro_rows t))%nat → (5 ≤ length (non_metro_rows t))%nat →
   ∃ r, analyze_hypothesis2 df filters = Ok r
        ∧ p_value r = (ttest_ind metro_scores non_metro_scores).2
        ∧ group_verdict_rule (result r) (ttest_ind metro_scores non_metro_scores).2
            (series_mean metro_scores) (series_mean non_metro_scores))
  ∧ ((5 ≤ length (exp_rows t))%nat → (5 ≤ length (no_exp_rows t))%nat →
     ∃ r, analyze_hypothesis3 df filters = Ok r
          ∧ p_value r = (ttest_ind exp_scores no_exp_scores).2
          ∧ group_verdict_rule (result r) (ttest_ind exp_scores no_exp_scores).2
              (series_mean exp_scores) (series_mean no_exp_scores)).
Proof.
  split; [apply analyze_hypothesis2_Ok | apply analyze_hypothesis3_Ok].
Qed.

Lemma analyze_hypothesis1_insufficient (df : DataFrame) (filters : FilterRequest) :
  (length (apply_filters df filters) < 10)%nat →
  analyze_hypothesis1 df filters
  = Raise (HTTPException 400 "분석에 충분한 데이터가 없습니다.").
Proof.
  intros Hlt. unfold analyze_hypothesis1.
  destruct (Nat.ltb_spec (length (apply_filters df filters)) 10); [done|lia].
Qed.

Lemma analyze_hypothesis1_Ok (df : DataFrame) (filters : FilterRequest) :
  let t := apply_filters df filters in
  let pearson := pearsonr (age <$> t) (english_level_numeric <$> t) in
  (10 ≤ length t)%nat →
  ∃ r, analyze_hypothesis1 df filters = Ok r
       ∧ p_value r = pearson.2
       ∧ correlation r = Some pearson.1
       ∧ dict_lookup (statistics r) "anova_f_stat" = Some (h1_anova t).1
       ∧ dict_lookup (statistics r) "anova_p_value" = Some (h1_anova t).2
       ∧ correlation_verdict_rule (result r) pearson.2 pearson.1.
Proof.
  intros t pearson Hlen. subst pearson. unfold analyze_hypothesis1. fold t.
  destruct (Nat.ltb_spec (length t) 10); [lia|].
  destruct (pearsonr _ _) as [corr_pearson p_pearson].
  destruct (spearmanr _ _) as [corr_spearman p_spearman].
  destruct (h1_anova t) as [f_stat p_anova].
  eexists. split; [reflexivity|]. do 4 (split; [reflexivity|]).
  cbn [result fst snd].
  destruct (result_expression_rule (num_lt p_pearson lit_0_05)
              (num_gt corr_pearson (of_int 0)) (num_lt corr_pearson (of_int 0)))
    as (Ha & Hr & Hi).
  { apply num_lt_asym. }
  unfold correlation_verdict_rule. tauto.
Qed.

(** C3.  Each evaluator checks its minimum sample size first and answers a
    shortfall with an insufficient-data error (HTTP 400), never with a
    verdict: hypothesis 1 below 10 filtered rows, hypotheses 2 and 3 when
    either compared group has fewer than 5 rows; at or above the minimum
    the evaluation returns a result.  So 4 metropolitan rows with 10
    non-metropolitan rows is an error, and 5 with 5 is evaluated. *)
Theorem minimum_sample_size_enforced (df : DataFrame) (filters : FilterRequest) :
  let t := apply_filters df filters in
  ((length t < 10)%nat →
     analyze_hypothesis1 df filters
     = Raise (HTTPException 400 "분석에 충분한 데이터가 없습니다."))
  ∧ ((10 ≤ length t)%nat → ∃ r, analyze_hypothesis1 df filters = Ok r)
  ∧ ((length (metro_rows t) < 5 ∨ length (non_metro_rows t) < 5)%nat →
       analyze_hypothesis2 df filters
       = Raise (HTTPException 400 "각 그룹에 충분한 데이터가 없습니다."))
  ∧ ((5 ≤ length (metro_rows t))%nat → (5 ≤ length (non_metro_rows t))%nat →
       ∃ r, analyze_hypothesis2 df filters = Ok r)
  ∧ ((length (exp_rows t) < 5 ∨ length (no_exp_rows t) < 5)%nat →
       analyze_hypothesis3 df filters
       = Raise (HTTPException 400 "각 그룹에 충분한 데이터가 없습니다."))
  ∧ ((5 ≤ length (exp_rows t))%nat → (5 ≤ length (no_exp_rows t))%nat →
       ∃ r, analyze_hypothesis3 df filters = Ok r)
  ∧ (length (metro_rows t) = 4%nat → length (non_metro_rows t) = 10%nat →
       analyze_hypothesis2 df filters
       = Raise (HTTPException 400 "각 그룹에 충분한 데이터가 없습니다."))
  ∧ (length (metro_rows t) = 5%nat → length (non_metro_rows t) = 5%nat →
       ∃ r, analyze_hypothesis2 df filters = Ok r).
Proof.
  intros t. repeat apply conj.
  - apply analyze_hypothesis1_insufficient.
  - intros Hlen. destruct (analyze_hypothesis1_Ok df filters Hlen) as (r & Hr & _).
    by exists r.
  - apply analyze_hypothesis2_insufficient.
  - intros Hm Hn. destruct (analyze_hypothesis2_Ok df filters Hm Hn) as (r & Hr & _).
    by exists r.
  - apply analyze_hypothesis3_insufficient.
  - intros Hm Hn. destruct (analyze_hypothesis3_Ok df filters Hm Hn) as (r & Hr & _).
    by exists r.
  - intros Hm Hn. apply analyze_hypothesis2_insufficient. fold t. lia.
  - intros Hm Hn.
    destruct (analyze_hypothesis2_Ok df filters) as (r & Hr & _); fold t; [lia..|].
    by exists r.
Qed.

Lemma elem_of_unique (l : list string) (x : string) : x ∈ unique l ↔ x ∈ l.
Proof.
  induction l as [|y l IH]; cbn; [done|].
  rewrite !elem_of_cons, elem_of_filter_bool, IH, negb_true_iff, String.eqb_neq.
  destruct (decide (x = y)); tauto.
Qed.

Lemma NoDup_filter_bool {A} (f : A → bool) (l : list A) :
  NoDup l → NoDup (List.filter f l).
Proof.
  induction 1 as [|x l Hx _ IH]; cbn; [constructor|].
  destruct (f x); [|done]. constructor; [|done].
  rewrite elem_of_filter_bool. tauto.
Qed.

Lemma NoDup_unique (l : list string) : NoDup (unique l).
Proof.
  induction l as [|y l IH]; cbn; constructor.
  - rewrite elem_of_filter_bool, negb_true_iff, String.eqb_neq. tauto.
  - by apply NoDup_filter_bool.
Qed.

Lemma h1_anova_cases (t : DataFrame) :
  let groups := unique (age_group <$> t) in
  ((length groups ≤ 1)%nat → h1_anova t = (PInt 0, PInt 1))
  ∧ ((1 < length groups)%nat →
       h1_anova t = (PFloat (f_oneway (groups_data t groups)).1,
                     PFloat (f_oneway (groups_data t groups)).2)).
Proof.
  intros groups. unfold h1_anova. fold groups.
  destruct (Nat.ltb_spec 1 (length groups)); split; intros; try lia; try done.
  by destruct (f_oneway _).
Qed.

(** The verdict of hypothesis 1 is an expression of the Pearson result
    alone, whatever the other tests return. *)
Lemma analyze_hypothesis1_result (S' : SciPy) (df : DataFrame) (filters : FilterRequest) :
  let t := apply_filters df filters in
  let pearson := @pearsonr S' (age <$> t) (english_level_numeric <$> t) in
  (10 ≤ length t)%nat →
  ∃ r, @analyze_hypothesis1 pandas S' df filters = Ok r
       ∧ result r =
           if num_lt pearson.2 lit_0_05 && num_lt pearson.1 (of_int 0) then REJECTED
           else if num_lt pearson.2 lit_0_05 && num_gt pearson.1 (of_int 0) then ACCEPTED
           else INCONCLUSIVE.
Proof.
  intros t pearson Hlen. subst pearson. unfold analyze_hypothesis1. fold t.
  destruct (Nat.ltb_spec (length t) 10); [lia|].
  destruct (pearsonr _ _) as [corr_pearson p_pearson].
  destruct (spearmanr _ _) as [corr_spearman p_spearman].
  destruct (h1_anova t) as [f_stat p_anova].
  eexists. split; reflexivity.
Qed.

(** The rows of the groups [g :: gs] are those of [g] and those of [gs]. *)
Lemma group_rows_split (t : DataFrame) (g : string) (gs : list string) :
  g ∉ gs →
  List.filter (λ r, bool_decide (age_group r ∈ g :: gs)) t
  ≡ₚ List.filter (λ r, String.eqb (age_group r) g) t
     ++ List.filter (λ r, bool_decide (age_group r ∈ gs)) t.
Proof.
  intros Hg. induction t as [|r t IH]; cbn [List.filter]; [done|].
  destruct (String.eqb_spec (age_group r) g) as [Heq|Hne].
  - rewrite bool_decide_eq_true_2 by (rewrite Heq; left).
    rewrite (bool_decide_eq_false_2 (age_group r ∈ gs)) by (by rewrite Heq).
    cbn. by rewrite IH.
  - destruct (decide (age_group r ∈ gs)) as [Hin|Hnin].
    + rewrite !bool_decide_eq_true_2 by (done || by right).
      rewrite IH. apply Permutation_middle.
    + rewrite !bool_decide_eq_false_2; [done|done|].
      rewrite elem_of_cons. tauto.
Qed.

(** The samples of distinct groups, put together, are the ranks of the rows
    of these groups. *)
Lemma groups_data_concat (t : DataFrame) (gs : list string) :
  NoDup gs →
  concat (groups_data t gs)
  ≡ₚ english_level_numeric <$> List.filter (λ r, bool_decide (age_group r ∈ gs)) t.
Proof.
  induction 1 as [|g gs Hg _ IH].
  - cbn. rewrite filter_bool_none; [done|].
    intros r. apply bool_decide_eq_false_2. apply not_elem_of_nil.
  - unfold groups_data in *. rewrite fmap_cons. cbn [concat].
    rewrite IH, (group_rows_split t g gs Hg), fmap_app. done.
Qed.

(** C7.  With at least 10 filtered rows, hypothesis 1 reports the ANOVA
    F-statistic 0 and p-value 1 when the rows show exactly one distinct age
    group, and the statistic and p-value of [f_oneway] over the samples of
    the distinct age groups when they show more than one.  These samples
    are the age group partition of the rows: one sample per distinct age
    group, in order of first appearance; the sample of a group holds the
    ranks of the rows of that group, in table order, and is not empty; put
    together the samples are the ranks of all rows.  The verdict follows the
    rule on the Pearson p-value and the sign of the Pearson coefficient in
    both cases, and is the same under any implementation of the other
    tests. *)
Theorem h1_single_age_group_anova_neutral (df : DataFrame) (filters : FilterRequest) :
  let t := apply_filters df filters in
  let groups := unique (age_group <$> t) in
  let samples := groups_data t groups in
  let pearson := pearsonr (age <$> t) (english_level_numeric <$> t) in
  (10 ≤ length t)%nat →
  ∃ r, analyze_hypothesis1 df filters = Ok r
       ∧ (length groups = 1%nat →
            dict_lookup (statistics r) "anova_f_stat" = Some (PInt 0)
            ∧ dict_lookup (statistics r) "anova_p_value" = Some (PInt 1))
       ∧ ((1 < length groups)%nat →
            dict_lookup (statistics r) "anova_f_stat"
            = Some (PFloat (f_oneway samples).1)
            ∧ dict_lookup (statistics r) "anova_p_value"
              = Some (PFloat (f_oneway samples).2))
       ∧ (NoDup groups ∧ ∀ row, row ∈ t → age_group row ∈ groups)
       ∧ (length samples = length groups
          ∧ (∀ i g, groups !! i = Some g →
               ∃ rows, samples !! i = Some (english_level_numeric <$> rows)
                       ∧ rows ≠ []
                       ∧ sublist rows t
                       ∧ ∀ row, row ∈ rows ↔ row ∈ t ∧ age_group row = g)
          ∧ concat samples ≡ₚ english_level_numeric <$> t)
       ∧ correlation_verdict_rule (result r) pearson.2 pearson.1
       ∧ (∀ S' : SciPy,
            @pearsonr S' (age <$> t) (english_level_numeric <$> t) = pearson →
            ∃ r', @analyze_hypothesis1 pandas S' df filters = Ok r'
                  ∧ result r' = result r).
Proof.
  intros t groups samples pearson Hlen.
  destruct (analyze_hypothesis1_Ok df filters Hlen)
    as (r & Hr & _ & _ & Hf & Hp & Hrule).
  destruct (h1_anova_cases t) as [Hone Hmany]. fold t in Hf, Hp. fold groups in Hone, Hmany.
  assert (∀ row, row ∈ t → age_group row ∈ groups) as Hcover.
  { intros row Hrow. apply elem_of_unique. by apply list_elem_of_fmap_2. }
  exists r. split; [done|]. split; [|split; [|split; [|split; [|split]]]].
  - intros Hg. rewrite Hone in Hf, Hp by lia. by split.
  - intros Hg. rewrite Hmany in Hf, Hp by lia. by split.
  - split; [apply NoDup_unique|exact Hcover].
  - subst samples. split; [|split].
    + unfold groups_data. apply length_fmap.
    + intros i g Hi.
      exists (List.filter (λ row, String.eqb (age_group row) g) t).
      split; [|split; [|split]].
      * unfold groups_data. by rewrite list_lookup_fmap, Hi.
      * apply list_elem_of_lookup_2, elem_of_unique, list_elem_of_fmap in Hi
          as (row & -> & Hrow).
        intros Hnil.
        assert (row ∈ List.filter (λ row', String.eqb (age_group row') (age_group row)) t)
          as Hin.
        { apply elem_of_filter_bool. split; [done|apply String.eqb_refl]. }
        rewrite Hnil in Hin. by apply elem_of_nil in Hin.
      * apply filter_bool_sublist.
      * intros row. by rewrite elem_of_filter_bool, String.eqb_eq.
    + rewrite groups_data_concat by apply NoDup_unique.
      rewrite filter_bool_all_on; [done|].
      intros row Hrow. apply bool_decide_eq_true_2. by apply Hcover.
  - exact Hrule.
  - intros S' HS'.
    destruct (analyze_hypothesis1_result S' df filters Hlen) as (r' & Hr' & Hres').
    destruct (analyze_hypothesis1_result scipy df filters Hlen) as (r0 & Hr0 & Hres0).
    rewrite Hr in Hr0. injection Hr0 as <-.
    exists r'. split; [done|]. fold t in Hres', Hres0. rewrite Hres', Hres0.
    fold t in HS'. by rewrite HS'.
Qed.

(** *** Ingestion stager *)

Import Stager.

Lemma append_cons (c : ascii) (s t : string) : String c s ++ t = String c (s ++ t).
Proof. reflexivity. Qed.

Lemma append_nil (t : string) : "" ++ t = t.
Proof. reflexivity. Qed.

Lemma str_append_assoc (s t u : string) : (s ++ t) ++ u = s ++ t ++ u.
Proof.
  induction s as [|c s IH]; [done|]. by rewrite !append_cons, IH.
Qed.

Lemma str_split_app (a rest : string) :
  str_split "/" a = [a] → str_split "/" (a ++ "/" ++ rest) = a :: str_split "/" rest.
Proof.
  induction a as [|c a IH]; intros Ha.
  - reflexivity.
  - rewrite append_cons. cbn [str_split] in *.
    destruct (Ascii.eqb c "/"); [done|].
    destruct (str_split "/" a) as [|part parts] eqn:Hsplit; [|injection Ha as -> ->].
    + destruct a; cbn in Hsplit; [done|]. repeat case_match; done.
    + by rewrite IH.
Qed.

Lemma str_split_prefixed (pre a rest : string) :
  str_split "/" pre = [pre] → str_split "/" a = [a] →
  str_split "/" ((pre ++ a) ++ "/" ++ rest) = (pre ++ a) :: str_split "/" rest.
Proof.
  intros Hpre Ha. apply str_split_app.
  clear rest. induction pre as [|c pre IH]; [done|].
  rewrite append_cons. cbn [str_split] in *.
  destruct (Ascii.eqb c "/"); [done|].
  destruct (str_split "/" pre) as [|part parts] eqn:Hsplit; [|injection Hpre as -> ->].
  - destruct pre; cbn in Hsplit; [done|]. repeat case_match; done.
  - by rewrite IH.
Qed.

Lemma str_split_length (s : string) : (1 ≤ length (str_split "/" s))%nat.
Proof.
  induction s as [|c s IH]; cbn [str_split]; [cbn; lia|].
  destruct (Ascii.eqb c "/"); [cbn; lia|].
  destruct (str_split "/" s); cbn in *; lia.
Qed.

(** A string with a single slash-separated part, character by character. *)
Lemma no_slash_cons (c : ascii) (a : string) :
  str_split "/" (String c a) = [String c a] ↔ c ≠ "/"%char ∧ str_split "/" a = [a].
Proof.
  cbn [str_split]. destruct (Ascii.eqb_spec c "/") as [->|Hc].
  - split; [discriminate|]. by intros [? _].
  - pose proof (str_split_length a) as Hlen.
    destruct (str_split "/" a) as [|part parts]; [cbn in Hlen; lia|].
    split.
    + intros [= -> ->]. done.
    + intros [_ [= -> ->]]. done.
Qed.

Lemma no_slash_snoc (a : string) (c : ascii) :
  str_split "/" a = [a] → c ≠ "/"%char →
  str_split "/" (a ++ String c "") = [a ++ String c ""].
Proof.
  intros Ha Hc. induction a as [|c' a IH].
  - rewrite append_nil. by apply no_slash_cons.
  - rewrite append_cons. apply no_slash_cons in Ha as [Hc' Ha].
    apply no_slash_cons. split; [done|by apply IH].
Qed.

(** A base name holds no slash. *)
Lemma basename_no_slash (p : string) :
  str_split "/" (basename p) = [basename p].
Proof.
  unfold basename. assert (str_split "/" "" = [""]) as Hacc by done.
  revert Hacc. generalize "". induction p as [|c p IH]; intros acc Hacc; [done|].
  cbn [basename_from]. destruct (Ascii.eqb_spec c "/") as [->|Hc].
  - by apply IH.
  - apply IH. by apply no_slash_snoc.
Qed.

(** The parts of a key whose date parts, level and participant directory
    hold no slash. *)
Lemma s3_key_parts (f : FileInfo) :
  str_split "/" (substring 0 4 (date f)) = [substring 0 4 (date f)] →
  str_split "/" (substring 4 2 (date f)) = [substring 4 2 (date f)] →
  str_split "/" (substring 6 2 (date f)) = [substring 6 2 (date f)] →
  str_split "/" (level f) = [level f] →
  str_split "/" (participant f) = [participant f] →
  str_split "/" (s3_key f)
  = ["raw"; "year=" ++ substring 0 4 (date f); "month=" ++ substring 4 2 (date f);
     "day=" ++ substring 6 2 (date f); "level=" ++ level f; participant f;
     basename (file_path f)].
Proof.
  intros Hy Hm Hd Hl Hp.
  set (y := substring 0 4 (date f)) in *. set (m := substring 4 2 (date f)) in *.
  set (d := substring 6 2 (date f)) in *.
  set (name := basename (file_path f)) in *.
  assert (s3_key f
          = "raw" ++ "/" ++ ("year=" ++ y) ++ "/" ++ ("month=" ++ m) ++ "/"
            ++ ("day=" ++ d) ++ "/" ++ ("level=" ++ level f) ++ "/"
            ++ participant f ++ "/" ++ name) as ->.
  { unfold s3_key, s3_key_of. fold y m d name.
    rewrite !str_append_assoc. reflexivity. }
  rewrite (str_split_app "raw") by done.
  rewrite !str_split_prefixed by done. rewrite str_split_app by done.
  subst name. by rewrite basename_no_slash.
Qed.

(** The bucket after the loop, key by key: an object that was stored stays,
    and a free key holds the first file of the list that is staged under it,
    has a valid date and whose upload does not raise. *)
Lemma upload_fold_lookup (upload_raises : FileInfo → bool) (files : list FileInfo)
    (bucket : gmap string string) (n : nat) (k : string) :
  (fold_left (upload_step upload_raises) files (bucket, n)).1 !! k
  = match bucket !! k with
    | Some v => Some v
    | None =>
        file_path <$>
          List.find (λ f, is_valid_yyyymmdd (date f) && negb (upload_raises f)
                          && String.eqb (s3_key f) k) files
    end.
Proof.
  revert bucket n. induction files as [|f files IH]; intros bucket n; cbn [fold_left].
  { cbn. by destruct (bucket !! k). }
  cbn [List.find].
  assert ((upload_step upload_raises (bucket, n) f = (bucket, n)
           ∧ (is_valid_yyyymmdd (date f) && negb (upload_raises f) = false
              ∨ is_Some (bucket !! s3_key f)))
          ∨ (is_valid_yyyymmdd (date f) && negb (upload_raises f) = true
             ∧ bucket !! s3_key f = None
             ∧ upload_step upload_raises (bucket, n) f
               = (<[s3_key f := file_path f]> bucket, S n))) as [[Hstep Hwhy]|Hstep].
  { unfold upload_step. destruct (is_valid_yyyymmdd (date f)); cbn [negb andb];
      [|left; split; [done|by left]].
    destruct (bucket !! s3_key f) as [v|] eqn:Hk; [left; split; [done|right; by eexists]|].
    destruct (upload_raises f); [left; split; [done|by left]|by right]. }
  - rewrite Hstep, IH. destruct (bucket !! k) as [v|] eqn:Hk; [done|].
    destruct Hwhy as [->|[v Hv]]; [done|].
    destruct (String.eqb_spec (s3_key f) k) as [<-|_]; [congruence|].
    by rewrite andb_false_r.
  - destruct Hstep as (Hok & Hfree & ->). rewrite IH, Hok. cbn [andb].
    destruct (String.eqb_spec (s3_key f) k) as [<-|Hne].
    + by rewrite lookup_insert_eq, Hfree.
    + by rewrite lookup_insert_ne.
Qed.

Lemma upload_to_s3_fold (upload_raises : FileInfo → bool)
    (files : list FileInfo) (bucket : gmap string string) :
  upload_to_s3 upload_raises files bucket
  = fold_left (upload_step upload_raises) files (bucket, 0%nat).
Proof. by destruct files. Qed.

(** One iteration never touches an object that is already stored, and
    counts exactly the objects it adds. *)
Lemma upload_step_spec (upload_raises : FileInfo → bool)
    (bucket : gmap string string) (n : nat) (f : FileInfo) :
  let st := upload_step upload_raises (bucket, n) f in
  (∀ k v, bucket !! k = Some v → st.1 !! k = Some v)
  ∧ (size st.1 + n = size bucket + st.2)%nat
  ∧ (is_valid_yyyymmdd (date f) = true → upload_raises f = false →
       is_Some (st.1 !! s3_key f)).
Proof.
  unfold upload_step.
  destruct (is_valid_yyyymmdd (date f)); cbn [negb]; [|by repeat split].
  destruct (bucket !! s3_key f) as [v0|] eqn:Hk.
  { repeat split; [done|]. intros _ _. cbn. by rewrite Hk. }
  destruct (upload_raises f); [by repeat split|]. cbn [fst snd].
  repeat split.
  - intros k v Hkv. rewrite lookup_insert_ne; [done|]. congruence.
  - rewrite map_size_insert_None by done. lia.
  - intros _ _. rewrite lookup_insert_eq. by eexists.
Qed.

Lemma upload_fold_spec (upload_raises : FileInfo → bool) (files : list FileInfo)
    (bucket : gmap string string) (n : nat) :
  let st := fold_left (upload_step upload_raises) files (bucket, n) in
  (∀ k v, bucket !! k = Some v → st.1 !! k = Some v)
  ∧ (size st.1 + n = size bucket + st.2)%nat
  ∧ ((∀ f, f ∈ files → upload_raises f = false) →
     ∀ f, f ∈ files → is_valid_yyyymmdd (date f) = true → is_Some (st.1 !! s3_key f)).
Proof.
  revert bucket n. induction files as [|f files IH]; intros bucket n; cbn [fold_left].
  { repeat split; [done|]. intros _ f Hf. by apply elem_of_nil in Hf. }
  destruct (upload_step_spec upload_raises bucket n f) as (Hkeep & Hsize & Hin).
  destruct (upload_step upload_raises (bucket, n) f) as [bucket1 n1] eqn:Hstep.
  cbn [fst snd] in Hkeep, Hsize, Hin.
  destruct (IH bucket1 n1) as (Hkeep' & Hsize' & Hin').
  repeat split.
  - intros k v Hkv. by apply Hkeep', Hkeep.
  - lia.
  - intros Hok g Hg Hvalid. apply elem_of_cons in Hg as [->|Hg].
    + destruct Hin as [v Hv]; [done|apply Hok; left|].
      exists v. by apply Hkeep'.
    + apply Hin'; [|done..]. intros g' Hg'. apply Hok. by right.
Qed.

(** When every valid file of the list is already stored, the loop changes
    nothing and counts nothing. *)
Lemma upload_fold_noop (upload_raises : FileInfo → bool) (files : list FileInfo)
    (bucket : gmap string string) (n : nat) :
  (∀ f, f ∈ files → is_valid_yyyymmdd (date f) = true → is_Some (bucket !! s3_key f)) →
  fold_left (upload_step upload_raises) files (bucket, n) = (bucket, n).
Proof.
  induction files as [|f files IH]; intros Hall; cbn [fold_left]; [done|].
  assert (upload_step upload_raises (bucket, n) f = (bucket, n)) as ->.
  { unfold upload_step.
    destruct (is_valid_yyyymmdd (date f)) eqn:Hvalid; cbn [negb]; [|done].
    destruct (Hall f) as [v ->]; [left|done|done]. }
  apply IH. intros g Hg. apply Hall. by right.
Qed.

(** C8.  The storage key of a file is
    [raw/year=Y/month=M/day=D/level=L/P/N], with [Y], [M], [D] the digits 1
    to 4, 5 to 6 and 7 to 8 of its date, [L] its level, [P] its participant
    directory and [N] the base name of its path: a function of these six,
    and one that tells them apart when none of them holds a slash.  A
    staging run leaves every object that was already stored untouched and,
    for every file of the list, uploads under the file's key exactly when
    the key is free: afterwards a key that was free holds the first file
    staged under it that has a valid date and whose upload went through, so
    every such file has its object, and the run reports exactly the number
    of objects it added.  Staging the same files again after a run whose
    uploads all went through changes nothing in the bucket and reports 0;
    for a single file with a free key, the first run stores one object and
    reports 1, the second stores none and reports 0. *)
Theorem staging_skips_existing_objects
    (upload_raises upload_raises' : FileInfo → bool)
    (files : list FileInfo) (bucket : gmap string string) :
  let first := upload_to_s3 upload_raises files bucket in
  let second := upload_to_s3 upload_raises' files first.1 in
  let no_slash (s : string) := str_split "/" s = [s] in
  let plain (f : FileInfo) :=
    no_slash (substring 0 4 (date f)) ∧ no_slash (substring 4 2 (date f))
    ∧ no_slash (substring 6 2 (date f)) ∧ no_slash (level f)
    ∧ no_slash (participant f) in
  (∀ f, s3_key f
        = "raw/year=" ++ substring 0 4 (date f) ++ "/month=" ++ substring 4 2 (date f)
          ++ "/day=" ++ substring 6 2 (date f) ++ "/level=" ++ level f
          ++ "/" ++ participant f ++ "/" ++ basename (file_path f))
  ∧ (∀ f g, substring 0 4 (date f) = substring 0 4 (date g) →
            substring 4 2 (date f) = substring 4 2 (date g) →
            substring 6 2 (date f) = substring 6 2 (date g) →
            level f = level g → participant f = participant g →
            basename (file_path f) = basename (file_path g) →
            s3_key f = s3_key g)
  ∧ (∀ f g, plain f → plain g → s3_key f = s3_key g →
            substring 0 4 (date f) = substring 0 4 (date g)
            ∧ substring 4 2 (date f) = substring 4 2 (date g)
            ∧ substring 6 2 (date f) = substring 6 2 (date g)
            ∧ level f = level g ∧ participant f = participant g
            ∧ basename (file_path f) = basename (file_path g))
  ∧ (∀ k v, bucket !! k = Some v → first.1 !! k = Some v)
  ∧ (∀ k, bucket !! k = None →
          first.1 !! k
          = file_path <$>
              List.find (λ f, is_valid_yyyymmdd (date f) && negb (upload_raises f)
                              && String.eqb (s3_key f) k) files)
  ∧ (∀ f, f ∈ files → is_valid_yyyymmdd (date f) = true → upload_raises f = false →
          is_Some (first.1 !! s3_key f))
  ∧ size first.1 = (size bucket + first.2)%nat
  ∧ ((∀ f, f ∈ files → upload_raises f = false) → second = (first.1, 0%nat))
  ∧ (∀ f, is_valid_yyyymmdd (date f) = true → bucket !! s3_key f = None →
          upload_raises f = false →
          let stored := <[s3_key f := file_path f]> bucket in
          upload_to_s3 upload_raises [f] bucket = (stored, 1%nat)
          ∧ upload_to_s3 upload_raises' [f] stored = (stored, 0%nat)
          ∧ size stored = S (size bucket)).
Proof.
  intros first second no_slash plain. subst first second. rewrite !upload_to_s3_fold.
  destruct (upload_fold_spec upload_raises files bucket 0) as (Hkeep & Hsize & Hin).
  split; [|split; [|split; [|split; [|split; [|split; [|split; [|split]]]]]]].
  - intros f. reflexivity.
  - intros f g Hy Hm Hd Hl Hp Hn. unfold s3_key. by rewrite Hy, Hm, Hd, Hl, Hp, Hn.
  - intros f g (Hfy & Hfm & Hfd & Hfl & Hfp) (Hgy & Hgm & Hgd & Hgl & Hgp) Hkey.
    pose proof (s3_key_parts f Hfy Hfm Hfd Hfl Hfp) as Hf.
    pose proof (s3_key_parts g Hgy Hgm Hgd Hgl Hgp) as Hg.
    rewrite Hkey, Hg in Hf. injection Hf as Hy Hm Hd Hl Hp Hn.
    repeat split; try done.
    all: first [by apply (inj (String.app "year=")) | by apply (inj (String.app "month="))
               | by apply (inj (String.app "day=")) | by apply (inj (String.app "level="))].
  - exact Hkeep.
  - intros k Hfree. by rewrite upload_fold_lookup, Hfree.
  - intros f Hf Hvalid Hok.
    destruct (bucket !! s3_key f) as [v|] eqn:Hk.
    + exists v. by apply Hkeep.
    + rewrite upload_fold_lookup, Hk.
      destruct (List.find _ files) as [g|] eqn:Hfind; [by eexists|].
      exfalso. apply list_elem_of_In in Hf.
      apply (List.find_none _ _ Hfind) in Hf.
      by rewrite Hvalid, Hok, String.eqb_refl in Hf.
  - rewrite Nat.add_0_r in Hsize. exact Hsize.
  - intros Hok. apply upload_fold_noop. intros f Hf Hvalid. by apply Hin.
  - intros f Hvalid Hfree Hok stored. subst stored. rewrite !upload_to_s3_fold.
    cbn [fold_left]. unfold upload_step. rewrite Hvalid, Hfree, Hok. cbn [negb].
    rewrite lookup_insert_eq. repeat split.
    by apply map_size_insert_None.
Qed.

End Properties.

(** * Further properties of the code *)

From Stdlib Require Import Lqa.

Section Coverage.
Context {builtins : Builtins} {pandas : Pandas} {scipy : SciPy}.

(** *** Representative files *)

Lemma setdefault_append_lookup (d : list (string * list string)) (pid key p : string) :
  dict_lookup (setdefault_append d pid key) p
  = if String.eqb pid p then Some (default [] (dict_lookup d pid) ++ [key])%list
    else dict_lookup d p.
Proof.
  induction d as [|[q files] d IH]; cbn.
  - by destruct (String.eqb pid p).
  - destruct (String.eqb_spec q pid) as [->|Hq]; cbn.
    + by destruct (String.eqb pid p).
    + rewrite IH. destruct (String.eqb_spec pid p) as [->|Hp]; [|done].
      destruct (String.eqb_spec q p); [congruence|done].
Qed.

Lemma setdefault_append_keys (d : list (string * list string)) (pid key : string) :
  NoDup d.*1 → NoDup (setdefault_append d pid key).*1
  ∧ ∀ p, p ∈ (setdefault_append d pid key).*1 ↔ p = pid ∨ p ∈ d.*1.
Proof.
  induction d as [|[q files] d IH]; cbn; intros Hnd.
  - split; [apply NoDup_singleton|]. intros p. set_unfold. tauto.
  - apply NoDup_cons in Hnd as [Hq Hnd]. destruct (IH Hnd) as [IHnd IHin].
    destruct (String.eqb_spec q pid) as [->|Hne]; cbn.
    + split; [by apply NoDup_cons|]. intros p. rewrite elem_of_cons. tauto.
    + split.
      * apply NoDup_cons. split; [|done]. rewrite IHin. intros [?|?]; congruence.
      * intros p. rewrite !elem_of_cons, IHin. tauto.
Qed.

Lemma setdefault_append_nonempty (d : list (string * list string)) (pid key : string) :
  Forall (λ pf, pf.2 ≠ []) d → Forall (λ pf, pf.2 ≠ []) (setdefault_append d pid key).
Proof.
  induction 1 as [|[q files] d Hq Hd IH]; cbn.
  - by repeat constructor.
  - destruct (String.eqb q pid); constructor; cbn in *; try done.
    by destruct files.
Qed.

Lemma participant_files_fold (listing : list string) (d : list (string * list string)) :
  let d' := fold_left (λ d key, match participant_of key with
                                | Some participant_id => setdefault_append d participant_id key
                                | None => d
                                end) listing d in
  (NoDup d.*1 → NoDup d'.*1)
  ∧ (Forall (λ pf, pf.2 ≠ []) d → Forall (λ pf, pf.2 ≠ []) d')
  ∧ ∀ p, dict_lookup d' p
         = match dict_lookup d p, keys_of p listing with
           | None, [] => None
           | o, keys => Some (default [] o ++ keys)%list
           end.
Proof.
  revert d. induction listing as [|key listing IH]; intros d; cbn [fold_left].
  - repeat split; [done..|]. intros p. cbn.
    destruct (dict_lookup d p); cbn; by rewrite ?app_nil_r.
  - destruct (participant_of key) as [pid|] eqn:Hkey.
    + destruct (IH (setdefault_append d pid key)) as (Hnd & Hne & Hlook).
      split; [|split].
      * intros Hd. by apply Hnd, setdefault_append_keys.
      * intros Hd. by apply Hne, setdefault_append_nonempty.
      * intros p. rewrite Hlook, setdefault_append_lookup. unfold keys_of. cbn.
        destruct (String.eqb_spec pid p) as [->|Hp].
        -- rewrite bool_decide_eq_true_2 by done.
           rewrite <- app_assoc. cbn. by destruct (dict_lookup d p).
        -- rewrite bool_decide_eq_false_2 by congruence. done.
    + destruct (IH d) as (Hnd & Hne & Hlook). split; [done|]. split; [done|].
      intros p. rewrite Hlook. unfold keys_of. cbn.
      by rewrite bool_decide_eq_false_2 by congruence.
Qed.

Lemma find_head_filter {A} (f : A → bool) (l : list A) :
  List.find f l = head (List.filter f l).
Proof. induction l as [|x l IH]; cbn; [done|]. by destruct (f x). Qed.

Lemma representative_lookup (d : list (string * list string)) (p : string) :
  Forall (λ pf, pf.2 ≠ []) d →
  dict_lookup (omap (λ pf : string * list string,
                       match pf.2 with
                       | first :: _ => Some (pf.1, first)
                       | [] => None
                       end) d) p
  = dict_lookup d p ≫= head.
Proof.
  induction 1 as [|[q files] d Hq _ IH]; cbn; [done|].
  destruct files as [|first files]; [done|]. cbn.
  destruct (String.eqb q p); [done|apply IH].
Qed.

Lemma representative_keys (d : list (string * list string)) :
  Forall (λ pf, pf.2 ≠ []) d →
  (omap (λ pf : string * list string,
           match pf.2 with
           | first :: _ => Some (pf.1, first)
           | [] => None
           end) d).*1 = d.*1.
Proof.
  induction 1 as [|[q files] d Hq _ IH]; cbn; [done|].
  destruct files as [|first files]; [done|]. cbn. by rewrite IH.
Qed.

(** With a client the listing returns: one entry per participant that has
    an eligible key, holding the first of the participant's keys. *)
Lemma representative_files_spec (listing : list string) :
  ∃ reps, get_participant_representative_files true listing = Ok reps
          ∧ NoDup reps.*1
          ∧ ∀ pid, dict_lookup reps pid
                   = List.find (λ key, bool_decide (participant_of key = Some pid)) listing.
Proof.
  unfold get_participant_representative_files. cbn [negb].
  eexists. split; [done|].
  destruct (participant_files_fold listing []) as (Hnd & Hne & Hlook).
  fold (participant_files_of listing) in Hnd, Hne, Hlook.
  specialize (Hnd (NoDup_nil_2)). specialize (Hne (Forall_nil_2 _)).
  split.
  - by rewrite representative_keys.
  - intros pid. rewrite representative_lookup, Hlook, find_head_filter by done.
    cbn. fold (keys_of pid listing). by destruct (keys_of pid listing).
Qed.

(** X1.  Without a client the listing fails with HTTP 500.  With one, every
    participant that has an eligible key (ending in [.json], six path parts
    or more) gets exactly one representative, and it is the first of the
    participant's keys in listing order; no other participant appears. *)
Theorem representative_is_first_listed_key (listing : list string) :
  get_participant_representative_files false listing
  = Raise (HTTPException 500 "S3 클라이언트가 초기화되지 않았습니다.")
  ∧ ∃ reps, get_participant_representative_files true listing = Ok reps
            ∧ NoDup reps.*1
            ∧ ∀ pid, dict_lookup reps pid
                     = List.find (λ key, bool_decide (participant_of key = Some pid)) listing.
Proof. split; [done|apply representative_files_spec]. Qed.

(** *** Metropolitan flag *)

Lemma prefix_app (s1 s2 : string) :
  String.prefix s1 s2 = true ↔ ∃ t, s2 = s1 ++ t.
Proof.
  revert s2. induction s1 as [|c s1 IH]; intros s2.
  - split; [intros _; by exists s2|]. intros _. by destruct s2.
  - destruct s2 as [|c' s2]; cbn.
    + split; [done|]. intros [t Ht]. by rewrite append_cons in Ht.
    + destruct (Ascii.ascii_dec c c') as [->|Hc].
      * rewrite IH. split; intros [t Ht]; exists t; rewrite append_cons in *; congruence.
      * split; [done|]. intros [t Ht]. rewrite append_cons in Ht. congruence.
Qed.

Lemma str_contains_spec (needle hay : string) :
  str_contains needle hay = true ↔ ∃ pre post, hay = pre ++ needle ++ post.
Proof.
  split.
  - induction hay as [|c hay IH]; cbn [str_contains]; rewrite orb_true_iff.
    + intros [Hp|?]; [|done]. apply prefix_app in Hp as [t Ht]. by exists "", t.
    + intros [Hp|Hc].
      * apply prefix_app in Hp as [t Ht]. by exists "", t.
      * destruct (IH Hc) as (pre & post & ->). by exists (String c pre), post.
  - intros (pre & post & ->). induction pre as [|c pre IH].
    + rewrite append_nil. destruct (needle ++ post) eqn:Heq; cbn [str_contains];
        rewrite orb_true_iff; left; apply prefix_app; exists post; by rewrite Heq.
    + rewrite append_cons. cbn [str_contains]. rewrite orb_true_iff. by right.
Qed.

(** X2.  A location is metropolitan exactly when it is a string in which
    서울 or 경기 occurs somewhere; a value that is not a string never is. *)
Theorem classify_metropolitan_substring (location : pyval) :
  classify_metropolitan location = true
  ↔ ∃ pre post, location = PStr (pre ++ "서울" ++ post)
                ∨ location = PStr (pre ++ "경기" ++ post).
Proof.
  destruct location as [| | | |s| |]; cbn;
    try (split; [done|]; intros (pre & post & [?|?]); done).
  rewrite orb_false_r, orb_true_iff, !str_contains_spec. split.
  - intros [(pre & post & ->)|(pre & post & ->)]; exists pre, post; auto.
  - intros (pre & post & [[= ->]|[= ->]]); [left|right]; by exists pre, post.
Qed.

(** *** Dataset builder *)

Lemma create_age_groups_label (x : num) (g : string) :
  create_age_groups x = Ok g →
  (x = NaN ∧ g = "미상") ∨ ((∃ q, x = Num q) ∧ g ∈ AGE_GROUP_LABELS).
Proof.
  destruct x as [q| |b]; cbn; [|intros [= <-]; by left|discriminate].
  intros Hg. right. split; [by eexists|].
  unfold AGE_GROUP_LABELS. repeat case_match; injection Hg as <-; set_solver.
Qed.

Lemma built_row_invariant (loaded : list (option pyval)) (t : DataFrame) (r : Row) :
  load_all_participant_data loaded = Ok t → r ∈ t →
  (∃ q, age r = Num q)
  ∧ age_group r ∈ AGE_GROUP_LABELS
  ∧ create_age_groups (age r) = Ok (age_group r)
  ∧ map_level (english_level r) = Ok (english_level_numeric r)
  ∧ is_metropolitan r = classify_metropolitan (location r)
  ∧ english_speaking_experience r = extract_english_experience (interview r).
Proof.
  intros Hload Hr. apply preprocess_dataframe_Ok in Hload as (_ & rows & Hrows & ->).
  apply elem_of_filter_bool in Hr as [Hr Hna]. apply negb_true_iff in Hna.
  destruct (Forall2_elem_of_r _ _ _ _ Hrows Hr) as (e & _ & Hlevel & Hgroup & Heq).
  assert (age r = to_numeric (x_age e)) as Hage by (by rewrite Heq).
  rewrite <- Hage in Hgroup.
  destruct (create_age_groups_label _ _ Hgroup) as [[Hnan _]|[Hq Hlabel]].
  { unfold has_na in Hna. rewrite Hnan in Hna. discriminate. }
  split; [done|]. split; [done|]. split; [done|].
  rewrite Heq. by repeat split.
Qed.

(** X3.  In a built table every row has a finite age, one of the five age
    group labels (never the sentinel) that is the group of its own age, the
    rank of its own level, and the two flags computed from its own location
    and interview block. *)
Theorem built_rows_carry_their_own_derived_columns
    (loaded : list (option pyval)) (t : DataFrame) (r : Row) :
  load_all_participant_data loaded = Ok t → r ∈ t →
  (∃ q, age r = Num q)
  ∧ age_group r ∈ AGE_GROUP_LABELS
  ∧ create_age_groups (age r) = Ok (age_group r)
  ∧ map_level (english_level r) = Ok (english_level_numeric r)
  ∧ is_metropolitan r = classify_metropolitan (location r)
  ∧ english_speaking_experience r = extract_english_experience (interview r).
Proof. apply built_row_invariant. Qed.

Lemma omap_length_le {A B} (f : A → option B) (l : list A) :
  (length (omap f l) ≤ length l)%nat.
Proof. induction l as [|x l IH]; cbn; [done|]. destruct (f x); cbn; lia. Qed.

(** X4.  The table lists its rows in the order of the objects they were
    extracted from, and never has more rows than objects were fetched. *)
Theorem built_table_follows_listing_order
    (loaded : list (option pyval)) (t : DataFrame) :
  load_all_participant_data loaded = Ok t →
  sublist (participant_id <$> t) (x_participant_id <$> collect_rows loaded)
  ∧ (length t ≤ length (collect_rows loaded) ≤ length loaded)%nat.
Proof.
  intros Hload. apply preprocess_dataframe_Ok in Hload as (_ & rows & Hrows & ->).
  assert (participant_id <$> rows = x_participant_id <$> collect_rows loaded) as Hids.
  { induction Hrows as [|e r df rows' (_ & _ & Heq) _ IH]; cbn; [done|].
    rewrite IH. by rewrite Heq. }
  split.
  - rewrite <- Hids. apply fmap_sublist, filter_bool_sublist.
  - split.
    + rewrite (Forall2_length _ _ _ Hrows). apply sublist_length, filter_bool_sublist.
    + unfold collect_rows. apply omap_length_le.
Qed.

(** X5.  When no fetched object yields a row (an empty listing, failed
    fetches, rejected records), the build does not return an empty table: it
    raises [KeyError], because the frame has no [age] column. *)
Theorem build_without_rows_raises_KeyError (loaded : list (option pyval)) :
  (∀ d, Some d ∈ loaded → truthy d = true → extract_analysis_data d = None) →
  load_all_participant_data loaded = Raise KeyError.
Proof.
  intros Hnone. unfold load_all_participant_data.
  assert (collect_rows loaded = []) as ->; [|done].
  induction loaded as [|[d|] loaded IH]; cbn; [done| |].
  - destruct (truthy d) eqn:Hd.
    + rewrite (Hnone d) by (done || left). apply IH. intros d' Hd'. apply Hnone. by right.
    + apply IH. intros d' Hd'. apply Hnone. by right.
  - apply IH. intros d' Hd'. apply Hnone. by right.
Qed.

Lemma mapM_res_cons {A B} (f : A → res B) (x : A) (l : list A) :
  mapM f (x :: l) = y ← f x; k ← mapM f l; mret (y :: k).
Proof. reflexivity. Qed.

(** X6.  One record that passes the gate with an age that coerces to an
    infinity makes the whole build fail with an exception; it is
    [OverflowError] when every level of the corpus maps. *)
Theorem infinite_age_aborts_the_build
    (loaded : list (option pyval)) (d : pyval) (e : Extracted) (negative : bool) :
  Some d ∈ loaded → truthy d = true → extract_analysis_data d = Some e →
  to_numeric (x_age e) = Inf negative →
  (∃ ex, load_all_participant_data loaded = Raise ex)
  ∧ (Forall (λ e', ∃ n, map_level (x_english_level e') = Ok n) (collect_rows loaded) →
     load_all_participant_data loaded = Raise OverflowError).
Proof.
  intros Hd Htruthy Hextract Hinf.
  assert (e ∈ collect_rows loaded) as He.
  { unfold collect_rows. apply list_elem_of_omap. exists (Some d).
    split; [done|]. by rewrite Htruthy. }
  split.
  - destruct (load_all_participant_data loaded) as [t|ex] eqn:Hload; [|by eexists].
    apply preprocess_dataframe_Ok in Hload as (_ & rows & Hrows & _).
    apply list_elem_of_lookup in He as [i Hi].
    destruct (Forall2_lookup_l _ _ _ _ _ Hrows Hi) as (r & _ & _ & Hgroup & _).
    rewrite Hinf in Hgroup. discriminate.
  - intros Hlevels. unfold load_all_participant_data, preprocess_dataframe.
    destruct (collect_rows loaded) as [|e0 df0] eqn:Hdf; [by apply elem_of_nil in He|].
    rewrite <- Hdf in *. clear Hdf e0 df0.
    assert (∀ df, Forall (λ e', ∃ n, map_level (x_english_level e') = Ok n) df →
              mapM (λ ea : Extracted * num,
                      n ← map_level (x_english_level ea.1); mret (ea, n))
                   ((λ e, (e, to_numeric (x_age e))) <$> df)
              = Ok ((λ e, (e, to_numeric (x_age e),
                           match map_level (x_english_level e) with
                           | Ok n => n
                           | Raise _ => NaN
                           end)) <$> df)) as Hmap.
    { induction 1 as [|e' df [n Hn] _ IH]; [done|].
      rewrite !fmap_cons, mapM_res_cons. cbn [fst snd].
      rewrite Hn, res_bind_Ok, IH. reflexivity. }
    rewrite (Hmap _ Hlevels). cbn [mbind res_bind].
    assert (∀ df, e ∈ df → Forall (λ e', ∃ n, map_level (x_english_level e') = Ok n) df →
              ∀ f : Extracted * num * num → string → Row,
              mapM (λ ean : Extracted * num * num,
                      g ← create_age_groups ean.1.2; mret (f ean g))
                   ((λ e, (e, to_numeric (x_age e),
                           match map_level (x_english_level e) with
                           | Ok n => n
                           | Raise _ => NaN
                           end)) <$> df)
              = Raise OverflowError) as Hgroups.
    { clear -Hinf. intros df He Hok f. induction df as [|e' df IH]; [by apply elem_of_nil in He|].
      apply Forall_cons in Hok as [_ Hok].
      rewrite fmap_cons, mapM_res_cons. cbn [fst snd].
      apply elem_of_cons in He as [<-|He].
      - by rewrite Hinf.
      - destruct (create_age_groups (to_numeric (x_age e'))) as [g|ex] eqn:Hg.
        + rewrite res_bind_Ok, IH by done. reflexivity.
        + destruct (to_numeric (x_age e')) as [q| |b]; cbn in Hg;
            [repeat case_match; discriminate|discriminate|by injection Hg as <-]. }
    by rewrite (Hgroups _ He Hlevels (λ ean g, _)).
Qed.

(** X7.  After the loop, [all_rows] holds the extracted rows in order, and
    the logged success and failure counts add up to the number of
    representative files. *)
Theorem load_loop_accounts_for_every_file (loaded : list (option pyval)) :
  (load_loop loaded).1 = collect_rows loaded
  ∧ (length (load_loop loaded).1 + (load_loop loaded).2 = length loaded)%nat.
Proof.
  unfold load_loop.
  set (step := λ (st : list Extracted * nat) (data : option pyval), _).
  assert (∀ rows failed data,
            ∃ rows' failed',
              step (rows, failed) data = ((rows ++ rows')%list, failed')
              ∧ collect_rows [data] = rows'
              ∧ (length rows' + failed' = S failed)%nat) as Hstep.
  { intros rows failed [d|]; cbn.
    - destruct (truthy d); cbn; [destruct (extract_analysis_data d) as [row|]|].
      + exists [row], failed. by repeat split.
      + exists [], (S failed). by rewrite app_nil_r.
      + exists [], (S failed). by rewrite app_nil_r.
    - exists [], (S failed). by rewrite app_nil_r. }
  assert (∀ rows failed,
            (fold_left step loaded (rows, failed)).1 = (rows ++ collect_rows loaded)%list
            ∧ (length (fold_left step loaded (rows, failed)).1
               + (fold_left step loaded (rows, failed)).2
               = length rows + failed + length loaded)%nat) as Hgen.
  { induction loaded as [|data loaded IH]; intros rows failed; cbn [fold_left].
    - cbn. rewrite app_nil_r. split; [done|lia].
    - destruct (Hstep rows failed data) as (rows' & failed' & -> & Hrows' & Hcount).
      destruct (IH (rows ++ rows')%list failed') as [-> ->].
      assert (collect_rows (data :: loaded) = (rows' ++ collect_rows loaded)%list) as ->.
      { rewrite <- Hrows'. unfold collect_rows.
        change (data :: loaded) with ([data] ++ loaded)%list. apply omap_app. }
      rewrite <- app_assoc, length_app. split; [done|]. cbn [length]. lia. }
  destruct (Hgen [] 0%nat) as [H1 H2]. cbn in H1, H2. split; [done|lia].
Qed.

(** *** Record extractor *)

(** X8.  A returned row holds, for every field, the value stored under the
    field's key, or the default of the field when the key is missing: the
    empty string, [None] for the age, the empty dict for the interview
    block; the level is read from [level.final] and the date and year from
    the [metadata] block. *)
Theorem extracted_fields_are_values_or_defaults (data : pyval) (e : Extracted) :
  extract_analysis_data data = Some e →
  ∃ kvs skvs lkvs mkvs,
    data = PDict kvs
    ∧ default (PDict []) (dict_lookup kvs "speaker") = PDict skvs
    ∧ default (PDict []) (dict_lookup skvs "level") = PDict lkvs
    ∧ default (PDict []) (dict_lookup kvs "metadata") = PDict mkvs
    ∧ x_participant_id e = default (PStr "") (dict_lookup skvs "id")
    ∧ x_age e = default PNone (dict_lookup skvs "age")
    ∧ x_gender e = default (PStr "") (dict_lookup skvs "gender")
    ∧ x_location e = default (PStr "") (dict_lookup skvs "location")
    ∧ x_english_level e = default (PStr "") (dict_lookup lkvs "final")
    ∧ x_self_grade e = default (PStr "") (dict_lookup skvs "self_grade")
    ∧ x_interview e = default (PDict []) (dict_lookup skvs "interview")
    ∧ x_file_date e = default (PStr "") (dict_lookup mkvs "date")
    ∧ x_year e = default (PStr "") (dict_lookup mkvs "year").
Proof.
  intros Hsome. apply extract_analysis_data_Some in Hsome as [Hx _].
  unfold extract_fields in Hx.
  destruct data as [| | | | | |kvs]; try discriminate.
  step_binds Hx.
  destruct (default (PDict []) (dict_lookup kvs "speaker")) as [| | | | | |skvs] eqn:Hsp;
    try discriminate.
  step_binds Hx.
  destruct (default (PDict []) (dict_lookup skvs "level")) as [| | | | | |lkvs] eqn:Hlv;
    try discriminate.
  step_binds Hx.
  destruct (combo_scores_of lkvs) as [cs|]; [|discriminate].
  step_binds Hx.
  destruct (default (PDict []) (dict_lookup kvs "metadata")) as [| | | | | |mkvs] eqn:Hmd;
    try discriminate.
  step_binds Hx. injection Hx as <-.
  exists kvs, skvs, lkvs, mkvs. by repeat split.
Qed.

(** X9.  The sub-scores of a returned row are exactly the entries of the
    level block whose key starts with [Combo] and whose value is not the empty
    string, in the block's order, each under its own key with the value
    [float] gives it. *)
Theorem combo_scores_are_the_nonblank_Combo_entries (data : pyval) (e : Extracted) :
  extract_analysis_data data = Some e →
  Forall2 (λ kv score, score.1 = kv.1 ∧ py_float kv.2 = Ok score.2)
          (combo_entries data) (x_combo_scores e)
  ∧ Forall (λ score, String.prefix "Combo" score.1 = true) (x_combo_scores e).
Proof.
  intros Hsome. apply extract_analysis_data_Some in Hsome as [Hx _].
  unfold extract_fields in Hx. unfold combo_entries.
  destruct data as [| | | | | |kvs]; try discriminate.
  step_binds Hx.
  destruct (default (PDict []) (dict_lookup kvs "speaker")) as [| | | | | |skvs] eqn:Hsp;
    try discriminate.
  step_binds Hx.
  destruct (default (PDict []) (dict_lookup skvs "level")) as [| | | | | |lkvs] eqn:Hlv;
    try discriminate.
  step_binds Hx.
  destruct (combo_scores_of lkvs) as [cs|] eqn:Hcs; [|discriminate].
  step_binds Hx.
  destruct (default (PDict []) (dict_lookup kvs "metadata")) as [| | | | | |mkvs] eqn:Hmd;
    try discriminate.
  step_binds Hx. injection Hx as <-. cbn [x_combo_scores].
  unfold combo_scores_of in Hcs. apply mapM_res_Forall2 in Hcs.
  assert (Forall2 (λ (kv : string * pyval) (score : string * num),
                     score.1 = kv.1 ∧ py_float kv.2 = Ok score.2)
            (List.filter (λ kv : string * pyval,
                            String.prefix "Combo" kv.1 && negb (py_eq_str kv.2 "")) lkvs)
            cs) as Hall.
  { eapply Forall2_impl; [exact Hcs|]. intros kv score Hkv. cbn in Hkv.
    destruct (py_float kv.2) as [x|]; [|discriminate].
    injection Hkv as <-. by split. }
  split; [exact Hall|].
  apply Forall_forall. intros score Hscore.
  destruct (Forall2_elem_of_r _ _ _ _ Hall Hscore) as (kv & Hkv & -> & _).
  apply elem_of_filter_bool in Hkv as [_ Hkv]. by apply andb_true_iff in Hkv as [Hkv _].
Qed.

(** *** Filter engine *)

Lemma filter_bool_length_mono {A} (f g : A → bool) (l : list A) :
  (length (List.filter f (List.filter g l)) ≤ length (List.filter f l))%nat.
Proof.
  induction l as [|x l IH]; cbn [List.filter]; [done|].
  destruct (g x); cbn [List.filter]; destruct (f x); cbn [length]; lia.
Qed.

(** X10.  Two predicates applied one after the other keep the rows that
    satisfy both, whatever the order of the two calls. *)
Theorem apply_filters_commute (df : DataFrame) (f g : FilterRequest) :
  apply_filters (apply_filters df f) g = apply_filters (apply_filters df g) f
  ∧ ∀ r, r ∈ apply_filters (apply_filters df f) g
         ↔ r ∈ df ∧ satisfies f r = true ∧ satisfies g r = true.
Proof.
  rewrite !apply_filters_satisfies, !filter_bool_and. split.
  - apply List.filter_ext. intros r. apply andb_comm.
  - intros r. rewrite elem_of_filter_bool, andb_true_iff. tauto.
Qed.

Lemma age_range_inverted (a : num) (lo hi : Z) :
  hi < lo → num_ge a (of_int lo) && num_le a (of_int hi) = false.
Proof.
  intros Hlt. destruct a as [q| |[]]; cbn; try done.
  destruct (Qle_bool (inject_Z lo) q) eqn:H1, (Qle_bool q (inject_Z hi)) eqn:H2; try done.
  apply Qle_bool_iff in H1, H2. pose proof (Qle_trans _ _ _ H1 H2) as Hle.
  rewrite <- Zle_Qle in Hle. lia.
Qed.

(** X11.  A predicate whose lower age bound is above its upper bound matches
    no row, whatever its allow-lists; every evaluator then answers with its
    insufficient-data error. *)
Theorem inverted_age_range_selects_nothing
    (df : DataFrame) (lo hi : Z) (locs lvls : option (list string)) :
  hi < lo →
  let filters := {| age_min := Some lo; age_max := Some hi;
                    locations := locs; levels := lvls |} in
  apply_filters df filters = []
  ∧ analyze_hypothesis1 df filters
    = Raise (HTTPException 400 "분석에 충분한 데이터가 없습니다.")
  ∧ analyze_hypothesis2 df filters
    = Raise (HTTPException 400 "각 그룹에 충분한 데이터가 없습니다.")
  ∧ analyze_hypothesis3 df filters
    = Raise (HTTPException 400 "각 그룹에 충분한 데이터가 없습니다.").
Proof.
  intros Hlt filters.
  assert (apply_filters df filters = []) as Hnone.
  { rewrite apply_filters_satisfies. apply filter_bool_none. intros r.
    unfold satisfies, clause_age_min, clause_age_max. subst filters.
    cbn [age_min age_max]. by rewrite (age_range_inverted _ _ _ Hlt). }
  split; [done|]. split; [|split].
  - apply analyze_hypothesis1_insufficient. rewrite Hnone. cbn. lia.
  - apply analyze_hypothesis2_insufficient. rewrite Hnone. cbn. lia.
  - apply analyze_hypothesis3_insufficient. rewrite Hnone. cbn. lia.
Qed.

(** X12.  Filtering only removes rows, from the table and from each compared
    group.  So a table of fewer than 10 rows fails hypothesis 1 under every
    predicate, and a table with fewer than 5 rows in one of the two groups
    fails hypothesis 2, respectively 3, under every predicate. *)
Theorem no_filter_rescues_a_small_table (df : DataFrame) (filters : FilterRequest) :
  (length (apply_filters df filters) ≤ length df)%nat
  ∧ ((length df < 10)%nat →
       analyze_hypothesis1 df filters
       = Raise (HTTPException 400 "분석에 충분한 데이터가 없습니다."))
  ∧ ((length (metro_rows df) < 5 ∨ length (non_metro_rows df) < 5)%nat →
       analyze_hypothesis2 df filters
       = Raise (HTTPException 400 "각 그룹에 충분한 데이터가 없습니다."))
  ∧ ((length (exp_rows df) < 5 ∨ length (no_exp_rows df) < 5)%nat →
       analyze_hypothesis3 df filters
       = Raise (HTTPException 400 "각 그룹에 충분한 데이터가 없습니다.")).
Proof.
  assert (length (apply_filters df filters) ≤ length df)%nat as Hlen.
  { rewrite apply_filters_satisfies. apply sublist_length, filter_bool_sublist. }
  split; [done|]. split; [|split].
  - intros Hsmall. apply analyze_hypothesis1_insufficient. lia.
  - intros Hsmall. apply analyze_hypothesis2_insufficient.
    rewrite apply_filters_satisfies. unfold metro_rows, non_metro_rows in *.
    pose proof (filter_bool_length_mono (λ r, eqb (is_metropolitan r) true)
                  (satisfies filters) df).
    pose proof (filter_bool_length_mono (λ r, eqb (is_metropolitan r) false)
                  (satisfies filters) df).
    lia.
  - intros Hsmall. apply analyze_hypothesis3_insufficient.
    rewrite apply_filters_satisfies. unfold exp_rows, no_exp_rows in *.
    pose proof (filter_bool_length_mono (λ r, eqb (english_speaking_experience r) true)
                  (satisfies filters) df).
    pose proof (filter_bool_length_mono (λ r, eqb (english_speaking_experience r) false)
                  (satisfies filters) df).
    lia.
Qed.

(** *** Hypothesis evaluators: what a returned result holds *)

Lemma filter_bool_partition {A} (f : A → bool) (l : list A) :
  (length (List.filter (λ x, eqb (f x) true) l)
   + length (List.filter (λ x, eqb (f x) false) l) = length l)%nat.
Proof. induction l as [|x l IH]; cbn; [done|]. destruct (f x); cbn; lia. Qed.

Lemma analyze_hypothesis2_inv (df : DataFrame) (filters : FilterRequest) (r : HypothesisResult) :
  analyze_hypothesis2 df filters = Ok r →
  let t := apply_filters df filters in
  let metro_scores := english_level_numeric <$> metro_rows t in
  let non_metro_scores := english_level_numeric <$> non_metro_rows t in
  let p := (ttest_ind metro_scores non_metro_scores).2 in
  (5 ≤ length (metro_rows t))%nat ∧ (5 ≤ length (non_metro_rows t))%nat
  ∧ p_value r = p
  ∧ result r = (if num_lt p lit_0_05
                   && num_gt (series_mean metro_scores) (series_mean non_metro_scores)
                then REJECTED
                else if num_lt p lit_0_05
                        && num_lt (series_mean metro_scores) (series_mean non_metro_scores)
                then ACCEPTED else INCONCLUSIVE)
  ∧ conclusion r = (if num_lt p lit_0_05 then
                      if num_lt (series_mean metro_scores) (series_mean non_metro_scores)
                      then "가설 채택: 수도권이 비수도권보다 영어 실력이 높습니다."
                      else "가설 기각: 비수도권이 수도권보다 영어 실력이 높습니다."
                    else "가설 판단 불가: 수도권과 비수도권 간 유의한 차이가 없습니다.")
  ∧ dict_lookup (statistics r) "metro_count"
    = Some (PInt (Z.of_nat (length (metro_rows t))))
  ∧ dict_lookup (statistics r) "non_metro_count"
    = Some (PInt (Z.of_nat (length (non_metro_rows t))))
  ∧ dict_lookup (statistics r) "t_p_value" = Some (PFloat (p_value r))
  ∧ (∃ d, effect_size r = Some d
          ∧ dict_lookup (statistics r) "effect_size" = Some (PFloat d)
          ∧ dict_lookup (statistics r) "effect_interpretation"
            = Some (PStr (interpret_effect_size d))).
Proof.
  intros Hr t metro_scores non_metro_scores p. subst p metro_scores non_metro_scores.
  unfold analyze_hypothesis2 in Hr. fold t in Hr. fold (metro_rows t) (non_metro_rows t) in Hr.
  rewrite !length_fmap in Hr.
  destruct (Nat.ltb_spec (length (metro_rows t)) 5); [discriminate|].
  destruct (Nat.ltb_spec (length (non_metro_rows t)) 5); [discriminate|].
  cbn [orb] in Hr.
  destruct (ttest_ind _ _) as [t_stat p_ttest].
  destruct (mannwhitneyu _ _) as [u_stat p_mw].
  destruct (chi2_contingency _ _) as [chi2 p_chi2].
  injection Hr as <-. cbn [p_value result conclusion statistics effect_size snd].
  repeat (split; [done|]). eexists. by repeat split.
Qed.

Lemma analyze_hypothesis3_inv (df : DataFrame) (filters : FilterRequest) (r : HypothesisResult) :
  analyze_hypothesis3 df filters = Ok r →
  let t := apply_filters df filters in
  let exp_scores := english_level_numeric <$> exp_rows t in
  let no_exp_scores := english_level_numeric <$> no_exp_rows t in
  let p := (ttest_ind exp_scores no_exp_scores).2 in
  (5 ≤ length (exp_rows t))%nat ∧ (5 ≤ length (no_exp_rows t))%nat
  ∧ p_value r = p
  ∧ result r = (if num_lt p lit_0_05
                   && num_gt (series_mean exp_scores) (series_mean no_exp_scores)
                then REJECTED
                else if num_lt p lit_0_05
                        && num_lt (series_mean exp_scores) (series_mean no_exp_scores)
                then ACCEPTED else INCONCLUSIVE)
  ∧ conclusion r = (if num_lt p lit_0_05 then
                      if num_lt (series_mean exp_scores) (series_mean no_exp_scores)
                      then "가설 채택: 영어권 거주 경험이 있는 사람들의 영어 실력이 더 높습니다."
                      else "가설 기각: 영어권 거주 경험이 없는 사람들의 영어 실력이 더 높습니다."
                    else "가설 판단 불가: 영어권 거주 경험에 따른 유의한 차이가 없습니다.")
  ∧ dict_lookup (statistics r) "experience_count"
    = Some (PInt (Z.of_nat (length (exp_rows t))))
  ∧ dict_lookup (statistics r) "no_experience_count"
    = Some (PInt (Z.of_nat (length (no_exp_rows t))))
  ∧ dict_lookup (statistics r) "t_p_value" = Some (PFloat (p_value r))
  ∧ (∃ d, effect_size r = Some d
          ∧ dict_lookup (statistics r) "effect_size" = Some (PFloat d)
          ∧ dict_lookup (statistics r) "effect_interpretation"
            = Some (PStr (interpret_effect_size d))).
Proof.
  intros Hr t exp_scores no_exp_scores p. subst p exp_scores no_exp_scores.
  unfold analyze_hypothesis3 in Hr. fold t in Hr. fold (exp_rows t) (no_exp_rows t) in Hr.
  rewrite !length_fmap in Hr.
  destruct (Nat.ltb_spec (length (exp_rows t)) 5); [discriminate|].
  destruct (Nat.ltb_spec (length (no_exp_rows t)) 5); [discriminate|].
  cbn [orb] in Hr.
  destruct (ttest_ind _ _) as [t_stat p_ttest].
  destruct (mannwhitneyu _ _) as [u_stat p_mw].
  destruct (chi2_contingency _ _) as [chi2 p_chi2].
  injection Hr as <-. cbn [p_value result conclusion statistics effect_size snd].
  repeat (split; [done|]). eexists. by repeat split.
Qed.

(** X13.  In a result of hypothesis 2 the two reported group sizes are each
    at least 5 and add up to the number of filtered rows, the reported
    [t_p_value] is the result's p-value, and the reported effect size and its
    label are those of the result's effect size; likewise for hypothesis 3. *)
Theorem group_results_report_a_partition
    (df : DataFrame) (filters : FilterRequest) (r : HypothesisResult) :
  (analyze_hypothesis2 df filters = Ok r →
   ∃ m n d, dict_lookup (statistics r) "metro_count" = Some (PInt m)
            ∧ dict_lookup (statistics r) "non_metro_count" = Some (PInt n)
            ∧ 5 ≤ m ∧ 5 ≤ n
            ∧ m + n = Z.of_nat (length (apply_filters df filters))
            ∧ dict_lookup (statistics r) "t_p_value" = Some (PFloat (p_value r))
            ∧ effect_size r = Some d
            ∧ dict_lookup (statistics r) "effect_size" = Some (PFloat d)
            ∧ dict_lookup (statistics r) "effect_interpretation"
              = Some (PStr (interpret_effect_size d)))
  ∧ (analyze_hypothesis3 df filters = Ok r →
     ∃ m n d, dict_lookup (statistics r) "experience_count" = Some (PInt m)
              ∧ dict_lookup (statistics r) "no_experience_count" = Some (PInt n)
              ∧ 5 ≤ m ∧ 5 ≤ n
              ∧ m + n = Z.of_nat (length (apply_filters df filters))
              ∧ dict_lookup (statistics r) "t_p_value" = Some (PFloat (p_value r))
              ∧ effect_size r = Some d
              ∧ dict_lookup (statistics r) "effect_size" = Some (PFloat d)
              ∧ dict_lookup (statistics r) "effect_interpretation"
                = Some (PStr (interpret_effect_size d))).
Proof.
  split; intros Hr.
  - destruct (analyze_hypothesis2_inv _ _ _ Hr)
      as (Hm & Hn & _ & _ & _ & Hmc & Hnc & Hp & d & Hd & Hds & Hdi).
    pose proof (filter_bool_partition is_metropolitan (apply_filters df filters)) as Hpart.
    fold (metro_rows (apply_filters df filters)) in Hpart.
    fold (non_metro_rows (apply_filters df filters)) in Hpart.
    eexists _, _, d. repeat (split; [eassumption || lia|]). done.
  - destruct (analyze_hypothesis3_inv _ _ _ Hr)
      as (Hm & Hn & _ & _ & _ & Hmc & Hnc & Hp & d & Hd & Hds & Hdi).
    pose proof (filter_bool_partition english_speaking_experience
                  (apply_filters df filters)) as Hpart.
    fold (exp_rows (apply_filters df filters)) in Hpart.
    fold (no_exp_rows (apply_filters df filters)) in Hpart.
    eexists _, _, d. repeat (split; [eassumption || lia|]). done.
Qed.

(** X14.  In a result of hypothesis 2 or 3 the conclusion text announces
    acceptance when the verdict is accepted and rejection when it is
    rejected.  When the p-value is below 0.05 and neither mean is below the
    other (equal means, or a NaN mean), the verdict is inconclusive while the
    conclusion text announces rejection. *)
Theorem group_conclusion_text_against_verdict
    (df : DataFrame) (filters : FilterRequest) (r : HypothesisResult) :
  let t := apply_filters df filters in
  (analyze_hypothesis2 df filters = Ok r →
   let m1 := series_mean (english_level_numeric <$> metro_rows t) in
   let m2 := series_mean (english_level_numeric <$> non_metro_rows t) in
   (result r = ACCEPTED →
      conclusion r = "가설 채택: 수도권이 비수도권보다 영어 실력이 높습니다.")
   ∧ (result r = REJECTED →
        conclusion r = "가설 기각: 비수도권이 수도권보다 영어 실력이 높습니다.")
   ∧ (num_lt (p_value r) lit_0_05 = true → num_lt m1 m2 = false → num_gt m1 m2 = false →
        result r = INCONCLUSIVE
        ∧ conclusion r = "가설 기각: 비수도권이 수도권보다 영어 실력이 높습니다.")
   ∧ (num_lt (p_value r) lit_0_05 = false →
        result r = INCONCLUSIVE
        ∧ conclusion r = "가설 판단 불가: 수도권과 비수도권 간 유의한 차이가 없습니다."))
  ∧ (analyze_hypothesis3 df filters = Ok r →
     let m1 := series_mean (english_level_numeric <$> exp_rows t) in
     let m2 := series_mean (english_level_numeric <$> no_exp_rows t) in
     (result r = ACCEPTED →
        conclusion r = "가설 채택: 영어권 거주 경험이 있는 사람들의 영어 실력이 더 높습니다.")
     ∧ (result r = REJECTED →
          conclusion r = "가설 기각: 영어권 거주 경험이 없는 사람들의 영어 실력이 더 높습니다.")
     ∧ (num_lt (p_value r) lit_0_05 = true → num_lt m1 m2 = false → num_gt m1 m2 = false →
          result r = INCONCLUSIVE
          ∧ conclusion r = "가설 기각: 영어권 거주 경험이 없는 사람들의 영어 실력이 더 높습니다.")
     ∧ (num_lt (p_value r) lit_0_05 = false →
          result r = INCONCLUSIVE
          ∧ conclusion r = "가설 판단 불가: 영어권 거주 경험에 따른 유의한 차이가 없습니다.")).
Proof.
  intros t. split; intros Hr.
  - destruct (analyze_hypothesis2_inv _ _ _ Hr) as (_ & _ & Hp & Hres & Hcon & _).
    fold t in Hp, Hres, Hcon. intros m1 m2. fold m1 m2 in Hres, Hcon.
    rewrite <- Hp in Hres, Hcon. rewrite Hres, Hcon.
    pose proof (num_lt_asym m1 m2) as Hasym. unfold num_gt in *.
    destruct (num_lt (p_value r) lit_0_05), (num_lt m1 m2) eqn:H12, (num_lt m2 m1) eqn:H21;
      cbn; repeat split; intros; try done; try (specialize (Hasym eq_refl); done).
  - destruct (analyze_hypothesis3_inv _ _ _ Hr) as (_ & _ & Hp & Hres & Hcon & _).
    fold t in Hp, Hres, Hcon. intros m1 m2. fold m1 m2 in Hres, Hcon.
    rewrite <- Hp in Hres, Hcon. rewrite Hres, Hcon.
    pose proof (num_lt_asym m1 m2) as Hasym. unfold num_gt in *.
    destruct (num_lt (p_value r) lit_0_05), (num_lt m1 m2) eqn:H12, (num_lt m2 m1) eqn:H21;
      cbn; repeat split; intros; try done; try (specialize (Hasym eq_refl); done).
Qed.

Lemma group_filter_split (t : DataFrame) (g : string) (gs : list string) :
  g ∉ gs →
  (length (List.filter (λ r, bool_decide (age_group r ∈ g :: gs)) t)
   = length (List.filter (λ r, String.eqb (age_group r) g) t)
     + length (List.filter (λ r, bool_decide (age_group r ∈ gs)) t))%nat.
Proof.
  intros Hg. induction t as [|r t IH]; cbn [List.filter]; [done|].
  destruct (String.eqb_spec (age_group r) g) as [Heq|Hne].
  - rewrite bool_decide_eq_true_2 by (rewrite Heq; left).
    rewrite (bool_decide_eq_false_2 (age_group r ∈ gs)) by (by rewrite Heq).
    cbn [length]. lia.
  - destruct (decide (age_group r ∈ gs)) as [Hin|Hnin].
    + rewrite !bool_decide_eq_true_2 by (done || by right). cbn [length]. lia.
    + rewrite !bool_decide_eq_false_2; [done|done|].
      rewrite elem_of_cons. tauto.
Qed.

Lemma groups_data_total (t : DataFrame) (gs : list string) :
  NoDup gs →
  length (concat (groups_data t gs))
  = length (List.filter (λ r, bool_decide (age_group r ∈ gs)) t).
Proof.
  induction 1 as [|g gs Hg _ IH].
  - cbn. symmetry. rewrite filter_bool_none; [done|].
    intros r. apply bool_decide_eq_false_2. apply not_elem_of_nil.
  - unfold groups_data in *. rewrite fmap_cons. cbn [concat].
    rewrite length_app, length_fmap, IH. symmetry. by apply group_filter_split.
Qed.

(** X15.  The samples handed to the ANOVA of hypothesis 1 partition the
    filtered rows by age group: one sample per distinct age group, none of
    them empty, their sizes adding up to the number of rows.  On a table that
    was built there are at most five of them. *)
Theorem anova_samples_partition_the_rows (t : DataFrame) :
  let groups := unique (age_group <$> t) in
  let samples := groups_data t groups in
  length samples = length groups
  ∧ Forall (λ sample, sample ≠ []) samples
  ∧ length (concat samples) = length t
  ∧ (∀ loaded df filters,
       load_all_participant_data loaded = Ok df → t = apply_filters df filters →
       (length groups ≤ 5)%nat).
Proof.
  intros groups samples. subst samples.
  assert (∀ r, r ∈ t → age_group r ∈ groups) as Hcover.
  { intros r Hr. apply elem_of_unique. by apply list_elem_of_fmap_2. }
  split; [|split; [|split]].
  - unfold groups_data. apply length_fmap.
  - unfold groups_data. apply Forall_fmap, Forall_forall. intros g Hg. cbn.
    apply elem_of_unique, list_elem_of_fmap in Hg as (r & -> & Hr).
    intros Hnil. apply fmap_nil_inv in Hnil.
    assert (r ∈ List.filter (λ r', String.eqb (age_group r') (age_group r)) t) as Hin.
    { apply elem_of_filter_bool. split; [done|apply String.eqb_refl]. }
    rewrite Hnil in Hin. by apply elem_of_nil in Hin.
  - rewrite groups_data_total by apply NoDup_unique.
    f_equal. apply filter_bool_all_on.
    intros r Hr. apply bool_decide_eq_true_2. by apply Hcover.
  - intros loaded df filters Hload ->.
    change 5%nat with (length AGE_GROUP_LABELS).
    apply submseteq_length, NoDup_submseteq; [apply NoDup_unique|].
    intros g Hg. apply elem_of_unique, list_elem_of_fmap in Hg as (r & -> & Hr).
    rewrite apply_filters_satisfies in Hr. apply elem_of_filter_bool in Hr as [Hr _].
    by destruct (built_row_invariant _ _ _ Hload Hr) as (_ & ? & _).
Qed.

(** *** Effect size label and level tables *)

Lemma num_lt_Num (p q : Q) : num_lt (Num p) (Num q) = true ↔ (p < q)%Q.
Proof.
  cbn. rewrite negb_true_iff. split.
  - intros Hle. apply Qnot_le_lt. intros H. apply Qle_bool_iff in H. congruence.
  - intros Hlt. destruct (Qle_bool q p) eqn:H; [|done].
    apply Qle_bool_iff in H. exfalso. by apply (Qlt_not_le _ _ Hlt).
Qed.

Lemma Qabs_opp_eq (q : Q) : Qabs (- q) = Qabs q.
Proof. destruct q as [a b]. unfold Qabs, Qopp. cbn. by rewrite Z.abs_opp. Qed.

(** X16.  The effect size label depends on the magnitude only: a finite
    effect size is labelled by the band of its absolute value, with the
    bounds 0.2, 0.5 and 0.8 as doubles, so [d] and [-d] get the same label;
    a NaN or infinite effect size gets the label of the top band. *)
Theorem effect_size_label_by_magnitude :
  (∀ q : Q,
     let label := interpret_effect_size (Num q) in
     (label = "작은 효과" ↔ (Qabs q < 3602879701896397 # 18014398509481984)%Q)
     ∧ (label = "중간 효과" ↔ ((3602879701896397 # 18014398509481984) <= Qabs q)%Q
                              ∧ (Qabs q < 1 # 2)%Q)
     ∧ (label = "큰 효과" ↔ ((1 # 2) <= Qabs q)%Q
                            ∧ (Qabs q < 3602879701896397 # 4503599627370496)%Q)
     ∧ (label = "매우 큰 효과" ↔ ((3602879701896397 # 4503599627370496) <= Qabs q)%Q)
     ∧ interpret_effect_size (Num (- q)) = label)
  ∧ interpret_effect_size NaN = "매우 큰 효과"
  ∧ (∀ negative, interpret_effect_size (Inf negative) = "매우 큰 효과").
Proof.
  split; [|by split; [|intros []]].
  intros q label. subst label. unfold interpret_effect_size. cbn [num_abs].
  rewrite Qabs_opp_eq. unfold lit_0_2, lit_0_5, lit_0_8.
  set (a := Qabs q).
  assert (∀ c, (a < c)%Q → num_lt (Num a) (Num c) = true) as Hlt.
  { intros c. apply num_lt_Num. }
  assert (∀ c, (c <= a)%Q → num_lt (Num a) (Num c) = false) as Hge.
  { intros c Hc. destruct (num_lt (Num a) (Num c)) eqn:E; [|done].
    apply num_lt_Num in E. lra. }
  destruct (Qlt_le_dec a (3602879701896397 # 18014398509481984)) as [H2|H2];
    [rewrite (Hlt _ H2)|rewrite (Hge _ H2)].
  { repeat split; intros; first [done | lra | exfalso; lra | discriminate |
      match goal with H : _ ∧ _ |- _ => destruct H; lra end]. }
  destruct (Qlt_le_dec a (1 # 2)) as [H5|H5]; [rewrite (Hlt _ H5)|rewrite (Hge _ H5)].
  { repeat split; intros; first [done | lra | exfalso; lra | discriminate |
      match goal with H : _ ∧ _ |- _ => destruct H; lra end]. }
  destruct (Qlt_le_dec a (3602879701896397 # 4503599627370496)) as [H8|H8];
    [rewrite (Hlt _ H8)|rewrite (Hge _ H8)].
  { repeat split; intros; first [done | lra | exfalso; lra | discriminate |
      match goal with H : _ ∧ _ |- _ => destruct H; lra end]. }
  repeat split; intros; first [done | lra | exfalso; lra | discriminate |
    match goal with H : _ ∧ _ |- _ => destruct H; lra end].
Qed.

Lemma level_reverse_mapping_lookup (n : Z) (s : string) :
  LEVEL_REVERSE_MAPPING !! n = Some s ↔
  (s, n) ∈ [("IG", 1); ("TL", 2); ("TM", 3); ("TH", 4); ("NA", 5)].
Proof.
  assert (LEVEL_REVERSE_MAPPING
          = list_to_map [(1, "IG"); (2, "TL"); (3, "TM"); (4, "TH"); (5, "NA")]) as ->.
  { unfold LEVEL_REVERSE_MAPPING. cbn [fold_left fst snd]. apply map_eq. intros k.
    repeat (rewrite lookup_insert; case_decide; [subst; by vm_compute|]).
    cbn. repeat (rewrite lookup_insert_ne by done). done. }
  rewrite <- elem_of_list_to_map; [|apply (bool_decide_unpack _); by vm_compute].
  set_unfold. split; intros; destruct_or!; simplify_eq; tauto.
Qed.

(** X17.  The reverse level table inverts the level table: a rank maps back
    to the code it is the rank of, and only the ranks 1 to 5 map back. *)
Theorem level_tables_round_trip (s : string) (n : Z) :
  (LEVEL_MAPPING !! s = Some n ↔ LEVEL_REVERSE_MAPPING !! n = Some s)
  ∧ (is_Some (LEVEL_REVERSE_MAPPING !! n) ↔ 1 ≤ n ≤ 5).
Proof.
  split.
  - by rewrite level_mapping_lookup, level_reverse_mapping_lookup.
  - split.
    + intros [s' Hs']. apply level_reverse_mapping_lookup in Hs'.
      set_unfold. destruct_or!; simplify_eq; lia.
    + intros Hn. assert (n = 1 ∨ n = 2 ∨ n = 3 ∨ n = 4 ∨ n = 5) as Hcases by lia.
      destruct_or!; subst; by eexists.
Qed.

(** *** Storage, settings and the cached table *)

Lemma mapM_res_Raise {A B} (f : A → res B) (l : list A) (e : exn) :
  mapM f l = Raise e → ∃ x, x ∈ l ∧ f x = Raise e.
Proof.
  induction l as [|x l IH]; [done|]. rewrite mapM_res_cons.
  destruct (f x) as [y|e'] eqn:Hx.
  - rewrite res_bind_Ok. destruct (mapM f l) as [k|e'']; [done|].
    cbn. intros [= ->]. destruct IH as (x' & Hin & Hx'); [done|].
    exists x'. split; [by right|done].
  - cbn. intros [= ->]. exists x. split; [by left|done].
Qed.

(** The build raises for three reasons only: no row at all, a level cell
    that cannot be hashed, an infinite age. *)
Lemma build_failure_kinds (loaded : list (option pyval)) (e : exn) :
  load_all_participant_data loaded = Raise e →
  e = KeyError ∨ e = TypeError ∨ e = OverflowError.
Proof.
  unfold load_all_participant_data, preprocess_dataframe.
  destruct (collect_rows loaded) as [|e0 df0]; [intros [= <-]; by left|].
  set (df := e0 :: df0).
  destruct (mapM _ (_ <$> df)) as [lv|e1] eqn:Hlv; cbn [mbind res_bind].
  - destruct (mapM _ lv) as [rows|e2] eqn:Hrows; cbn [mbind res_bind]; [done|].
    intros [= <-]. apply mapM_res_Raise in Hrows as (x & _ & Hx).
    destruct (create_age_groups x.1.2) as [g|e3] eqn:Hg; [done|].
    cbn in Hx. injection Hx as <-.
    destruct (x.1.2) as [q| |b]; cbn in Hg;
      [repeat case_match; discriminate|discriminate|injection Hg as <-; auto].
  - intros [= <-]. apply mapM_res_Raise in Hlv as (x & _ & Hx).
    destruct (map_level (x_english_level x.1)) as [n|e3] eqn:Hn; [done|].
    cbn in Hx. injection Hx as <-.
    destruct (x_english_level x.1); cbn in Hn; try discriminate;
      try (case_match; discriminate); injection Hn as <-; auto.
Qed.

(** X18.  A load fails before any listing when the bucket name is unset or
    empty or the prefix is empty (the value it has when its variable is
    unset), with HTTP 500; with the settings in place, a missing client
    surfaces as [AttributeError] from the access check, and rejected
    credentials as HTTP 500.  A [ClientError] of the access check is not a
    failure.  Any other failure is one of the three of the build.  So the
    HTTP 500 of the listing for a missing client is never what a load
    raises. *)
Theorem load_failures_and_their_causes (st : Server.Storage) :
  let settings := Server.str_truthy (Server.S3_BUCKET_NAME st)
                  && negb (String.eqb (Server.S3_RAW_PREFIX st) "") in
  (settings = false →
   Server.load_all_participant_data st
   = Raise (HTTPException 500 "S3 설정이 누락되었습니다."))
  ∧ (settings = true → Server.s3_client st = false →
     Server.load_all_participant_data st = Raise AttributeError)
  ∧ (settings = true → Server.s3_client st = true →
     Server.head_bucket st = Server.HeadNoCredentials →
     Server.load_all_participant_data st = Raise (HTTPException 500 "AWS 자격 증명 오류"))
  ∧ (settings = true → Server.s3_client st = true →
     Server.head_bucket st ≠ Server.HeadNoCredentials →
     ∃ rep_files,
       get_participant_representative_files true (Server.list_objects_v2 st) = Ok rep_files
       ∧ Server.load_all_participant_data st
         = load_all_participant_data
             ((λ pid_key, Server.get_json st pid_key.2) <$> rep_files)
       ∧ ∀ e, Server.load_all_participant_data st = Raise e →
              e = KeyError ∨ e = TypeError ∨ e = OverflowError)
  ∧ Server.load_all_participant_data st
    ≠ Raise (HTTPException 500 "S3 클라이언트가 초기화되지 않았습니다.").
Proof.
  intros settings. subst settings. unfold Server.load_all_participant_data.
  cbn [Server.str_truthy].
  destruct (Server.str_truthy (Server.S3_BUCKET_NAME st));
    destruct (negb (String.eqb (Server.S3_RAW_PREFIX st) "")); cbn [negb orb andb];
    try by repeat split.
  destruct (Server.s3_client st) eqn:Hclient; cbn [negb]; [|by repeat split].
  unfold get_participant_representative_files. cbn [negb]. rewrite !res_bind_Ok.
  unfold Server.load_participant_data.
  destruct (Server.head_bucket st) eqn:Hhead.
  - repeat split; try done.
    + intros _ _ _. eexists. split; [done|]. split; [done|]. apply build_failure_kinds.
    + intros Hraise. apply build_failure_kinds in Hraise. by destruct_or!.
  - repeat split; done.
  - repeat split; try done.
    + intros _ _ _. eexists. split; [done|]. split; [done|]. apply build_failure_kinds.
    + intros Hraise. apply build_failure_kinds in Hraise. by destruct_or!.
Qed.

(** X19.  A reload drops the cached table before it loads.  When the load
    fails, the request fails with the load's exception and the cache stays
    empty, so the health check and the analyses that follow fail the same
    way, although the table served until then was intact; a health check in
    place of the reload would have answered from that table. *)
Theorem failed_reload_empties_the_cache
    (st : Server.Storage) (df : DataFrame) (e : exn) (filters : FilterRequest) :
  Server.load_all_participant_data st = Raise e →
  Server.reload_data st (Some df) = (Raise e, None)
  ∧ Server.health_check st (Server.reload_data st (Some df)).2 = (Server.unhealthy e, None)
  ∧ Server.analyze_hypothesis1 st (Server.reload_data st (Some df)).2 filters = (Raise e, None)
  ∧ Server.analyze_hypothesis2 st (Server.reload_data st (Some df)).2 filters = (Raise e, None)
  ∧ Server.analyze_hypothesis3 st (Server.reload_data st (Some df)).2 filters = (Raise e, None)
  ∧ Server.health_check st (Some df) = (Server.healthy (length df), Some df).
Proof.
  intros Hload.
  unfold Server.reload_data, Server.health_check, Server.analyze_hypothesis1,
    Server.analyze_hypothesis2, Server.analyze_hypothesis3, Server.load_data_if_needed.
  rewrite Hload. cbn. by repeat split.
Qed.

Lemma cache_after_cases (st : Server.Storage) (cache : option DataFrame)
    (request : Server.Request) :
  Server.cache_after st cache request
  = match cache, request with
    | Some _, Server.POST_reload | None, _ =>
        match Server.load_all_participant_data st with
        | Ok df => Some df
        | Raise _ => None
        end
    | Some df, _ => Some df
    end.
Proof.
  unfold Server.cache_after, Server.reload_data, Server.health_check,
    Server.analyze_hypothesis1, Server.analyze_hypothesis2, Server.analyze_hypothesis3,
    Server.load_data_if_needed.
  destruct cache as [df|], request; cbn; try done;
    by destruct (Server.load_all_participant_data st).
Qed.

(** X20.  Whatever requests arrive and however the storage changes between
    them, a table in the cache is the table that a load built from the
    storage as it was at one of the requests; only a reload replaces a
    cached table, every other request leaves it as it is. *)
Theorem cached_table_comes_from_a_load
    (requests : list (Server.Storage * Server.Request)) (df : DataFrame) :
  Server.cache_after_all requests None = Some df →
  (∃ st request, (st, request) ∈ requests
                 ∧ Server.load_all_participant_data st = Ok df)
  ∧ ∀ st request, request ≠ Server.POST_reload →
                  Server.cache_after_all (requests ++ [(st, request)]) None = Some df.
Proof.
  intros Hcache. split.
  - unfold Server.cache_after_all in Hcache.
    assert (∀ cache,
              fold_left (λ cache sr, Server.cache_after sr.1 cache sr.2) requests cache
              = Some df →
              cache = Some df
              ∨ ∃ st request, (st, request) ∈ requests
                              ∧ Server.load_all_participant_data st = Ok df) as Hgen.
    { clear Hcache. induction requests as [|[st request] requests IH]; intros cache;
        cbn [fold_left]; [by left|].
      intros Hfold. destruct (IH _ Hfold) as [Hstep|(st' & request' & Hin & Hload)].
      - cbn [fst snd] in Hstep. rewrite cache_after_cases in Hstep.
        destruct cache as [df0|], request;
          first [by left
                | right; exists st; eexists; split; [by left|];
                  by destruct (Server.load_all_participant_data st) as [df1|];
                    [injection Hstep as ->|] ].
      - right. exists st', request'. split; [by right|done]. }
    by destruct (Hgen None Hcache).
  - intros st request Hrequest. unfold Server.cache_after_all in *.
    rewrite fold_left_app, Hcache. cbn [fold_left fst snd].
    rewrite cache_after_cases. by destruct request.
Qed.

Lemma dict_lookup_NoDup {A} (kvs : list (string * A)) (k : string) (v : A) :
  NoDup kvs.*1 → (k, v) ∈ kvs → dict_lookup kvs k = Some v.
Proof.
  induction kvs as [|[k' v'] kvs IH]; cbn; intros Hnd Hin.
  - by apply elem_of_nil in Hin.
  - apply NoDup_cons in Hnd as [Hk' Hnd].
    apply elem_of_cons in Hin as [[= <- <-]|Hin].
    + by rewrite String.eqb_refl.
    + destruct (String.eqb_spec k' k) as [->|Hne]; [|by apply IH].
      destruct Hk'. apply list_elem_of_fmap. by exists (k, v).
Qed.

Lemma derives_functional (e : Extracted) (r r' : Row) :
  derives e r → derives e r' → r = r'.
Proof.
  intros (Hl & Hg & Heq) (Hl' & Hg' & Heq').
  rewrite Hl in Hl'. injection Hl' as Hl'. rewrite Hg in Hg'. injection Hg' as Hg'.
  rewrite Heq, Heq'. by rewrite Hl', Hg'.
Qed.

(** Rows derived from the elements that yield a record, filtered: one
    optional row per element. *)
Lemma omap_filter_options {A E R} (g : A → option E) (D : E → R → Prop)
    (keep : R → bool) (l : list A) (rows : list R) :
  Forall2 D (omap g l) rows →
  ∃ opts, Forall2 (λ a o, match o with
                          | Some r => ∃ e, g a = Some e ∧ D e r ∧ keep r = true
                          | None => g a = None
                                    ∨ ∃ e r, g a = Some e ∧ D e r ∧ keep r = false
                          end) l opts
          ∧ List.filter keep rows = omap id opts.
Proof.
  revert rows. induction l as [|a l IH]; intros rows Hrows; cbn [omap list_omap] in Hrows.
  - apply Forall2_nil_inv_l in Hrows as ->. exists []. by split.
  - destruct (g a) as [e|] eqn:Ha.
    + apply Forall2_cons_inv_l in Hrows as (r & rows' & Hr & Hrows' & ->).
      destruct (IH rows' Hrows') as (opts & Hopts & Hfilter).
      cbn [List.filter]. destruct (keep r) eqn:Hkeep.
      * exists (Some r :: opts). split.
        -- constructor; [|done]. by exists e.
        -- cbn. by rewrite Hfilter.
      * exists (None :: opts). split; [|done].
        constructor; [|done]. right. by exists e, r.
    + destruct (IH rows Hrows) as (opts & Hopts & Hfilter).
      exists (None :: opts). split; [|done]. constructor; [by left|done].
Qed.

(** X21.  Every row of a loaded table is derived from the record extracted
    from one stored object, and that object is the first listed key of some
    participant directory; the row has no missing age, rank or location.
    The table is, in listing order, the rows of the representative objects:
    each participant directory contributes the row of its representative
    object when that object has one, and nothing otherwise, so the table has
    at most one row per participant directory, however many objects the
    directory holds. *)
Theorem every_row_comes_from_a_first_listed_file
    (st : Server.Storage) (df : DataFrame) :
  Server.load_all_participant_data st = Ok df →
  (∀ r, r ∈ df →
     ∃ pid key data e,
       List.find (λ k, bool_decide (participant_of k = Some pid)) (Server.list_objects_v2 st)
       = Some key
       ∧ Server.get_json st key = Some data
       ∧ truthy data = true
       ∧ extract_analysis_data data = Some e
       ∧ derives e r
       ∧ has_na r = false)
  ∧ ∃ rep_files rows,
      get_participant_representative_files true (Server.list_objects_v2 st) = Ok rep_files
      ∧ NoDup rep_files.*1
      ∧ (∀ pid, dict_lookup rep_files pid
                = List.find (λ k, bool_decide (participant_of k = Some pid))
                            (Server.list_objects_v2 st))
      ∧ Forall2 (λ pid_key row,
                   match row with
                   | Some r => row_of_object st pid_key.2 r
                   | None => ∀ r, ¬ row_of_object st pid_key.2 r
                   end) rep_files rows
      ∧ df = omap id rows
      ∧ (length df ≤ length rep_files)%nat.
Proof.
  intros Hload. unfold Server.load_all_participant_data in Hload.
  destruct (negb _ || negb _); [discriminate|].
  destruct (Server.s3_client st); cbn [negb] in Hload; [|discriminate].
  destruct (representative_files_spec (Server.list_objects_v2 st))
    as (reps & Hreps & Hnd & Hlook).
  assert (load_all_participant_data ((λ pid_key, Server.get_json st pid_key.2) <$> reps)
          = Ok df) as Hbuild.
  { destruct (Server.head_bucket st); [|discriminate|];
      by rewrite Hreps, res_bind_Ok in Hload. }
  clear Hload. pose proof Hbuild as Hbuild'.
  apply preprocess_dataframe_Ok in Hbuild as (_ & rows & Hrows & ->).
  split.
  - intros r Hr. apply elem_of_filter_bool in Hr as [Hr Hna]. apply negb_true_iff in Hna.
    destruct (Forall2_elem_of_r _ _ _ _ Hrows Hr) as (e & He & Hderives).
    unfold collect_rows in He. apply list_elem_of_omap in He as (o & Ho & Hoe).
    apply list_elem_of_fmap in Ho as ([pid key] & -> & Hin). cbn [snd] in Hoe.
    destruct (Server.get_json st key) as [data|] eqn:Hdata; [|done].
    destruct (truthy data) eqn:Htruthy; [|done].
    exists pid, key, data, e. rewrite <- Hlook. by rewrite (dict_lookup_NoDup _ _ _ Hnd Hin).
  - set (g := λ pid_key : string * string,
                match Server.get_json st pid_key.2 with
                | Some d => if truthy d then extract_analysis_data d else None
                | None => None
                end).
    assert (collect_rows ((λ pid_key, Server.get_json st pid_key.2) <$> reps)
            = omap g reps) as Hcollect.
    { unfold collect_rows. clear. induction reps as [|pk reps IH]; [done|].
      rewrite fmap_cons. cbn [omap list_omap]. by rewrite IH. }
    rewrite Hcollect in Hrows.
    destruct (omap_filter_options g derives (λ r, negb (has_na r)) reps rows Hrows)
      as (opts & Hopts & Hfilter).
    exists reps, opts. split; [done|]. split; [done|]. split; [done|].
    split; [|split; [done|]].
    + eapply Forall2_impl; [exact Hopts|]. intros pk [r|]; cbn beta.
      * intros (e & Hg & Hd & Hkeep). apply negb_true_iff in Hkeep.
        subst g. cbn beta in Hg.
        destruct (Server.get_json st pk.2) as [data|] eqn:Hdata; [|done].
        destruct (truthy data) eqn:Htruthy; [|done].
        by exists data, e.
      * intros Hnone r (data & e & Hdata & Htruthy & He & Hd & Hna).
        assert (g pk = Some e) as Hg.
        { subst g. cbn beta. by rewrite Hdata, Htruthy. }
        destruct Hnone as [Hnone|(e' & r' & Hg' & Hd' & Hkeep)]; [congruence|].
        rewrite Hg in Hg'. injection Hg' as <-.
        rewrite (derives_functional _ _ _ Hd Hd') in Hna.
        by rewrite Hna in Hkeep.
    + etrans; [apply sublist_length, filter_bool_sublist|].
      rewrite <- (Forall2_length _ _ _ Hrows). apply omap_length_le.
Qed.

(** *** The daily pipeline *)

Import Stager.

Lemma basename_from_app_slash (acc p name : string) :
  basename_from acc (p ++ "/" ++ name) = basename name.
Proof.
  revert acc. induction p as [|c p IH]; intros acc.
  - reflexivity.
  - rewrite append_cons. cbn [basename_from]. destruct (Ascii.eqb c "/"); apply IH.
Qed.

Lemma matching_date_spec (target_date : string) (data : pyval) (s : string) :
  Dag.matching_date target_date data = Some s
  ↔ s = target_date ∧ target_date ≠ "" ∧ is_valid_yyyymmdd target_date = true
    ∧ ∃ kvs mkvs, data = PDict kvs
                  ∧ dict_lookup kvs "metadata" = Some (PDict mkvs)
                  ∧ dict_lookup mkvs "date" = Some (PStr target_date).
Proof.
  unfold Dag.matching_date. split.
  - destruct data as [| | | | | |kvs]; try done. rewrite py_get_dict, res_bind_Ok.
    destruct (dict_lookup kvs "metadata") as [metadata|] eqn:Hmeta; cbn [default from_option id].
    + destruct metadata as [| | | | | |mkvs]; try done. rewrite py_get_dict.
      destruct (dict_lookup mkvs "date") as [file_date|] eqn:Hdate; cbn [default from_option id]; [|done].
      destruct file_date as [| | | |d| |]; cbn [truthy py_eq_str];
        rewrite ?andb_false_r; try done.
      destruct (String.eqb_spec d target_date) as [->|]; [|by rewrite andb_false_r].
      destruct (String.eqb_spec target_date "") as [->|Hne]; [done|]. cbn [negb andb].
      destruct (is_valid_yyyymmdd target_date) eqn:Hvalid; [|done].
      intros [= <-]. repeat split; [done|]. by exists kvs, mkvs.
    + by rewrite py_get_dict.
  - intros (-> & Hne & Hvalid & kvs & mkvs & -> & Hmeta & Hdate).
    rewrite py_get_dict, res_bind_Ok, Hmeta. cbn [default from_option id].
    rewrite py_get_dict, Hdate. cbn [default from_option id truthy py_eq_str].
    rewrite String.eqb_refl, Hvalid.
    destruct (String.eqb_spec target_date ""); done.
Qed.

Lemma find_files_by_date_elem (dataset : Dag.Dataset) (target_date : string) (f : FileInfo) :
  f ∈ Dag.find_files_by_date dataset target_date
  ↔ ∃ entries entry files name data,
      level f ∈ ["IG"; "NA"; "TH"; "TL"; "TM"]
      ∧ dataset (level f) = Some entries
      ∧ entry ∈ entries
      ∧ Dag.entry_name entry = participant f
      ∧ Dag.entry_json entry = Some files
      ∧ (name, Some data) ∈ files
      ∧ Dag.matching_date target_date data = Some (date f)
      ∧ file_path f
        = "/opt/airflow/dataset" ++ "/" ++ level f ++ "/" ++ participant f ++ "/" ++ name.
Proof.
  unfold Dag.find_files_by_date. rewrite list_elem_of_bind. split.
  - intros (lv & Hf & Hlv). destruct (dataset lv) as [entries|] eqn:Hds;
      [|by apply elem_of_nil in Hf].
    apply list_elem_of_bind in Hf as (entry & Hf & Hentry).
    destruct (Dag.entry_json entry) as [files|] eqn:Hfiles; [|by apply elem_of_nil in Hf].
    apply list_elem_of_omap in Hf as ([name [data|]] & Hin & Hsome); [|done].
    cbn [snd fst mbind option_bind] in Hsome.
    destruct (Dag.matching_date target_date data) as [file_date|] eqn:Hdate; [|done].
    injection Hsome as <-. cbn [level participant date file_path].
    exists entries, entry, files, name, data. by rewrite !str_append_assoc.
  - intros (entries & entry & files & name & data & Hlv & Hds & Hentry & Hname & Hfiles
            & Hin & Hdate & Hpath).
    exists (level f). split; [|done]. rewrite Hds.
    apply list_elem_of_bind. exists entry. split; [|done]. rewrite Hfiles.
    apply list_elem_of_omap. exists (name, Some data). split; [done|].
    cbn [snd fst mbind option_bind]. rewrite Hdate. cbn [mbind option_bind].
    f_equal. destruct f as [fp lv pt dt]. cbn [level participant date file_path] in *.
    by rewrite Hname, Hpath, !str_append_assoc.
Qed.

(** X22.  The files found for a target date are the readable JSON files, in
    the participant directories of the five level directories, whose
    [metadata.date] is the target date itself; a file whose metadata is
    missing or is no dict, or whose date is missing, is left out like one
    that does not parse.  Every file found carries the target date, the level
    of the directory it lies in (not the level its record states) and the
    name of its participant directory.  No file is found for a target that
    is empty or no valid date. *)
Theorem found_files_are_those_dated_the_target
    (dataset : Dag.Dataset) (target_date : string) :
  (∀ f, f ∈ Dag.find_files_by_date dataset target_date ↔
        ∃ entries entry files name kvs mkvs,
          level f ∈ ["IG"; "NA"; "TH"; "TL"; "TM"]
          ∧ dataset (level f) = Some entries
          ∧ entry ∈ entries
          ∧ Dag.entry_name entry = participant f
          ∧ Dag.entry_json entry = Some files
          ∧ (name, Some (PDict kvs)) ∈ files
          ∧ dict_lookup kvs "metadata" = Some (PDict mkvs)
          ∧ dict_lookup mkvs "date" = Some (PStr target_date)
          ∧ date f = target_date
          ∧ target_date ≠ ""
          ∧ is_valid_yyyymmdd target_date = true
          ∧ file_path f
            = "/opt/airflow/dataset" ++ "/" ++ level f ++ "/" ++ participant f ++ "/" ++ name)
  ∧ (target_date = "" ∨ is_valid_yyyymmdd target_date = false →
     Dag.find_files_by_date dataset target_date = []).
Proof.
  assert (∀ f, f ∈ Dag.find_files_by_date dataset target_date ↔
        ∃ entries entry files name kvs mkvs,
          level f ∈ ["IG"; "NA"; "TH"; "TL"; "TM"]
          ∧ dataset (level f) = Some entries
          ∧ entry ∈ entries
          ∧ Dag.entry_name entry = participant f
          ∧ Dag.entry_json entry = Some files
          ∧ (name, Some (PDict kvs)) ∈ files
          ∧ dict_lookup kvs "metadata" = Some (PDict mkvs)
          ∧ dict_lookup mkvs "date" = Some (PStr target_date)
          ∧ date f = target_date
          ∧ target_date ≠ ""
          ∧ is_valid_yyyymmdd target_date = true
          ∧ file_path f
            = "/opt/airflow/dataset" ++ "/" ++ level f ++ "/" ++ participant f ++ "/" ++ name)
    as Hchar.
  { intros f. rewrite find_files_by_date_elem. split.
    - intros (entries & entry & files & name & data & Hlv & Hds & Hentry & Hname & Hfiles
              & Hin & Hdate & Hpath).
      apply matching_date_spec in Hdate as (Hd & Hne & Hvalid & kvs & mkvs & -> & Hm & Hdt).
      by exists entries, entry, files, name, kvs, mkvs.
    - intros (entries & entry & files & name & kvs & mkvs & Hlv & Hds & Hentry & Hname
              & Hfiles & Hin & Hm & Hdt & Hd & Hne & Hvalid & Hpath).
      exists entries, entry, files, name, (PDict kvs).
      repeat (split; [done|]). split; [|done].
      apply matching_date_spec. repeat (split; [done|]). by exists kvs, mkvs. }
  split; [exact Hchar|].
  intros Hbad. destruct (Dag.find_files_by_date dataset target_date) as [|f fs] eqn:Hfind;
    [done|].
  assert (f ∈ f :: fs) as Hf by left.
  apply Hchar in Hf
    as (? & ? & ? & ? & ? & ? & _ & _ & _ & _ & _ & _ & _ & _ & _ & Hne & Hvalid & _).
  destruct Hbad; congruence.
Qed.

(** What the upload loop stores under a key that was free comes from one of
    its files with a valid date, and it counts at most one per file. *)
Lemma upload_fold_new_keys (upload_raises : FileInfo → bool) (files : list FileInfo)
    (bucket : gmap string string) (n : nat) :
  let st := fold_left (upload_step upload_raises) files (bucket, n) in
  (∀ k v, st.1 !! k = Some v →
          bucket !! k = Some v
          ∨ bucket !! k = None
            ∧ ∃ f, f ∈ files ∧ k = s3_key f ∧ v = file_path f
                   ∧ is_valid_yyyymmdd (date f) = true ∧ upload_raises f = false)
  ∧ (st.2 ≤ n + length files)%nat.
Proof.
  revert bucket n. induction files as [|f files IH]; intros bucket n; cbn [fold_left].
  { cbn. split; [by left|lia]. }
  destruct (IH (upload_step upload_raises (bucket, n) f).1
               (upload_step upload_raises (bucket, n) f).2) as [Hnew Hcount].
  rewrite <- surjective_pairing in Hnew, Hcount.
  assert ((upload_step upload_raises (bucket, n) f = (bucket, n))
          ∨ (is_valid_yyyymmdd (date f) = true ∧ bucket !! s3_key f = None
             ∧ upload_raises f = false
             ∧ upload_step upload_raises (bucket, n) f
               = (<[s3_key f := file_path f]> bucket, S n))) as [Hstep|Hstep].
  { unfold upload_step. destruct (is_valid_yyyymmdd (date f)); cbn [negb]; [|by left].
    destruct (bucket !! s3_key f); [by left|].
    destruct (upload_raises f); [by left|by right]. }
  - rewrite Hstep in *. cbn [fst snd] in *. split; [|cbn [length]; lia].
    intros k v Hkv. destruct (Hnew k v Hkv) as [?|(? & g & Hg & ?)]; [by left|].
    right. split; [done|]. exists g. split; [by right|done].
  - destruct Hstep as (Hvalid & Hfree & Hok & Hstep). rewrite Hstep in *.
    cbn [fst snd] in *. split; [|cbn [length]; lia].
    intros k v Hkv. destruct (decide (k = s3_key f)) as [->|Hk].
    + destruct (Hnew _ _ Hkv) as [Hins|[Hins _]]; rewrite lookup_insert_eq in Hins; [|done].
      injection Hins as <-. right. split; [done|]. exists f. split; [by left|done].
    + destruct (Hnew _ _ Hkv) as [Hins|(Hins & g & Hg & ?)];
        rewrite lookup_insert_ne in Hins by done; [by left|].
      right. split; [done|]. exists g. split; [by right|done].
Qed.

(** X23.  The upload task of an execution date adds objects only under the
    partition of that date: every object it stores under a free key has the
    key [raw/year=Y/month=M/day=D/level=L/P/N] where [Y], [M], [D] are cut
    from the execution date without its dashes, [L] and [P] are the level and
    participant directory of a local file dated so, and [N] is the name of
    that file.  It reports no more uploads than files it found, and when no
    upload raises, every file found is in the bucket afterwards: the second
    date check of the loop never skips a file. *)
Theorem a_run_adds_only_under_its_date_partition
    (dataset : Dag.Dataset) (upload_raises : FileInfo → bool)
    (ds : string) (bucket : gmap string string) :
  let current_date := str_replace "-" "" ds in
  let found := Dag.find_files_by_date dataset current_date in
  let after := Dag.upload_to_s3 dataset upload_raises ds bucket in
  (∀ k v, after.1 !! k = Some v → bucket !! k = None →
     ∃ f name, f ∈ found
               ∧ file_path f
                 = "/opt/airflow/dataset" ++ "/" ++ level f ++ "/" ++ participant f
                   ++ "/" ++ name
               ∧ v = file_path f
               ∧ k = s3_key_of (substring 0 4 current_date) (substring 4 2 current_date)
                               (substring 6 2 current_date)
                               (level f) (participant f) (basename name))
  ∧ (after.2 ≤ length found)%nat
  ∧ ((∀ f, f ∈ found → upload_raises f = false) →
     ∀ f, f ∈ found → is_Some (after.1 !! s3_key f)).
Proof.
  intros current_date found after. subst after. unfold Dag.upload_to_s3.
  fold current_date. fold found. rewrite upload_to_s3_fold.
  destruct (upload_fold_new_keys upload_raises found bucket 0) as [Hnew Hcount].
  destruct (upload_fold_spec upload_raises found bucket 0) as (Hkeep & _ & Hin).
  assert (∀ f, f ∈ found →
               date f = current_date ∧ is_valid_yyyymmdd (date f) = true
               ∧ ∃ name, file_path f
                         = "/opt/airflow/dataset" ++ "/" ++ level f ++ "/" ++ participant f
                           ++ "/" ++ name) as Hfound.
  { intros f Hf. apply find_files_by_date_elem in Hf
      as (entries & entry & files & name & data & _ & _ & _ & _ & _ & _ & Hdate & Hpath).
    apply matching_date_spec in Hdate as (Hd & _ & Hvalid & _).
    rewrite Hd. split; [done|]. split; [done|]. by exists name. }
  split; [|split].
  - intros k v Hkv Hfree. destruct (Hnew k v Hkv) as [?|(_ & f & Hf & -> & -> & _)];
      [congruence|].
    destruct (Hfound f Hf) as (Hd & _ & name & Hpath).
    exists f, name. repeat (split; [done|]).
    assert (basename (file_path f) = basename name) as Hname.
    { rewrite Hpath. unfold basename at 1.
      rewrite <- (basename_from_app_slash ""
                    ("/opt/airflow/dataset" ++ "/" ++ level f ++ "/" ++ participant f) name).
      by rewrite !str_append_assoc. }
    unfold s3_key. by rewrite Hd, Hname.
  - exact Hcount.
  - intros Hok f Hf. destruct (Hfound f Hf) as (_ & Hvalid & _).
    by apply Hin.
Qed.

(** X24.  One run of the three tasks posts to the analysis API exactly when
    the upload task added an object to the bucket, which is also when
    [trigger_analysis] passes a result on; the refresh is requested only
    after the analysis request, and only when that one came back without
    connection error, with a status outside 4xx and 5xx and a JSON body.
    Running the same day again, after a run in which no upload raised, adds
    nothing and posts nothing, whatever the API would answer. *)
Theorem a_rerun_of_a_day_posts_nothing
    (dataset : Dag.Dataset) (upload_raises upload_raises' : FileInfo → bool)
    (post post' : Dag.Post) (ds : string) (bucket : gmap string string) :
  let first := Dag.dag_run dataset upload_raises post ds bucket in
  let second := Dag.dag_run dataset upload_raises' post' ds first.1.1 in
  let analyze := "http://api:8000/analyze/new-data" in
  let refresh := "http://api:8000/refresh" in
  (first.2 = [] ↔ size first.1.1 = size bucket)
  ∧ (first.1.2 = None ↔ first.2 = [])
  ∧ (first.2 = []
     ∨ first.2 = [analyze] ∧ Dag.post_succeeds (post analyze) = false
     ∨ first.2 = [analyze; refresh]
       ∧ ∃ status_code, post analyze = Some (status_code, true)
                        ∧ (status_code < 400 ∨ 600 ≤ status_code))
  ∧ ((∀ f, f ∈ Dag.find_files_by_date dataset (str_replace "-" "" ds) →
           upload_raises f = false) →
     second = (first.1.1, None, [])).
Proof.
  intros first second analyze refresh. subst first second.
  unfold Dag.dag_run, Dag.upload_to_s3. rewrite !upload_to_s3_fold.
  set (found := Dag.find_files_by_date dataset (str_replace "-" "" ds)).
  destruct (upload_fold_spec upload_raises found bucket 0) as (_ & Hsize & Hin).
  destruct (fold_left (upload_step upload_raises) found (bucket, 0%nat))
    as [bucket1 uploaded_files] eqn:Hfirst.
  cbn [fst snd] in *. unfold Dag.trigger_analysis, Dag.call_analysis_api.
  fold analyze. fold refresh.
  split; [|split; [|split]].
  - destruct uploaded_files; cbn [Nat.ltb Nat.leb]; split; intros; (done || lia).
  - destruct uploaded_files; cbn [Nat.ltb Nat.leb]; by split.
  - destruct uploaded_files; cbn [Nat.ltb Nat.leb]; [by left|right].
    unfold Dag.post_succeeds.
    destruct (post analyze) as [[status_code json_ok]|]; [|by left].
    destruct json_ok; [|rewrite andb_false_r; by left].
    destruct ((400 <=? status_code) && (status_code <? 600)) eqn:Hstatus; cbn [negb andb];
      [by left|right].
    split; [done|]. exists status_code. split; [done|]. lia.
  - intros Hok.
    rewrite (upload_fold_noop upload_raises' found bucket1 0).
    + done.
    + intros f Hf Hvalid. by apply Hin.
Qed.

(** *** The dashboard's filter request *)

Lemma str_in_spec (x : string) (l : list string) :
  Frontend.str_in x l = true ↔ x ∈ l.
Proof.
  unfold Frontend.str_in. induction l as [|y l IH]; cbn.
  - split; [done|]. intros H. by apply elem_of_nil in H.
  - rewrite orb_true_iff, IH, elem_of_cons.
    destruct (String.eqb_spec x y); split; intros [?|?]; auto; done.
Qed.

Lemma isin_spec (cell : pyval) (values : list string) :
  isin cell values = true ↔ ∃ s, s ∈ values ∧ cell = PStr s.
Proof.
  unfold isin. induction values as [|v values IH]; cbn [existsb].
  - split; [done|]. intros (s & Hs & _). by apply elem_of_nil in Hs.
  - rewrite orb_true_iff, IH. split.
    + intros [Hv|(s & Hs & ->)].
      * destruct cell; try done. cbn in Hv. apply String.eqb_eq in Hv as ->.
        eexists. split; [left|done].
      * exists s. split; [by right|done].
    + intros (s & Hs & ->). apply elem_of_cons in Hs as [->|Hs].
      * left. apply String.eqb_refl.
      * right. by exists s.
Qed.

Lemma dashboard_allow_list (selected : list string) :
  (if negb (Nat.eqb (length selected) 0) && negb (Frontend.str_in "전체" selected)
   then Some selected else None)
  = if bool_decide (selected ≠ [] ∧ "전체" ∉ selected) then Some selected else None.
Proof.
  destruct selected as [|x selected]; cbn [length Nat.eqb negb andb].
  { rewrite bool_decide_eq_false_2; [done|]. by intros [? _]. }
  destruct (Frontend.str_in "전체" (x :: selected)) eqn:Hin; cbn [negb].
  - apply str_in_spec in Hin. rewrite bool_decide_eq_false_2; [done|]. by intros [_ ?].
  - rewrite bool_decide_eq_true_2; [done|]. split; [done|].
    rewrite <- str_in_spec. by rewrite Hin.
Qed.

(** X25.  The request the dashboard builds never holds an empty allow-list.
    Served by the filter engine, it selects the rows whose age is at least
    the lower end of the slider when that end is above 20, at most the upper
    end when that end is below 40, and whose location and level are among
    the selected ones when a selection is non-empty and does not hold 전체.
    So with the slider on its full range and 전체 selected, every row is
    kept, also a row whose age lies outside 20 to 40. *)
Theorem dashboard_request_semantics
    (df : DataFrame) (lo hi : Z) (locs lvls : list string) :
  let filters := Frontend.create_filter_request (lo, hi) locs lvls in
  locations filters ≠ Some [] ∧ levels filters ≠ Some []
  ∧ (∀ r, r ∈ apply_filters df filters ↔
          r ∈ df
          ∧ (20 < lo → num_ge (age r) (of_int lo) = true)
          ∧ (hi < 40 → num_le (age r) (of_int hi) = true)
          ∧ (locs ≠ [] → "전체" ∉ locs → ∃ s, s ∈ locs ∧ location r = PStr s)
          ∧ (lvls ≠ [] → "전체" ∉ lvls → ∃ s, s ∈ lvls ∧ english_level r = PStr s))
  ∧ (lo ≤ 20 → 40 ≤ hi → locs = [] ∨ "전체" ∈ locs → lvls = [] ∨ "전체" ∈ lvls →
     filters = no_filter ∧ apply_filters df filters = df).
Proof.
  intros filters. subst filters. unfold Frontend.create_filter_request.
  cbn [fst snd]. rewrite !dashboard_allow_list.
  split; [|split; [|split]].
  - cbn [locations]. case_bool_decide as H; [|done]. intros [= ->]. by destruct H.
  - cbn [levels]. case_bool_decide as H; [|done]. intros [= ->]. by destruct H.
  - intros r. rewrite apply_filters_satisfies, elem_of_filter_bool.
    unfold satisfies, clause_age_min, clause_age_max, clause_locations, clause_levels.
    cbn [age_min age_max locations levels]. rewrite !andb_true_iff.
    assert (match (if lo >? 20 then Some lo else None) with
            | Some lo => num_ge (age r) (of_int lo)
            | None => true
            end = true ↔ (20 < lo → num_ge (age r) (of_int lo) = true)) as ->.
    { destruct (Z.gtb_spec lo 20); [tauto|]. split; [lia|done]. }
    assert (match (if hi <? 40 then Some hi else None) with
            | Some hi => num_le (age r) (of_int hi)
            | None => true
            end = true ↔ (hi < 40 → num_le (age r) (of_int hi) = true)) as ->.
    { destruct (Z.ltb_spec hi 40); [tauto|]. split; [lia|done]. }
    assert (∀ (selected : list string) (cell : pyval),
              match (if bool_decide (selected ≠ [] ∧ "전체" ∉ selected)
                     then Some selected else None) with
              | Some (v :: vs) => isin cell (v :: vs)
              | _ => true
              end = true
              ↔ (selected ≠ [] → "전체" ∉ selected → ∃ s, s ∈ selected ∧ cell = PStr s))
      as Hlist.
    { intros selected cell. case_bool_decide as H.
      - destruct H as [Hne Hall]. destruct selected as [|v vs]; [done|].
        rewrite isin_spec. tauto.
      - split; [|done]. intros _ Hne Hall. destruct H. by split. }
    rewrite !Hlist. tauto.
  - intros Hlo Hhi Hlocs Hlvls.
    assert ((if lo >? 20 then Some lo else None) = None) as ->.
    { destruct (Z.gtb_spec lo 20); [lia|done]. }
    assert ((if hi <? 40 then Some hi else None) = None) as ->.
    { destruct (Z.ltb_spec hi 40); [lia|done]. }
    rewrite !bool_decide_eq_false_2.
    + split; [done|]. rewrite apply_filters_satisfies. by apply filter_bool_all.
    + intros [? ?]. by destruct Hlvls.
    + intros [? ?]. by destruct Hlocs.
Qed.

(** *** The key layout, written by the pipeline and read by the server *)

Lemma str_endswith_app (suffix p s : string) :
  str_endswith suffix s = true → str_endswith suffix (p ++ s) = true.
Proof.
  intros Hs. induction p as [|c p IH]; [done|].
  rewrite append_cons. unfold str_endswith in *.
  apply andb_true_iff in IH as [Hlen Hsub]. apply Nat.leb_le in Hlen.
  apply andb_true_iff. split.
  - apply Nat.leb_le. cbn [String.length]. lia.
  - cbn [String.length].
    replace (S (String.length (p ++ s)) - String.length suffix)%nat
      with (S (String.length (p ++ s) - String.length suffix)) by lia.
    exact Hsub.
Qed.

(** X26.  An object staged by the pipeline is read back by the server under
    the participant directory it was staged from, with every [_json]
    removed: in the key the pipeline writes, the sixth slash-separated part,
    which is the part the server takes, is the participant directory.  This
    holds when the date parts, the level and the directory name hold no
    slash and the file name ends in [.json]. *)
Theorem staged_key_is_read_back_to_its_participant (f : FileInfo) :
  str_split "/" (substring 0 4 (date f)) = [substring 0 4 (date f)] →
  str_split "/" (substring 4 2 (date f)) = [substring 4 2 (date f)] →
  str_split "/" (substring 6 2 (date f)) = [substring 6 2 (date f)] →
  str_split "/" (level f) = [level f] →
  str_split "/" (participant f) = [participant f] →
  str_endswith ".json" (basename (file_path f)) = true →
  participant_of (s3_key f) = Some (str_replace "_json" "" (participant f))
  ∧ nth 5 (str_split "/" (s3_key f)) "" = participant f.
Proof.
  intros Hy Hm Hd Hl Hp Hjson.
  set (y := substring 0 4 (date f)) in *. set (m := substring 4 2 (date f)) in *.
  set (d := substring 6 2 (date f)) in *.
  set (name := basename (file_path f)) in *.
  assert (s3_key f
          = "raw" ++ "/" ++ ("year=" ++ y) ++ "/" ++ ("month=" ++ m) ++ "/"
            ++ ("day=" ++ d) ++ "/" ++ ("level=" ++ level f) ++ "/"
            ++ participant f ++ "/" ++ name) as Hkey.
  { unfold s3_key, s3_key_of. fold y m d name.
    rewrite !str_append_assoc. reflexivity. }
  assert (str_split "/" (s3_key f)
          = "raw" :: ("year=" ++ y) :: ("month=" ++ m) :: ("day=" ++ d)
              :: ("level=" ++ level f) :: participant f :: str_split "/" name) as Hsplit.
  { rewrite Hkey. rewrite (str_split_app "raw") by done.
    rewrite !str_split_prefixed by done. by rewrite str_split_app. }
  split; [|by rewrite Hsplit].
  unfold participant_of.
  assert (str_endswith ".json" (s3_key f) = true) as ->.
  { rewrite Hkey.
    rewrite <- (str_append_assoc "raw"), <- (str_append_assoc _ "/" (("month=" ++ m) ++ _)),
      <- !str_append_assoc.
    by apply str_endswith_app. }
  cbn [negb]. rewrite Hsplit. cbn [length nth].
  pose proof (str_split_length name).
  destruct (6 <=? _)%nat eqn:Hlen; [done|]. apply Nat.leb_gt in Hlen. lia.
Qed.

End Coverage.

(** ** The model on sample data *)

#[local] Existing Instance sample_builtins.
#[local] Existing Instance sample_pandas.
#[local] Existing Instance sample_scipy.

(** On [sample_table] both pairs of groups have five rows, the sample p-value
    is 0.01 and the first group has the lower mean rank: both evaluators
    accept. *)
Lemma h2_h3_verdict_rule_witness :
  (5 ≤ length (metro_rows (apply_filters sample_table no_filter)))%nat
  ∧ (5 ≤ length (non_metro_rows (apply_filters sample_table no_filter)))%nat
  ∧ (5 ≤ length (exp_rows (apply_filters sample_table no_filter)))%nat
  ∧ (5 ≤ length (no_exp_rows (apply_filters sample_table no_filter)))%nat
  ∧ (∃ r, analyze_hypothesis2 sample_table no_filter = Ok r ∧ result r = ACCEPTED)
  ∧ (∃ r, analyze_hypothesis3 sample_table no_filter = Ok r ∧ result r = ACCEPTED).
Proof.
  assert (5 ≤ length (metro_rows (apply_filters sample_table no_filter)))%nat
    as Hm by (vm_compute; lia).
  assert (5 ≤ length (non_metro_rows (apply_filters sample_table no_filter)))%nat
    as Hn by (vm_compute; lia).
  assert (5 ≤ length (exp_rows (apply_filters sample_table no_filter)))%nat
    as He by (vm_compute; lia).
  assert (5 ≤ length (no_exp_rows (apply_filters sample_table no_filter)))%nat
    as Hne by (vm_compute; lia).
  destruct (h2_h3_verdict_rule sample_table no_filter) as [H2 H3].
  destruct (H2 Hm Hn) as (r2 & Hr2 & _ & Hacc2 & _).
  destruct (H3 He Hne) as (r3 & Hr3 & _ & Hacc3 & _).
  repeat (split; [assumption|]). split.
  - exists r2. split; [exact Hr2|]. apply Hacc2. by vm_compute.
  - exists r3. split; [exact Hr3|]. apply Hacc3. by vm_compute.
Defined.

(** A record whose Combo sub-score is the string N/A is a mapping with
    mapping-valued blocks and has all three gate fields, yet extraction
    raises [ValueError] and the record is skipped as an extraction error. *)
Lemma extraction_error_without_structural_fault :
  well_structured record_bad_combo = true
  ∧ extract_body record_bad_combo = Raise ValueError
  ∧ extract_analysis_data record_bad_combo = None.
Proof. by vm_compute. Qed.

(** [record_no_location] yields no row and leaves the built table as it is
    without it; every row built from [sample_loaded] comes from a record that
    passed the gate. *)
Lemma extractor_completeness_gate_witness :
  extract_analysis_data record_no_location = None
  ∧ load_all_participant_data ([Some record_complete] ++ Some record_no_location :: [])
    = load_all_participant_data ([Some record_complete] ++ [])
  ∧ (∃ r, extract_body (PDict []) = Ok r).
Proof.
  destruct extractor_completeness_gate as (_ & Hloc & Habsent & _ & Hok & _).
  assert (extract_analysis_data record_no_location = None) as Hnone.
  { eapply Hloc; reflexivity. }
  split; [exact Hnone|]. split.
  - apply Habsent. exact Hnone.
  - apply Hok; [reflexivity|]. constructor.
Defined.

(** Four metropolitan rows against ten is an error for hypothesis 2; five
    against five is evaluated; nine rows are too few for hypothesis 1 and ten
    are enough. *)
Lemma minimum_sample_size_witness :
  analyze_hypothesis2 table_4_10 no_filter
  = Raise (HTTPException 400 "각 그룹에 충분한 데이터가 없습니다.")
  ∧ (∃ r, analyze_hypothesis2 sample_table no_filter = Ok r)
  ∧ analyze_hypothesis1 (take 9 sample_table) no_filter
    = Raise (HTTPException 400 "분석에 충분한 데이터가 없습니다.")
  ∧ (∃ r, analyze_hypothesis1 sample_table no_filter = Ok r)
  ∧ analyze_hypothesis3 table_4_10 no_filter
    = Raise (HTTPException 400 "각 그룹에 충분한 데이터가 없습니다.")
  ∧ (∃ r, analyze_hypothesis3 sample_table no_filter = Ok r).
Proof.
  destruct (minimum_sample_size_enforced table_4_10 no_filter)
    as (_ & _ & _ & _ & H3low & _ & H2low & _).
  destruct (minimum_sample_size_enforced sample_table no_filter)
    as (_ & H1ok & _ & _ & _ & H3ok & _ & H2ok).
  destruct (minimum_sample_size_enforced (take 9 sample_table) no_filter)
    as (H1low & _).
  repeat apply conj.
  - apply H2low; by vm_compute.
  - apply H2ok; by vm_compute.
  - apply H1low. vm_compute. lia.
  - apply H1ok. vm_compute. lia.
  - apply H3low. vm_compute. lia.
  - apply H3ok; vm_compute; lia.
Defined.

(** The empty location list filters nothing, where the conjunction as stated
    keeps no row. *)
Lemma empty_allow_list_keeps_every_row :
  apply_filters sample_table empty_locations_filter = sample_table
  ∧ List.filter (spec_satisfies empty_locations_filter) sample_table = []
  ∧ apply_filters sample_table empty_locations_filter
    ≠ List.filter (spec_satisfies empty_locations_filter) sample_table.
Proof. by vm_compute. Qed.

(** The table built from the records of level IG, TM, ZZ and NA has three
    rows, of ranks 1, 3 and 5 in this order; the record of level ZZ has no
    row. *)
Lemma level_mapping_witness :
  ∃ r1 r2 r3,
    load_all_participant_data levels_loaded = Ok [r1; r2; r3]
    ∧ (english_level r1 = PStr "IG" ∧ english_level_numeric r1 = of_int 1)
    ∧ (english_level r2 = PStr "TM" ∧ english_level_numeric r2 = of_int 3)
    ∧ (english_level r3 = PStr "NA" ∧ english_level_numeric r3 = of_int 5)
    ∧ Forall (λ r, english_level r ≠ PStr "ZZ") [r1; r2; r3].
Proof.
  destruct level_mapping_exact_injective_consistent
    as (_ & _ & _ & _ & _ & Hrows & _ & Hdrop).
  assert (∃ r1 r2 r3,
            load_all_participant_data levels_loaded = Ok [r1; r2; r3]
            ∧ english_level r1 = PStr "IG" ∧ english_level r2 = PStr "TM"
            ∧ english_level r3 = PStr "NA") as (r1 & r2 & r3 & Hload & H1 & H2 & H3).
  { vm_compute. by repeat eexists. }
  assert (∀ r code, r ∈ [r1; r2; r3] → english_level r = PStr code →
            ∃ n, LEVEL_MAPPING !! code = Some n ∧ english_level_numeric r = of_int n)
    as Hrank.
  { intros r code Hr Hcode.
    destruct (Hrows levels_loaded [r1; r2; r3] r Hload Hr) as (s & n & Hs & Hn & Hx).
    rewrite Hcode in Hs. injection Hs as <-. by exists n. }
  assert ("ZZ" ∉ ["IG"; "TL"; "TM"; "TH"; "NA"]) as Hzz.
  { apply (bool_decide_unpack _). by vm_compute. }
  exists r1, r2, r3. split; [exact Hload|]. split; [|split; [|split]].
  - split; [exact H1|].
    destruct (Hrank r1 "IG") as (n & Hn & ->); [by left|exact H1|].
    vm_compute in Hn. by injection Hn as <-.
  - split; [exact H2|].
    destruct (Hrank r2 "TM") as (n & Hn & ->); [by right; left|exact H2|].
    vm_compute in Hn. by injection Hn as <-.
  - split; [exact H3|].
    destruct (Hrank r3 "NA") as (n & Hn & ->); [by right; right; left|exact H3|].
    vm_compute in Hn. by injection Hn as <-.
  - repeat constructor.
    + apply (Hdrop levels_loaded [r1; r2; r3] r1 "ZZ" Hload); [by left|exact Hzz].
    + apply (Hdrop levels_loaded [r1; r2; r3] r2 "ZZ" Hload); [by right; left|exact Hzz].
    + apply (Hdrop levels_loaded [r1; r2; r3] r3 "ZZ" Hload);
        [by right; right; left|exact Hzz].
Defined.

(** Age 24 is in the first bucket. *)
Lemma age_group_witness :
  0 ≤ 24
  ∧ ∃ g, create_age_groups (of_int 24) = Ok g
         ∧ ((g = "20대 초반" ∧ 0 ≤ 24 ≤ 24) ∨ (g = "20대 후반" ∧ 25 ≤ 24 ≤ 29)
            ∨ (g = "30대 초반" ∧ 30 ≤ 24 ≤ 34) ∨ (g = "30대 후반" ∧ 35 ≤ 24 ≤ 39)
            ∨ (g = "40대 이상" ∧ 40 ≤ 24)).
Proof.
  assert (0 ≤ 24) as H24 by lia.
  split; [exact H24|].
  exact (proj1 age_group_five_contiguous_buckets 24 H24).
Defined.

(** Ten rows of one age group and one level report F = 0 and p = 1, and
    the verdict is inconclusive, the correlation of a constant column being
    NaN.  The fourteen rows of [table_4_10] span the five age groups; their
    samples hold the ranks of 4, 3, 3, 2 and 2 rows, and the reported F is
    the statistic of these samples, 207/868. *)
Lemma h1_anova_witness :
  ((10 ≤ length (apply_filters single_group_table no_filter))%nat
   ∧ length (unique (age_group <$> apply_filters single_group_table no_filter)) = 1%nat
   ∧ ∃ r, analyze_hypothesis1 single_group_table no_filter = Ok r
          ∧ dict_lookup (statistics r) "anova_f_stat" = Some (PInt 0)
          ∧ dict_lookup (statistics r) "anova_p_value" = Some (PInt 1)
          ∧ result r = INCONCLUSIVE)
  ∧ ((10 ≤ length (apply_filters table_4_10 no_filter))%nat
     ∧ unique (age_group <$> apply_filters table_4_10 no_filter)
       = ["20대 초반"; "20대 후반"; "30대 초반"; "30대 후반"; "40대 이상"]
     ∧ groups_data (apply_filters table_4_10 no_filter)
         (unique (age_group <$> apply_filters table_4_10 no_filter))
       = (λ sample : list Z, of_int <$> sample)
           <$> ([[2; 3; 3; 3]; [2; 3; 3]; [2; 3; 3]; [2; 3]; [3; 3]] : list (list Z))
     ∧ ∃ r, analyze_hypothesis1 table_4_10 no_filter = Ok r
            ∧ dict_lookup (statistics r) "anova_f_stat"
              = Some (PFloat (Num (207 # 868)))
            ∧ concat (groups_data (apply_filters table_4_10 no_filter)
                        (unique (age_group <$> apply_filters table_4_10 no_filter)))
              ≡ₚ english_level_numeric <$> apply_filters table_4_10 no_filter).
Proof.
  split.
  - assert (10 ≤ length (apply_filters single_group_table no_filter))%nat
      as Hlen by (vm_compute; lia).
    assert (length (unique (age_group <$> apply_filters single_group_table no_filter))
            = 1%nat) as Hone by (by vm_compute).
    destruct (h1_single_age_group_anova_neutral single_group_table no_filter Hlen)
      as (r & Hr & Hsingle & _ & _ & _ & (_ & _ & Hinc) & _).
    split; [exact Hlen|]. split; [exact Hone|].
    exists r. split; [exact Hr|].
    destruct (Hsingle Hone) as [Hf Hp].
    split; [exact Hf|]. split; [exact Hp|].
    apply Hinc. split; intros [Hlt _]; vm_compute in Hlt; discriminate.
  - assert (10 ≤ length (apply_filters table_4_10 no_filter))%nat
      as Hlen by (vm_compute; lia).
    assert (1 < length (unique (age_group <$> apply_filters table_4_10 no_filter)))%nat
      as Hmany by (vm_compute; lia).
    destruct (h1_single_age_group_anova_neutral table_4_10 no_filter Hlen)
      as (r & Hr & _ & Hcomputed & _ & (_ & _ & Hall) & _).
    split; [exact Hlen|]. split; [by vm_compute|]. split; [by vm_compute|].
    exists r. split; [exact Hr|].
    destruct (Hcomputed Hmany) as [Hf _].
    split; [|exact Hall]. rewrite Hf. by vm_compute.
Defined.

(** The key of [sample_file].  Staging it, a file of another participant
    and the first one once more into an empty bucket stores two objects,
    each file under its own key, and reports 2; staging the three again
    reports 0 and stores nothing more. *)
Lemma staging_witness :
  let files := [sample_file; sample_file_tm; sample_file] in
  let first := Stager.upload_to_s3 (λ _, false) files ∅ in
  let second := Stager.upload_to_s3 (λ _, false) files first.1 in
  Stager.s3_key sample_file
  = "raw/year=2025/month=08/day=01/level=IG/ESPEAK_0001_json/ESPEAK_0001_1.json"
  ∧ Stager.s3_key sample_file ≠ Stager.s3_key sample_file_tm
  ∧ first.1 !! Stager.s3_key sample_file = Some (Stager.file_path sample_file)
  ∧ first.1 !! Stager.s3_key sample_file_tm = Some (Stager.file_path sample_file_tm)
  ∧ size first.1 = 2%nat
  ∧ first.2 = 2%nat
  ∧ second = (first.1, 0%nat).
Proof.
  intros files first second.
  destruct (staging_skips_existing_objects (λ _, false) (λ _, false) files ∅)
    as (Hlayout & _ & Hinj & _ & Hlookup & _ & Hsize & Hsecond & _).
  fold first in Hlookup, Hsize, Hsecond. fold second in Hsecond.
  assert (first.1 !! Stager.s3_key sample_file = Some (Stager.file_path sample_file))
    as H1.
  { rewrite Hlookup by apply lookup_empty. by vm_compute. }
  assert (first.1 !! Stager.s3_key sample_file_tm
          = Some (Stager.file_path sample_file_tm)) as H2.
  { rewrite Hlookup by apply lookup_empty. by vm_compute. }
  assert (Stager.s3_key sample_file ≠ Stager.s3_key sample_file_tm) as Hdistinct.
  { intros Hkey. apply Hinj in Hkey as (_ & _ & _ & Hlevel & _).
    - discriminate Hlevel.
    - repeat split; by vm_compute.
    - repeat split; by vm_compute. }
  assert (first.2 = 2%nat) as Hcount by (by vm_compute).
  split; [rewrite Hlayout; by vm_compute|]. split; [exact Hdistinct|].
  split; [exact H1|]. split; [exact H2|]. split.
  - rewrite Hsize, Hcount. reflexivity.
  - split; [exact Hcount|]. apply Hsecond. intros f _. reflexivity.
Defined.

(** The complete record with its age set to 0 yields no row. *)
Lemma falsy_age_witness :
  truthy (PInt 0) = false
  ∧ extract_analysis_data record_age_zero = None
  ∧ (∃ e, extract_analysis_data record_complete = Some e).
Proof.
  assert (truthy (PInt 0) = false) as Hfalsy by reflexivity.
  split; [exact Hfalsy|]. split.
  - refine (proj1 (falsy_age_is_rejected _ (sample_speaker (PInt 0) "서울특별시 강남구" "IG")
                     (PInt 0) _ _ Hfalsy)); reflexivity.
  - by eexists.
Defined.

(** The one row built from [sample_loaded] has a finite age, the group of
    that age, the rank of its level and the flags of its own cells. *)
Lemma built_rows_witness :
  ∃ r, load_all_participant_data sample_loaded = Ok [r]
       ∧ r ∈ [r]
       ∧ (∃ q, age r = Num q)
       ∧ age_group r ∈ AGE_GROUP_LABELS
       ∧ create_age_groups (age r) = Ok (age_group r)
       ∧ map_level (english_level r) = Ok (english_level_numeric r)
       ∧ is_metropolitan r = classify_metropolitan (location r)
       ∧ english_speaking_experience r = extract_english_experience (interview r).
Proof.
  assert (∃ r, load_all_participant_data sample_loaded = Ok [r]) as [r Hload].
  { vm_compute. by eexists. }
  assert (r ∈ [r]) as Hr by (by left).
  exists r. split; [exact Hload|]. split; [exact Hr|].
  exact (built_rows_carry_their_own_derived_columns sample_loaded [r] r Hload Hr).
Defined.

(** The table built from [sample_loaded] keeps the order of its two
    extracted records and is no longer than the four objects fetched. *)
Lemma built_table_order_witness :
  ∃ t, load_all_participant_data sample_loaded = Ok t
       ∧ sublist (participant_id <$> t) (x_participant_id <$> collect_rows sample_loaded)
       ∧ (length t ≤ length (collect_rows sample_loaded) ≤ length sample_loaded)%nat.
Proof.
  assert (∃ t, load_all_participant_data sample_loaded = Ok t) as [t Hload].
  { vm_compute. by eexists. }
  exists t. split; [exact Hload|].
  exact (built_table_follows_listing_order sample_loaded t Hload).
Defined.

(** A failed fetch and a record without location give no row: the build
    raises [KeyError]. *)
Lemma build_without_rows_witness :
  load_all_participant_data [None; Some record_no_location] = Raise KeyError.
Proof.
  apply build_without_rows_raises_KeyError.
  intros d Hd _. apply elem_of_cons in Hd as [Hd|Hd]; [discriminate|].
  apply list_elem_of_singleton in Hd. injection Hd as ->. by vm_compute.
Defined.

(** A record with an infinite age after a complete one: the build raises
    [OverflowError]. *)
Lemma infinite_age_witness :
  ∃ e, extract_analysis_data record_infinite_age = Some e
       ∧ to_numeric (x_age e) = Inf false
       ∧ (∃ ex, load_all_participant_data [Some record_complete; Some record_infinite_age]
                = Raise ex)
       ∧ load_all_participant_data [Some record_complete; Some record_infinite_age]
         = Raise OverflowError.
Proof.
  assert (∃ e, extract_analysis_data record_infinite_age = Some e
               ∧ to_numeric (x_age e) = Inf false) as (e & He & Hinf).
  { eexists. split; by vm_compute. }
  assert (Some record_infinite_age ∈ [Some record_complete; Some record_infinite_age])
    as Hin by (right; left).
  assert (truthy record_infinite_age = true) as Htruthy by (by vm_compute).
  destruct (infinite_age_aborts_the_build
              [Some record_complete; Some record_infinite_age]
              record_infinite_age e false Hin Htruthy He Hinf) as [Hex Hoverflow].
  exists e. split; [exact He|]. split; [exact Hinf|]. split; [exact Hex|].
  apply Hoverflow. vm_compute. repeat constructor; by eexists.
Defined.

(** The fields of the row extracted from [record_complete]. *)
Lemma extracted_fields_witness :
  ∃ e, extract_analysis_data record_complete = Some e
       ∧ x_age e = PInt 30
       ∧ x_english_level e = PStr "IG"
       ∧ x_self_grade e = PStr ""
       ∧ x_file_date e = PStr "20250801".
Proof.
  assert (∃ e, extract_analysis_data record_complete = Some e) as [e He].
  { vm_compute. by eexists. }
  destruct (extracted_fields_are_values_or_defaults record_complete e He)
    as (kvs & skvs & lkvs & mkvs & Hdata & Hs & Hl & Hm & _ & Hage & _ & _ & Hlevel
        & Hgrade & _ & Hdate & _).
  injection Hdata as <-.
  vm_compute in Hs. injection Hs as <-.
  vm_compute in Hl. injection Hl as <-.
  vm_compute in Hm. injection Hm as <-.
  exists e. split; [exact He|]. by rewrite Hage, Hlevel, Hgrade, Hdate.
Defined.

(** Of the three sub-scores of [record_with_scores] the two filled ones are
    kept, in order. *)
Lemma combo_scores_witness :
  ∃ e, extract_analysis_data record_with_scores = Some e
       ∧ Forall2 (λ kv score, score.1 = kv.1 ∧ py_float kv.2 = Ok score.2)
                 (combo_entries record_with_scores) (x_combo_scores e)
       ∧ Forall (λ score, String.prefix "Combo" score.1 = true) (x_combo_scores e)
       ∧ length (x_combo_scores e) = 2%nat.
Proof.
  assert (∃ e, extract_analysis_data record_with_scores = Some e
               ∧ length (x_combo_scores e) = 2%nat) as (e & He & Hlen).
  { eexists. split; by vm_compute. }
  destruct (combo_scores_are_the_nonblank_Combo_entries record_with_scores e He)
    as [Hscores Hkeys].
  exists e. split; [exact He|]. split; [exact Hscores|]. split; [exact Hkeys|exact Hlen].
Defined.

(** Ages from 35 up to 25: no row of [sample_table], and every evaluator
    reports too little data. *)
Lemma inverted_age_range_witness :
  25 < 35
  ∧ apply_filters sample_table
      {| age_min := Some 35; age_max := Some 25; locations := None; levels := None |} = []
  ∧ analyze_hypothesis1 sample_table
      {| age_min := Some 35; age_max := Some 25; locations := None; levels := None |}
    = Raise (HTTPException 400 "분석에 충분한 데이터가 없습니다.").
Proof.
  assert (25 < 35) as Hlt by lia.
  destruct (inverted_age_range_selects_nothing sample_table 35 25 None None Hlt)
    as (Hnone & H1 & _).
  split; [exact Hlt|]. split; [exact Hnone|exact H1].
Defined.

(** Without a prefix the load fails with HTTP 500, and a reload at that
    moment leaves the server without the table it had. *)
Lemma failed_reload_witness :
  Server.load_all_participant_data storage_without_prefix
  = Raise (HTTPException 500 "S3 설정이 누락되었습니다.")
  ∧ Server.reload_data storage_without_prefix (Some sample_table)
    = (Raise (HTTPException 500 "S3 설정이 누락되었습니다."), None)
  ∧ Server.health_check storage_without_prefix (Some sample_table)
    = (Server.healthy 10, Some sample_table).
Proof.
  assert (Server.load_all_participant_data storage_without_prefix
          = Raise (HTTPException 500 "S3 설정이 누락되었습니다.")) as Hload.
  { by vm_compute. }
  destruct (failed_reload_empties_the_cache storage_without_prefix sample_table _
              no_filter Hload) as (Hreload & _ & _ & _ & _ & Hhealth).
  split; [exact Hload|]. split; [exact Hreload|exact Hhealth].
Defined.

(** A health check on [sample_storage] fills the cache; an analysis request
    that arrives when the prefix is gone is still served from it. *)
Lemma cached_table_witness :
  ∃ df, Server.cache_after_all
          [(sample_storage, Server.GET_health);
           (storage_without_prefix, Server.POST_hypothesis1 no_filter)] None = Some df
        ∧ Server.load_all_participant_data sample_storage = Ok df
        ∧ Server.cache_after_all
            ([(sample_storage, Server.GET_health);
              (storage_without_prefix, Server.POST_hypothesis1 no_filter)]
             ++ [(storage_without_prefix, Server.GET_health)]) None = Some df.
Proof.
  assert (∃ df, Server.cache_after_all
                  [(sample_storage, Server.GET_health);
                   (storage_without_prefix, Server.POST_hypothesis1 no_filter)] None
                = Some df
                ∧ Server.load_all_participant_data sample_storage = Ok df)
    as (df & Hcache & Hload).
  { eexists. split; by vm_compute. }
  destruct (cached_table_comes_from_a_load _ df Hcache) as [_ Hkeep].
  exists df. split; [exact Hcache|]. split; [exact Hload|].
  apply Hkeep. discriminate.
Defined.

(** [sample_storage] lists three objects of two participant directories.
    The representatives are the first object of each; the first has a row
    and the second, of level ZZ, has none, so the table has one row. *)
Lemma provenance_witness :
  ∃ df rep_files rows,
    Server.load_all_participant_data sample_storage = Ok df
    ∧ rep_files
      = [("ESPEAK_0001",
          "raw/year=2025/month=08/day=01/level=IG/ESPEAK_0001_json/ESPEAK_0001_1.json");
         ("ESPEAK_0002",
          "raw/year=2025/month=08/day=01/level=TM/ESPEAK_0002_json/ESPEAK_0002_1.json")]
    ∧ Forall2 (λ pid_key row,
                 match row with
                 | Some r => row_of_object sample_storage pid_key.2 r
                 | None => ∀ r, ¬ row_of_object sample_storage pid_key.2 r
                 end) rep_files rows
    ∧ df = omap id rows
    ∧ length df = 1%nat.
Proof.
  assert (∃ df, Server.load_all_participant_data sample_storage = Ok df
                ∧ length df = 1%nat) as (df & Hload & Hlen).
  { eexists. split; by vm_compute. }
  destruct (every_row_comes_from_a_first_listed_file sample_storage df Hload)
    as (_ & rep_files & rows & Hreps & _ & _ & Hrows & Hdf & _).
  exists df, rep_files, rows. split; [exact Hload|]. split.
  - vm_compute in Hreps. by injection Hreps as <-.
  - split; [exact Hrows|]. split; [exact Hdf|exact Hlen].
Defined.

(** The key of [sample_file] is read back to participant [ESPEAK_0001]. *)
Lemma staged_key_witness :
  str_endswith ".json" (Stager.basename (Stager.file_path sample_file)) = true
  ∧ participant_of (Stager.s3_key sample_file) = Some "ESPEAK_0001".
Proof.
  assert (str_endswith ".json" (Stager.basename (Stager.file_path sample_file)) = true)
    as Hjson by (by vm_compute).
  split; [exact Hjson|].
  destruct (staged_key_is_read_back_to_its_participant sample_file) as [Hread _];
    [by vm_compute..|].
  rewrite Hread. by vm_compute.
Defined.
